(** * glustercli/cli.py : a shallow embedding and its verified properties

    The module [cli.py] drives the [gluster] command line tool: every public
    function builds an argument vector, runs it through [utils.execCmd],
    classifies the outcome and maps the XML response to Python dicts.

    The embedding follows the Python text function by function:
    - Python [str] values are [string]s of bytes ([str.lower], [str.upper]
      act on ASCII letters only, as they do for Python 2 byte strings);
    - [None]-able values ([Element.text], the result of [find]) are options;
    - exceptions are the [exn] type, raised and caught in a small state and
      error monad [M]; the state keeps the two module globals [_peer] and
      [_peerUUID] and the list of argument vectors given to [utils.execCmd];
    - what the module imports ([utils], [xml.etree], [socket], [ethtool])
      is the class [Env]. *)

From Stdlib Require Import String Ascii List ZArith Lia Bool.
From Stdlib Require DecimalString.
Import ListNotations.
Local Open Scope string_scope.
Local Open Scope Z_scope.

Set Implicit Arguments.

(** ** Python byte strings *)

Module PyStr.

Definition is_upper (c : ascii) : bool :=
  let n := nat_of_ascii c in (Nat.leb 65 n && Nat.leb n 90)%bool.

Definition is_lower (c : ascii) : bool :=
  let n := nat_of_ascii c in (Nat.leb 97 n && Nat.leb n 122)%bool.

Definition lower_char (c : ascii) : ascii :=
  if is_upper c then ascii_of_nat (nat_of_ascii c + 32) else c.

Definition upper_char (c : ascii) : ascii :=
  if is_lower c then ascii_of_nat (nat_of_ascii c - 32) else c.

Fixpoint map (f : ascii -> ascii) (s : string) : string :=
  match s with
  | EmptyString => EmptyString
  | String c s' => String (f c) (map f s')
  end.

(** [s.lower()] and [s.upper()] *)
Definition lower : string -> string := map lower_char.
Definition upper : string -> string := map upper_char.

(** [s.startswith(p)] *)
Fixpoint startswith (p s : string) : bool :=
  match p, s with
  | EmptyString, _ => true
  | String a p', String b s' => (Ascii.eqb a b && startswith p' s')%bool
  | String _ _, EmptyString => false
  end.

(** [p in s] *)
Fixpoint contains (p s : string) : bool :=
  match s with
  | EmptyString => startswith p EmptyString
  | String _ s' => (startswith p s || contains p s')%bool
  end.

Fixpoint rev_onto (s acc : string) : string :=
  match s with
  | EmptyString => acc
  | String c s' => rev_onto s' (String c acc)
  end.

Definition rev (s : string) : string := rev_onto s EmptyString.

(** [s.endswith(p)] *)
Definition endswith (p s : string) : bool := startswith (rev p) (rev s).

(** the characters [str.strip()] removes: space, \t, \n, \v, \f, \r *)
Definition is_space (c : ascii) : bool :=
  let n := nat_of_ascii c in
  (Nat.eqb n 32 || (Nat.leb 9 n && Nat.leb n 13))%bool.

Fixpoint lstrip (s : string) : string :=
  match s with
  | EmptyString => EmptyString
  | String c s' => if is_space c then lstrip s' else s
  end.

(** [s.strip()] *)
Definition strip (s : string) : string := rev (lstrip (rev (lstrip s))).

(** [s.replace(a, b)] for one-character [a] and [b] *)
Definition replace (a b : ascii) : string -> string :=
  map (fun c => if Ascii.eqb c a then b else c).

(** [sep.join(l)] *)
Fixpoint join (sep : string) (l : list string) : string :=
  match l with
  | [] => EmptyString
  | [x] => x
  | x :: l' => x ++ sep ++ join sep l'
  end.

(** iterating over a [str] yields its one-character substrings *)
Fixpoint chars (s : string) : list string :=
  match s with
  | EmptyString => []
  | String c s' => String c EmptyString :: chars s'
  end.

(** [s.split(sep)] for a non-empty [sep]: [skip] counts the characters of
    a separator occurrence still to be dropped, [cur] is the current field
    in reverse. *)
Fixpoint split_go (sep : string) (skip : nat) (cur s : string) : list string :=
  match s with
  | EmptyString => [rev cur]
  | String c s' =>
      match skip with
      | S k => split_go sep k cur s'
      | O =>
          if startswith sep s
          then rev cur :: split_go sep (String.length sep - 1) EmptyString s'
          else split_go sep O (String c cur) s'
      end
  end.

Definition split (sep s : string) : list string := split_go sep O EmptyString s.

(** ["%s" % n] for an integer [n] *)
Definition of_Z (n : Z) : string :=
  DecimalString.NilZero.string_of_int (Z.to_int n).

Definition is_digit (c : ascii) : bool :=
  let n := nat_of_ascii c in (Nat.leb 48 n && Nat.leb n 57)%bool.

Fixpoint digits (acc : Z) (s : string) : option Z :=
  match s with
  | EmptyString => Some acc
  | String c s' =>
      if is_digit c
      then digits (10 * acc + Z.of_nat (nat_of_ascii c - 48)) s'
      else None
  end.

Definition unsigned (s : string) : option Z :=
  match s with
  | EmptyString => None
  | _ => digits 0 s
  end.

(** A reading of [int(s)] for the examples: white space around the number
    and between sign and digits is dropped, one sign is allowed, then at
    least one decimal digit; [None] stands for [ValueError]. *)
Definition to_int (s : string) : option Z :=
  match strip s with
  | String "-" d => option_map Z.opp (unsigned (lstrip d))
  | String "+" d => unsigned (lstrip d)
  | d => unsigned d
  end.

(** ["%s" % x] for a value that may be [None] *)
Definition of_opt (x : option string) : string :=
  match x with Some s => s | None => "None" end.

(** [x or ''] *)
Definition or_empty (x : option string) : string :=
  match x with Some s => s | None => "" end.

(** the one-character string ["\n"] *)
Definition newline : string := String (ascii_of_nat 10) EmptyString.

(** truth value of a string: non-empty *)
Definition truthy (s : string) : bool :=
  match s with EmptyString => false | _ => true end.

End PyStr.

(** ** ElementTree elements

    An element has a tag, a text ([None] when the element is empty) and its
    children in document order.  Attributes and tails are never read by the
    module. *)

#[warning="-register-all"]
Inductive Element : Type :=
  Elem (tag : string) (text : option string) (children : list Element).

Definition tag (e : Element) : string := let 'Elem t _ _ := e in t.
Definition text (e : Element) : option string := let 'Elem _ x _ := e in x.
Definition getchildren (e : Element) : list Element := let 'Elem _ _ c := e in c.

(** one step of a path: the children with the given tag *)
Definition step (t : string) (e : Element) : list Element :=
  filter (fun c => String.eqb (tag c) t) (getchildren e).

(** [e.findall('a/b/c')], the path given as the list of its tags *)
Fixpoint findall_from (path : list string) (es : list Element) : list Element :=
  match path with
  | [] => es
  | t :: path' => findall_from path' (flat_map (step t) es)
  end.

Definition findall (path : string) (e : Element) : list Element :=
  findall_from (PyStr.split "/" path) [e].

(** [e.find('a/b/c')]: the first match, or [None] *)
Definition find (path : string) (e : Element) : option Element :=
  hd_error (findall path e).

(** ** Exceptions *)

Definition argv := list string.

Inductive exn : Type :=
| GlusterBusy (cmd : argv) (rc : Z) (out err : string)
| GlusterXMLError (cmd : argv) (xml : string)
| GlusterCmdFailed (cmd : argv) (rc : Z) (err : option string)
| GlusterPeerNotFound (hostName : string)
| ParseError
| AttributeError
| ValueError
| TypeError
| KeyError (key : string)
| IndexError
| NameError (name : string).

(** [_etreeExceptions]: what the [except] clauses of the module catch *)
Definition _etreeExceptions (e : exn) : bool :=
  match e with
  | ParseError | AttributeError | ValueError => true
  | _ => false
  end.

Inductive result (A : Type) : Type :=
| Ok (a : A)
| Raise (e : exn).

Arguments Ok {A} a.
Arguments Raise {A} e.

(** ** Module state and the monad *)

Record World : Type := mkWorld {
  _peerUUID : string;          (* global [_peerUUID] *)
  _peer : string;              (* global [_peer] *)
  calls : list argv            (* argument vectors run so far, oldest first *)
}.

Definition initial : World := mkWorld "" "" [].

Definition M (A : Type) : Type := World -> result A * World.

Definition ret {A} (a : A) : M A := fun w => (Ok a, w).

Definition raise {A} (e : exn) : M A := fun w => (Raise e, w).

Definition bind {A B} (m : M A) (k : A -> M B) : M B :=
  fun w => match m w with
           | (Ok a, w') => k a w'
           | (Raise e, w') => (Raise e, w')
           end.

(** [try: m  except <sel>: h] *)
Definition try_except {A} (m : M A) (sel : exn -> bool) (h : exn -> M A) : M A :=
  fun w => match m w with
           | (Raise e, w') => if sel e then h e w' else (Raise e, w')
           | r => r
           end.

(** a pure computation that may raise *)
Definition lift {A} (r : result A) : M A := fun w => (r, w).

Declare Scope py_scope.
Delimit Scope py_scope with py.
Notation "x <- m ;; k" := (bind m (fun x => k))
  (at level 61, m at next level, right associativity) : py_scope.
Notation "' p <- m ;; k" := (bind m (fun x => let p := x in k))
  (at level 61, p pattern, m at next level, right associativity) : py_scope.
Notation "m ;;; k" := (bind m (fun _ => k))
  (at level 61, right associativity) : py_scope.
Local Open Scope py_scope.

(** pure counterparts, for the mappers that touch no state *)
Definition rbind {A B} (r : result A) (k : A -> result B) : result B :=
  match r with Ok a => k a | Raise e => Raise e end.

Notation "x <~ r ;; k" := (rbind r (fun x => k))
  (at level 61, r at next level, right associativity) : py_scope.

(** [x.text] where [x] is the result of a [find]: [AttributeError] on [None] *)
Definition text_of (x : option Element) : result (option string) :=
  match x with
  | Some e => Ok (text e)
  | None => Raise AttributeError
  end.

(** ** What the module imports

    [utils.execCmd] runs an argument vector and returns the exit code and the
    two output streams as byte strings ([_throwIfBusy] lower-cases their
    concatenation, [_execGlusterXml] hands [out] to the XML parser).
    [fromstring] is [etree.fromstring] ([None] for a [ParseError]) and
    [tostring] is [etree.tostring].  The builtin [int] on strings and the
    floating point formatting of sizes are taken from the environment as
    well. *)

Class Env : Type := {
  gluster_cmd : string;                       (* [_glusterCommandPath.cmd] *)
  execCmd : argv -> Z * string * string;      (* [utils.execCmd] *)
  fromstring : string -> option Element;      (* [etree.fromstring] *)
  tostring : Element -> string;               (* [etree.tostring] *)
  getfqdn : string;                           (* [socket.getfqdn()] *)
  gethostbyname : string -> string;           (* [socket.gethostbyname] *)
  get_active_devices : list string;           (* [ethtool.get_active_devices()] *)
  get_ipaddr : string -> option string;       (* [ethtool.get_ipaddr], [None] for [IOError] *)
  int_of_string : string -> option Z;         (* [int(s)], [None] for [ValueError] *)
  format_3f : Z -> string                     (* ['%.3f' % (n / (1024.0 * 1024.0))] *)
}.

(** ** Values returned to the caller: the Python dicts, lists and strings
    the mappers build.  Dict keys are strings, or [None] where the text of
    an empty element is used as a key. *)

#[warning="-register-all"]
Inductive pyval : Type :=
| PNone
| PBool (b : bool)
| PStr (s : string)
| PList (l : list pyval)
| PTuple (l : list pyval)
| PDict (d : list (option string * pyval)).

Definition PText (x : option string) : pyval :=
  match x with Some s => PStr s | None => PNone end.

Definition key_eqb (a b : option string) : bool :=
  match a, b with
  | Some x, Some y => String.eqb x y
  | None, None => true
  | _, _ => false
  end.

(** [d[k] = v] *)
Fixpoint dict_set {V} (k : option string) (v : V) (d : list (option string * V))
  : list (option string * V) :=
  match d with
  | [] => [(k, v)]
  | (k', v') :: d' =>
      if key_eqb k k' then (k, v) :: d' else (k', v') :: dict_set k v d'
  end.

(** [d.get(k)] *)
Fixpoint dict_get {V} (k : option string) (d : list (option string * V)) : option V :=
  match d with
  | [] => None
  | (k', v) :: d' => if key_eqb k k' then Some v else dict_get k d'
  end.

(** [d[k]] for a literal key: [KeyError] when absent *)
Definition dict_item {V} (k : string) (d : list (option string * V)) : result V :=
  match dict_get (Some k) d with
  | Some v => Ok v
  | None => Raise (KeyError k)
  end.

(** a dict literal entry *)
Definition item (k : string) (v : pyval) : option string * pyval := (Some k, v).

(** [for x in l: ...] where the body may raise: the first exception wins *)
Fixpoint mapR {A B} (f : A -> result B) (l : list A) : result (list B) :=
  match l with
  | [] => Ok []
  | a :: l' => b <~ f a ;; bs <~ mapR f l' ;; Ok (b :: bs)
  end.

(** [el.find(path).text] *)
Definition ftext (path : string) (el : Element) : result (option string) :=
  text_of (find path el).

(** [v.m()] for a string method [m] on a value that may be [None] *)
Definition str_method (x : option string) : result string :=
  match x with Some s => Ok s | None => Raise AttributeError end.

(** [value = {}; for ch in el.getchildren(): value[ch.tag] = ch.text or ''] *)
Definition children_dict (el : Element) : list (option string * string) :=
  fold_left (fun d ch => dict_set (Some (tag ch)) (PyStr.or_empty (text ch)) d)
            (getchildren el) [].

Definition str_dict (d : list (option string * string)) : pyval :=
  PDict (List.map (fun kv => (fst kv, PStr (snd kv))) d).

(** ** Constants of the module *)

Definition _TRANS_IN_PROGRESS : string := "another transaction is in progress".

Module BrickStatus.
Definition PAUSED := "PAUSED".
Definition COMPLETED := "COMPLETED".
Definition RUNNING := "RUNNING".
Definition UNKNOWN := "UNKNOWN".
Definition NA := "NA".
End BrickStatus.

Module HostStatus.
Definition CONNECTED := "CONNECTED".
Definition DISCONNECTED := "DISCONNECTED".
Definition UNKNOWN := "UNKNOWN".
End HostStatus.

Module VolumeStatus.
Definition ONLINE := "ONLINE".
Definition OFFLINE := "OFFLINE".
End VolumeStatus.

Module TransportType.
Definition TCP := "TCP".
Definition RDMA := "RDMA".
End TransportType.

Module TaskType.
Definition REBALANCE := "REBALANCE".
Definition REPLACE_BRICK := "REPLACE_BRICK".
Definition REMOVE_BRICK := "REMOVE_BRICK".
End TaskType.

(** Every name bound at the top level of [cli.py]: its imports, assignments,
    classes and functions.  A name that is used but not listed here (and is
    no builtin) raises [NameError] when it is evaluated. *)
Definition module_globals : list string :=
  ["etree"; "ethtool"; "socket"; "utils"; "_etreeExceptions";
   "_glusterCommandPath"; "_TRANS_IN_PROGRESS"; "_peerUUID"; "_peer";
   "_getLocalPeer"; "_getGlusterVolCmd"; "_getGlusterPeerCmd";
   "_getGlusterSystemCmd"; "_getGlusterVolGeoRepCmd"; "_getGlusterSnapshotCmd";
   "BrickStatus"; "HostStatus"; "VolumeStatus"; "TransportType"; "TaskType";
   "GlusterXMLError"; "GlusterCmdFailed"; "GlusterBusy";
   "_throwIfBusy"; "_execGluster"; "_execGlusterXml"; "_getLocalPeerUUID";
   "_parseVolumeStatus"; "_parseVolumeStatusDetail"; "_parseVolumeStatusClients";
   "_parseVolumeStatusMem"; "volumeStatus"; "_parseVolumeInfo";
   "_parseVolumeProfileInfo"; "volumeInfo"; "volumeCreate"; "volumeStart";
   "volumeStop"; "volumeDelete"; "volumeSet"; "_parseVolumeSetHelpXml";
   "volumeSetHelpXml"; "volumeReset"; "volumeAddBrick"; "volumeRebalanceStart";
   "volumeRebalanceStop"; "_parseVolumeRebalanceRemoveBrickStatus";
   "volumeRebalanceStatus"; "volumeReplaceBrickStart"; "volumeReplaceBrickAbort";
   "volumeReplaceBrickPause"; "volumeReplaceBrickStatus";
   "volumeReplaceBrickCommit"; "volumeRemoveBrickStart"; "volumeRemoveBrickStop";
   "volumeRemoveBrickStatus"; "volumeRemoveBrickCommit"; "volumeRemoveBrickForce";
   "peerProbe"; "peerDetach"; "_parsePeerStatus"; "peerStatus";
   "volumeProfileStart"; "volumeProfileStop"; "volumeProfileInfo";
   "_parseVolumeTasks"; "volumeTasks"; "volumeGeoRepSessionStart";
   "volumeGeoRepSessionStop"; "_parseGeoRepStatus"; "volumeGeoRepStatus";
   "volumeGeoRepSessionPause"; "volumeGeoRepSessionResume";
   "_parseVolumeGeoRepConfig"; "volumeGeoRepConfig"; "snapshotCreate";
   "snapshotDelete"; "snapshotActivate"; "snapshotDeactivate";
   "_parseRestoredSnapshot"; "snapshotRestore"].

Definition is_global (name : string) : bool :=
  existsb (String.eqb name) module_globals.

(** [raise Name(...)]: the name is looked up in the module first *)
Definition raise_global {A} (name : string) (e : exn) : M A :=
  if is_global name then raise e else raise (NameError name).

Section Cli.

Context {env : Env}.

(** [int(x)] for the text of an element: [TypeError] on [None],
    [ValueError] on a string that [int] rejects *)
Definition py_int (x : option string) : result Z :=
  match x with
  | None => Raise TypeError
  | Some s => match int_of_string s with
              | Some n => Ok n
              | None => Raise ValueError
              end
  end.

(** ** Running the tool *)

(** the state after [cmd] was run *)
Definition logged (cmd : argv) (w : World) : World :=
  mkWorld (_peerUUID w) (_peer w) (calls w ++ [cmd])%list.

(** [utils.execCmd(cmd)], recorded in the list of calls *)
Definition run (cmd : argv) : M (Z * string * string) :=
  fun w => (Ok (execCmd cmd), logged cmd w).

Definition set_peer (ip : string) : M unit :=
  fun w => (Ok tt, mkWorld (_peerUUID w) ip (calls w)).

Definition set_peerUUID (u : string) : M unit :=
  fun w => (Ok tt, mkWorld u (_peer w) (calls w)).

Definition get_peer : M string := fun w => (Ok (_peer w), w).
Definition get_peerUUID : M string := fun w => (Ok (_peerUUID w), w).

(** the [for dev in ethtool.get_active_devices()] loop of [_getLocalPeer]:
    the first address outside 127.* *)
Fixpoint first_ipaddr (devs : list string) : option string :=
  match devs with
  | [] => None
  | dev :: devs' =>
      match get_ipaddr dev with
      | Some ip => if negb (PyStr.startswith "127." ip) then Some ip
                   else first_ipaddr devs'
      | None => first_ipaddr devs'
      end
  end.

Definition _getLocalPeer : M string :=
  p <- get_peer ;;
  if PyStr.truthy p then ret p else
  let fqdn := getfqdn in
  let ip := gethostbyname fqdn in
  if negb (PyStr.startswith "127." ip) then set_peer ip ;;; ret ip else
  match first_ipaddr get_active_devices with
  | Some ip' => set_peer ip' ;;; ret ip'
  | None => ret fqdn
  end.

Definition _getGlusterVolCmd : argv := [gluster_cmd; "--mode=script"; "volume"].
Definition _getGlusterPeerCmd : argv := [gluster_cmd; "--mode=script"; "peer"].
Definition _getGlusterSystemCmd : argv := [gluster_cmd; "system::"].
Definition _getGlusterVolGeoRepCmd : argv :=
  (_getGlusterVolCmd ++ ["geo-replication"])%list.
Definition _getGlusterSnapshotCmd : argv := [gluster_cmd; "--mode=script"; "snapshot"].

Definition _throwIfBusy (cmd : argv) (rc : Z) (out err : string) : M unit :=
  let o := out ++ err in
  if PyStr.contains _TRANS_IN_PROGRESS (PyStr.lower o)
  then raise (GlusterBusy cmd rc out err)
  else ret tt.

Definition _execGluster (cmd : argv) : M (Z * string * string) :=
  '(rc, out, err) <- run cmd ;;
  _throwIfBusy cmd rc out err ;;;
  ret (rc, out, err).

(** the body of the [try] of [_execGlusterXml]: the tree and the three
    envelope fields [opRet], [opErrstr], [opErrno] *)
Definition envelope (out : string) : result (Element * Z * option string * Z) :=
  tree <~ match fromstring out with
          | Some t => Ok t
          | None => Raise ParseError
          end ;;
  r <~ text_of (find "opRet" tree) ;;
  rv <~ py_int r ;;
  msg <~ text_of (find "opErrstr" tree) ;;
  n <~ text_of (find "opErrno" tree) ;;
  errNo <~ py_int n ;;
  Ok (tree, rv, msg, errNo).

(** lines 151-165 of [_execGlusterXml]: what is done with the output once
    the busy check has passed; [cmd] already ends in [--xml] *)
Definition decode (cmd : argv) (out : string) : result Element :=
  match envelope out with
  | Raise e => if _etreeExceptions e then Raise (GlusterXMLError cmd out)
               else Raise e
  | Ok (tree, rv, msg, errNo) =>
      if rv =? 0 then Ok tree
      else
        let rv' := if negb (errNo =? 0) then errNo else rv in
        Raise (GlusterCmdFailed cmd rv' msg)
  end.

(** [cmd.append('--xml')] changes the list of the caller as well: after the
    call the caller's [command] is [xml cmd] *)
Definition xml (cmd : argv) : argv := (cmd ++ ["--xml"])%list.

Definition _execGlusterXml (cmd : argv) : M Element :=
  let cmd := xml cmd in
  '(rc, out, err) <- run cmd ;;
  _throwIfBusy cmd rc out err ;;;
  lift (decode cmd out).

Definition _getLocalPeerUUID : M string :=
  u <- get_peerUUID ;;
  if PyStr.truthy u then ret u else
  let command := (_getGlusterSystemCmd ++ ["uuid"; "get"])%list in
  '(rc, out, err) <- _execGluster command ;;
  let o := PyStr.strip out in
  (if PyStr.startswith "UUID: " o
   then set_peerUUID (String.substring 6 (String.length o - 6) o)
   else ret tt) ;;;
  get_peerUUID.

(** [try: return mapper(xmltree)  except _etreeExceptions:
     raise GlusterXMLError(command, etree.tostring(xmltree))], the pattern
    every mapping facade function ends with *)
Definition mapped {A} (command : argv) (xmltree : Element) (m : M A) : M A :=
  try_except m _etreeExceptions
             (fun _ => raise (GlusterXMLError command (tostring xmltree))).

(** ** Entity mappers: volume status *)

(** [int(s)] on a string *)
Definition int_of_str (s : string) : result Z := py_int (Some s).

(** ['%s:%s' % (a, b)] *)
Definition colon (a b : string) : string := a ++ ":" ++ b.

Inductive bucket : Type := Nfs | Shd | Brick.

(** the body of the loop of [_parseVolumeStatus] for one [node] *)
Definition status_node (hostname : string) (el : Element) : result (bucket * pyval) :=
  let value := children_dict el in
  path0 <~ dict_item "path" value ;;
  let value := if String.eqb path0 "localhost"
               then dict_set (Some "path") hostname value else value in
  st <~ dict_item "status" value ;;
  let value := dict_set (Some "status")
                 (if String.eqb st "1" then "ONLINE" else "OFFLINE") value in
  h <~ dict_item "hostname" value ;;
  if String.eqb h "NFS Server" then
    path <~ dict_item "path" value ;;
    peerid <~ dict_item "peerid" value ;;
    port <~ dict_item "port" value ;;
    status <~ dict_item "status" value ;;
    pid <~ dict_item "pid" value ;;
    Ok (Nfs, PDict [item "hostname" (PStr path); item "hostuuid" (PStr peerid);
                    item "port" (PStr port); item "status" (PStr status);
                    item "pid" (PStr pid)])
  else if String.eqb h "Self-heal Daemon" then
    path <~ dict_item "path" value ;;
    peerid <~ dict_item "peerid" value ;;
    status <~ dict_item "status" value ;;
    pid <~ dict_item "pid" value ;;
    Ok (Shd, PDict [item "hostname" (PStr path); item "hostuuid" (PStr peerid);
                    item "status" (PStr status); item "pid" (PStr pid)])
  else
    path <~ dict_item "path" value ;;
    peerid <~ dict_item "peerid" value ;;
    port <~ dict_item "port" value ;;
    status <~ dict_item "status" value ;;
    pid <~ dict_item "pid" value ;;
    Ok (Brick, PDict [item "brick" (PStr (colon h path));
                      item "hostuuid" (PStr peerid); item "port" (PStr port);
                      item "status" (PStr status); item "pid" (PStr pid)]).

Definition in_bucket (b : bucket) (l : list (bucket * pyval)) : list pyval :=
  List.map snd (filter (fun x => match fst x, b with
                                 | Nfs, Nfs | Shd, Shd | Brick, Brick => true
                                 | _, _ => false
                                 end) l).

Definition _parseVolumeStatus (tree : Element) : M pyval :=
  name <- lift (ftext "volStatus/volumes/volume/volName" tree) ;;
  hostname <- _getLocalPeer ;;
  nodes <- lift (mapR (status_node hostname)
                      (findall "volStatus/volumes/volume/node" tree)) ;;
  ret (PDict [item "name" (PText name);
              item "bricks" (PList (in_bucket Brick nodes));
              item "nfs" (PList (in_bucket Nfs nodes));
              item "shd" (PList (in_bucket Shd nodes))]).

Definition detail_node (el : Element) : result pyval :=
  let value := children_dict el in
  t <~ dict_item "sizeTotal" value ;;
  sizeTotal <~ int_of_str t ;;
  f <~ dict_item "sizeFree" value ;;
  sizeFree <~ int_of_str f ;;
  h <~ dict_item "hostname" value ;;
  path <~ dict_item "path" value ;;
  peerid <~ dict_item "peerid" value ;;
  device <~ dict_item "device" value ;;
  blockSize <~ dict_item "blockSize" value ;;
  mntOptions <~ dict_item "mntOptions" value ;;
  fsName <~ dict_item "fsName" value ;;
  Ok (PDict [item "brick" (PStr (colon h path)); item "hostuuid" (PStr peerid);
             item "sizeTotal" (PStr (format_3f sizeTotal));
             item "sizeFree" (PStr (format_3f sizeFree));
             item "device" (PStr device); item "blockSize" (PStr blockSize);
             item "mntOptions" (PStr mntOptions); item "fsName" (PStr fsName)]).

Definition _parseVolumeStatusDetail (tree : Element) : result pyval :=
  name <~ ftext "volStatus/volumes/volume/volName" tree ;;
  bricks <~ mapR detail_node (findall "volStatus/volumes/volume/node" tree) ;;
  Ok (PDict [item "name" (PText name); item "bricks" (PList bricks)]).

Definition client_entry (c : Element) : result pyval :=
  let clientValue := children_dict c in
  h <~ dict_item "hostname" clientValue ;;
  r <~ dict_item "bytesRead" clientValue ;;
  w <~ dict_item "bytesWrite" clientValue ;;
  Ok (PDict [item "hostname" (PStr h); item "bytesRead" (PStr r);
             item "bytesWrite" (PStr w)]).

Definition clients_node (el : Element) : result pyval :=
  hostname <~ ftext "hostname" el ;;
  path <~ ftext "path" el ;;
  hostuuid <~ ftext "peerid" el ;;
  clientsStatus <~ mapR client_entry (findall "clientsStatus/client" el) ;;
  Ok (PDict [item "brick" (PStr (colon (PyStr.of_opt hostname) (PyStr.of_opt path)));
             item "hostuuid" (PText hostuuid);
             item "clientsStatus" (PList clientsStatus)]).

Definition _parseVolumeStatusClients (tree : Element) : result pyval :=
  name <~ ftext "volStatus/volumes/volume/volName" tree ;;
  bricks <~ mapR clients_node (findall "volStatus/volumes/volume/node" tree) ;;
  Ok (PDict [item "name" (PText name); item "bricks" (PList bricks)]).

Definition mem_node (el : Element) : result pyval :=
  hostname <~ ftext "hostname" el ;;
  path <~ ftext "path" el ;;
  hostuuid <~ ftext "peerid" el ;;
  mallinfo <~ match find "memStatus/mallinfo" el with
              | Some m => Ok (children_dict m)
              | None => Raise AttributeError
              end ;;
  let mempool := List.map (fun c => str_dict (children_dict c))
                          (findall "memStatus/mempool/pool" el) in
  Ok (PDict [item "brick" (PStr (colon (PyStr.of_opt hostname) (PyStr.of_opt path)));
             item "hostuuid" (PText hostuuid);
             item "mallinfo" (str_dict mallinfo);
             item "mempool" (PList mempool)]).

Definition _parseVolumeStatusMem (tree : Element) : result pyval :=
  name <~ ftext "volStatus/volumes/volume/volName" tree ;;
  bricks <~ mapR mem_node (findall "volStatus/volumes/volume/node" tree) ;;
  Ok (PDict [item "name" (PText name); item "bricks" (PList bricks)]).

(** ** Entity mappers: volume info *)

(** lines 334-340: the [transport] code of a volume *)
Definition transport_types (transportType : option string) : list string :=
  match transportType with
  | Some "0" => [TransportType.TCP]
  | Some "1" => [TransportType.RDMA]
  | _ => [TransportType.TCP; TransportType.RDMA]
  end.

(** lines 348-357: the brick details, up to the first [brick] element that
    lacks [name] or [hostUuid] *)
Fixpoint bricks_info (ds : list Element) : list pyval :=
  match ds with
  | [] => []
  | d :: ds' =>
      match find "name" d, find "hostUuid" d with
      | Some n, Some h =>
          PDict [item "name" (PText (text n)); item "hostUuid" (PText (text h))]
          :: bricks_info ds'
      | _, _ => []
      end
  end.

(** lines 346-347 for one [option] element *)
Definition option_entry (o : Element) : result (option string * pyval) :=
  n <~ ftext "name" o ;;
  v <~ ftext "value" o ;;
  Ok (n, PText v).

Definition set_all {V} (kvs : list (option string * V)) (d : list (option string * V))
  : list (option string * V) :=
  fold_left (fun d kv => dict_set (fst kv) (snd kv) d) kvs d.

(** the body of the loop of [_parseVolumeInfo]: the key and the [value] dict
    of one [volume] element *)
Definition volume_entry (el : Element) : result (option string * pyval) :=
  volumeName <~ ftext "name" el ;;
  uuid <~ ftext "id" el ;;
  t <~ ftext "typeStr" el ;;
  typeStr <~ str_method t ;;
  let volumeType := PyStr.replace "-" "_" (PyStr.upper typeStr) in
  s <~ ftext "statusStr" el ;;
  statusStr <~ str_method s ;;
  let status := PyStr.upper statusStr in
  let volumeStatus := if String.eqb status "STARTED"
                      then VolumeStatus.ONLINE else VolumeStatus.OFFLINE in
  brickCount <~ ftext "brickCount" el ;;
  distCount <~ ftext "distCount" el ;;
  stripeCount <~ ftext "stripeCount" el ;;
  replicaCount <~ ftext "replicaCount" el ;;
  transportType <~ ftext "transport" el ;;
  let bricks := List.map (fun b => PText (text b)) (findall "bricks/brick" el) in
  opts <~ mapR option_entry (findall "options/option" el) ;;
  let options := set_all opts [] in
  let bricksInfo := bricks_info (findall "bricks/brick" el) in
  Ok (volumeName,
      PDict [item "volumeName" (PText volumeName);
             item "uuid" (PText uuid);
             item "volumeType" (PStr volumeType);
             item "volumeStatus" (PStr volumeStatus);
             item "brickCount" (PText brickCount);
             item "distCount" (PText distCount);
             item "stripeCount" (PText stripeCount);
             item "replicaCount" (PText replicaCount);
             item "transportType" (PList (List.map PStr (transport_types transportType)));
             item "bricks" (PList bricks);
             item "options" (PDict options);
             item "bricksInfo" (PList bricksInfo)]).

Definition _parseVolumeInfo (tree : Element) : result pyval :=
  entries <~ mapR volume_entry (findall "volInfo/volumes/volume" tree) ;;
  Ok (PDict (set_all entries [])).

(** ** Entity mappers: rebalance and remove-brick status, tasks *)

(** [st.replace(' ', '_').replace('-', '_')] followed by [.upper()],
    lines 566 and 575 (580 and 589 for a host) *)
Definition status_token (st : string) : string :=
  PyStr.upper (PyStr.replace "-" "_" (PyStr.replace " " "_" st)).

(** [s.upper().replace('-', '_').replace(' ', '_')], lines 812 and 824-826 *)
Definition task_token (s : string) : string :=
  PyStr.replace " " "_" (PyStr.replace "-" "_" (PyStr.upper s)).

Definition rebalance_node (el : Element) : result pyval :=
  s <~ ftext "statusStr" el ;;
  st <~ str_method s ;;
  name <~ ftext "nodeName" el ;;
  id <~ ftext "id" el ;;
  runtime <~ ftext "runtime" el ;;
  lookups <~ ftext "lookups" el ;;
  files <~ ftext "files" el ;;
  failures <~ ftext "failures" el ;;
  skipped <~ ftext "skipped" el ;;
  size <~ ftext "size" el ;;
  Ok (PDict [item "name" (PText name); item "id" (PText id);
             item "runtime" (PText runtime);
             item "filesScanned" (PText lookups);
             item "filesMoved" (PText files);
             item "filesFailed" (PText failures);
             item "filesSkipped" (PText skipped);
             item "totalSizeMoved" (PText size);
             item "status" (PStr (status_token st))]).

Definition _parseVolumeRebalanceRemoveBrickStatus (xmltree : Element) (mode : string)
  : result pyval :=
  let body (t : option Element) : result pyval :=
    tree <~ match t with Some x => Ok x | None => Raise AttributeError end ;;
    s <~ ftext "aggregate/statusStr" tree ;;
    st <~ str_method s ;;
    runtime <~ ftext "aggregate/runtime" tree ;;
    lookups <~ ftext "aggregate/lookups" tree ;;
    files <~ ftext "aggregate/files" tree ;;
    failures <~ ftext "aggregate/failures" tree ;;
    skipped <~ ftext "aggregate/skipped" tree ;;
    size <~ ftext "aggregate/size" tree ;;
    hosts <~ mapR rebalance_node (findall "node" tree) ;;
    Ok (PDict [item "summary"
                 (PDict [item "runtime" (PText runtime);
                         item "filesScanned" (PText lookups);
                         item "filesMoved" (PText files);
                         item "filesFailed" (PText failures);
                         item "filesSkipped" (PText skipped);
                         item "totalSizeMoved" (PText size);
                         item "status" (PStr (status_token st))]);
               item "hosts" (PList hosts)]) in
  if String.eqb mode "rebalance" then body (find "volRebalance" xmltree)
  else if String.eqb mode "remove-brick" then body (find "volRemoveBrick" xmltree)
  else Ok PNone.

Definition task_entry (volumeName : option string) (c : Element)
  : result (option string * pyval) :=
  t <~ ftext "type" c ;;
  ty <~ str_method t ;;
  let taskType := task_token ty in
  taskId <~ ftext "id" c ;;
  bricks <~ (if String.eqb taskType TaskType.REPLACE_BRICK then
               src <~ ftext "params/srcBrick" c ;;
               dst <~ ftext "params/dstBrick" c ;;
               Ok [PText src; PText dst]
             else if String.eqb taskType TaskType.REMOVE_BRICK then
               Ok (List.map (fun b => PText (text b)) (findall "params/brick" c))
             else Ok []) ;;
  s <~ ftext "statusStr" c ;;
  st <~ str_method s ;;
  let statusStr := task_token st in
  Ok (taskId, PDict [item "volumeName" (PText volumeName);
                     item "taskType" (PStr taskType);
                     item "status" (PStr statusStr);
                     item "bricks" (PList bricks)]).

Definition volume_tasks (el : Element) : result (list (option string * pyval)) :=
  volumeName <~ ftext "volName" el ;;
  mapR (task_entry volumeName) (findall "tasks/task" el).

Definition _parseVolumeTasks (tree : Element) : result pyval :=
  per_volume <~ mapR volume_tasks (findall "volStatus/volumes/volume" tree) ;;
  Ok (PDict (set_all (concat per_volume) [])).

(** ** Entity mappers: profile, peers, geo-replication, snapshots *)

Fixpoint mapM {A B} (f : A -> M B) (l : list A) : M (list B) :=
  match l with
  | [] => ret []
  | a :: l' => b <- f a ;; bs <- mapM f l' ;; ret (b :: bs)
  end.

Definition block_entry (block : Element) : result pyval :=
  size <~ ftext "size" block ;;
  reads <~ ftext "reads" block ;;
  writes <~ ftext "writes" block ;;
  Ok (PDict [item "size" (PText size); item "read" (PText reads);
             item "write" (PText writes)]).

Definition fop_entry (fop : Element) : result pyval :=
  name <~ ftext "name" fop ;;
  hits <~ ftext "hits" fop ;;
  avg <~ ftext "avgLatency" fop ;;
  mn <~ ftext "minLatency" fop ;;
  mx <~ ftext "maxLatency" fop ;;
  Ok (PDict [item "name" (PText name); item "hits" (PText hits);
             item "latencyAvg" (PText avg); item "latencyMin" (PText mn);
             item "latencyMax" (PText mx)]).

Definition profile_brick (brickKey : string) (brick : Element) : M pyval :=
  n <- lift (ftext "brickName" brick) ;;
  brickName <- (match n with
                | Some "localhost" => h <- _getLocalPeer ;; ret (PStr h)
                | _ => ret (PText n)
                end) ;;
  lift (
    blkCumulative <~ mapR block_entry (findall "cumulativeStats/blockStats/block" brick) ;;
    fopCumulative <~ mapR fop_entry (findall "cumulativeStats/fopStats/fop" brick) ;;
    blkInterval <~ mapR block_entry (findall "intervalStats/blockStats/block" brick) ;;
    fopInterval <~ mapR fop_entry (findall "intervalStats/fopStats/fop" brick) ;;
    cd <~ ftext "cumulativeStats/duration" brick ;;
    cr <~ ftext "cumulativeStats/totalRead" brick ;;
    cw <~ ftext "cumulativeStats/totalWrite" brick ;;
    id <~ ftext "intervalStats/duration" brick ;;
    ir <~ ftext "intervalStats/totalRead" brick ;;
    iw <~ ftext "intervalStats/totalWrite" brick ;;
    Ok (PDict [item brickKey brickName;
               item "cumulativeStats"
                 (PDict [item "blockStats" (PList blkCumulative);
                         item "fopStats" (PList fopCumulative);
                         item "duration" (PText cd);
                         item "totalRead" (PText cr);
                         item "totalWrite" (PText cw)]);
               item "intervalStats"
                 (PDict [item "blockStats" (PList blkInterval);
                         item "fopStats" (PList fopInterval);
                         item "duration" (PText id);
                         item "totalRead" (PText ir);
                         item "totalWrite" (PText iw)])])).

Definition _parseVolumeProfileInfo (tree : Element) (nfs : bool) : M pyval :=
  let brickKey := if nfs then "nfs" else "brick" in
  let bricksKey := if nfs then "nfsServers" else "bricks" in
  bricks <- mapM (profile_brick brickKey) (findall "volProfile/brick" tree) ;;
  volname <- lift (ftext "volProfile/volname" tree) ;;
  ret (PDict [item "volumeName" (PText volname); item bricksKey (PList bricks)]).

Definition peer_entry (el : Element) : result pyval :=
  state <~ ftext "state" el ;;
  status <~ (if negb (key_eqb state (Some "3")) then Ok HostStatus.UNKNOWN
             else
               connected <~ ftext "connected" el ;;
               if key_eqb connected (Some "1") then Ok HostStatus.CONNECTED
               else Ok HostStatus.DISCONNECTED) ;;
  hostname <~ ftext "hostname" el ;;
  uuid <~ ftext "uuid" el ;;
  Ok (PDict [item "hostname" (PText hostname); item "uuid" (PText uuid);
             item "status" (PStr status)]).

Definition _parsePeerStatus (tree : Element) (gHostName gUuid gStatus : string)
  : result pyval :=
  peers <~ mapR peer_entry (findall "peerStatus/peer" tree) ;;
  Ok (PList (PDict [item "hostname" (PStr gHostName); item "uuid" (PStr gUuid);
                    item "status" (PStr gStatus)] :: peers)).

(** [x.text.split("::")] of a text that may be [None] *)
Definition split_text (x : option string) : result (list string) :=
  s <~ str_method x ;; Ok (PyStr.split "::" s).

Definition georep_pair (detail : bool) (pair : Element) : result pyval :=
  host <~ ftext "master_node" pair ;;
  hostUuid <~ ftext "master_node_uuid" pair ;;
  brickName <~ ftext "master_brick" pair ;;
  sl <~ ftext "slave" pair ;;
  parts <~ split_text sl ;;
  let remoteHost := hd "" parts in
  status <~ ftext "status" pair ;;
  checkpoint <~ ftext "checkpoint_status" pair ;;
  crawl <~ ftext "crawl_status" pair ;;
  more <~ (if detail then
             synced <~ ftext "files_syncd" pair ;;
             pending <~ ftext "files_pending" pair ;;
             bytes <~ ftext "bytes_pending" pair ;;
             deletes <~ ftext "deletes_pending" pair ;;
             skipped <~ ftext "files_skipped" pair ;;
             Ok [item "filesSynced" (PText synced);
                 item "filesPending" (PText pending);
                 item "bytesPending" (PText bytes);
                 item "deletesPending" (PText deletes);
                 item "filesSkipped" (PText skipped)]
           else Ok []) ;;
  Ok (PDict ([item "host" (PText host); item "hostUuid" (PText hostUuid);
              item "brickName" (PText brickName);
              item "remoteHost" (PStr remoteHost);
              item "status" (PText status);
              item "checkpointStatus" (PText checkpoint);
              item "crawlStatus" (PText crawl)] ++ more)%list).

Definition georep_session (detail : bool) (session : Element) : result pyval :=
  sessionKey <~ ftext "session_slave" session ;;
  parts <~ split_text sessionKey ;;
  let remoteVolumeName := last parts "" in
  pairs <~ mapR (georep_pair detail) (findall "pair" session) ;;
  Ok (PDict [item "sessionKey" (PText sessionKey);
             item "remoteVolumeName" (PStr remoteVolumeName);
             item "bricks" (PList pairs)]).

Definition georep_volume (detail : bool) (volume : Element)
  : result (option string * pyval) :=
  sessions <~ mapR (georep_session detail) (findall "sessions/session" volume) ;;
  name <~ ftext "name" volume ;;
  Ok (name, PDict [item "sessions" (PList sessions)]).

Definition _parseGeoRepStatus (tree : Element) (detail : bool) : result pyval :=
  vols <~ mapR (georep_volume detail) (findall "geoRep/volume" tree) ;;
  Ok (PDict (set_all vols [])).

Definition _parseVolumeGeoRepConfig (tree : Element) : result pyval :=
  match find "geoRep/config" tree with
  | None => Raise AttributeError
  | Some conf =>
      let config := fold_left (fun d child => dict_set (Some (tag child))
                                                       (PText (text child)) d)
                              (getchildren conf) [] in
      Ok (PDict [item "geoRepConfig" (PDict config)])
  end.

Definition _parseRestoredSnapshot (tree : Element) : result pyval :=
  volumeName <~ ftext "snapRestore/volume/name" tree ;;
  volumeUuid <~ ftext "snapRestore/volume/uuid" tree ;;
  snapshotName <~ ftext "snapRestore/snapshot/name" tree ;;
  snapshotUuid <~ ftext "snapRestore/snapshot/uuid" tree ;;
  Ok (PDict [item "volumeName" (PText volumeName);
             item "volumeUuid" (PText volumeUuid);
             item "snapshotName" (PText snapshotName);
             item "snapshotUuid" (PText snapshotUuid)]).

Definition _parseVolumeSetHelpXml (out : string) : result pyval :=
  match fromstring out with
  | None => Raise ParseError
  | Some tree =>
      Ok (PList (List.map (fun el => str_dict (children_dict el))
                          (findall "option" tree)))
  end.

(** ** The public functions

    Each function is split into the argument vector it builds (its local
    [command], named [f_command]) and the rest of its body.  Optional
    parameters with default [None] are options, counts are integers, flags
    are booleans. *)

Local Open Scope list_scope.

(** [if x: command.append(x)] for a parameter that may be [None] or empty *)
Definition opt (x : option string) : argv :=
  match x with
  | Some s => if PyStr.truthy s then [s] else []
  | None => []
  end.

Definition is_set (x : option string) : bool :=
  match x with Some s => PyStr.truthy s | None => false end.

(** [if force: command.append('force')] *)
Definition forced (force : bool) : argv := if force then ["force"] else [].

(** [if n: command += [kw, "%s" % n]] *)
Definition counted (kw : string) (n : Z) : argv :=
  if n =? 0 then [] else [kw; PyStr.of_Z n].

(** ["%s::%s" % (remoteHost, remoteVolumeName)] *)
Definition slave (remoteHost remoteVolumeName : string) : string :=
  (remoteHost ++ "::" ++ remoteVolumeName)%string.

Definition true_ : pyval := PBool true.

(** functions that discard the tree: [_execGlusterXml(command); return True] *)
Definition acknowledged (command : argv) : M pyval :=
  _execGlusterXml command ;;; ret true_.

(** functions that map the tree, see [mapped] *)
Definition decoded (command : argv) (mapper : Element -> M pyval) : M pyval :=
  xmltree <- _execGlusterXml command ;;
  mapped (xml command) xmltree (mapper xmltree).

(** [{key: xmltree.find(path).text}] *)
Definition single (key path : string) (xmltree : Element) : M pyval :=
  lift (x <~ ftext path xmltree ;; Ok (PDict [item key (PText x)])).

Definition volumeStatus_command (volumeName : string) (brick option : option string) :=
  _getGlusterVolCmd ++ ["status"; volumeName] ++ opt brick ++ opt option.

Definition volumeStatus (volumeName : string) (brick option : option string) : M pyval :=
  decoded (volumeStatus_command volumeName brick option)
    (fun xmltree =>
       if key_eqb option (Some "detail") then lift (_parseVolumeStatusDetail xmltree)
       else if key_eqb option (Some "clients") then lift (_parseVolumeStatusClients xmltree)
       else if key_eqb option (Some "mem") then lift (_parseVolumeStatusMem xmltree)
       else _parseVolumeStatus xmltree).

Definition volumeInfo_command (volumeName remoteServer : option string) :=
  _getGlusterVolCmd ++ ["info"]
    ++ List.map (fun r => ("--remote-host=" ++ r)%string) (opt remoteServer)
    ++ opt volumeName.

Definition volumeInfo (volumeName remoteServer : option string) : M pyval :=
  decoded (volumeInfo_command volumeName remoteServer)
    (fun xmltree => lift (_parseVolumeInfo xmltree)).

Definition volumeCreate_command (volumeName : string) (brickList : list string)
    (replicaCount stripeCount : Z) (transportList : list string) (force : bool) :=
  _getGlusterVolCmd ++ ["create"; volumeName]
    ++ counted "stripe" stripeCount
    ++ counted "replica" replicaCount
    ++ (match transportList with
        | [] => []
        | _ => ["transport"; PyStr.join "," transportList]
        end)
    ++ brickList ++ forced force.

Definition volumeCreate volumeName brickList replicaCount stripeCount transportList force
  : M pyval :=
  decoded (volumeCreate_command volumeName brickList replicaCount stripeCount
                                transportList force)
    (single "uuid" "volCreate/volume/id").

Definition volumeStart_command (volumeName : string) (force : bool) :=
  _getGlusterVolCmd ++ ["start"; volumeName] ++ forced force.

Definition volumeStart (volumeName : string) (force : bool) : M pyval :=
  _execGluster (volumeStart_command volumeName force) ;;;
  ret true_.

Definition volumeStop_command (volumeName : string) (force : bool) :=
  _getGlusterVolCmd ++ ["stop"; volumeName] ++ forced force.

Definition volumeStop volumeName force : M pyval :=
  acknowledged (volumeStop_command volumeName force).

Definition volumeDelete_command (volumeName : string) :=
  _getGlusterVolCmd ++ ["delete"; volumeName].

Definition volumeDelete volumeName : M pyval :=
  acknowledged (volumeDelete_command volumeName).

Definition volumeSet_command (volumeName option value : string) :=
  _getGlusterVolCmd ++ ["set"; volumeName; option; value].

Definition volumeSet volumeName option value : M pyval :=
  acknowledged (volumeSet_command volumeName option value).

Definition volumeSetHelpXml_command := _getGlusterVolCmd ++ ["set"; "help-xml"].

Definition volumeSetHelpXml : M pyval :=
  '(rc, out, err) <- _execGluster volumeSetHelpXml_command ;;
  lift (_parseVolumeSetHelpXml out).

Definition volumeReset_command (volumeName option : string) (force : bool) :=
  _getGlusterVolCmd ++ ["reset"; volumeName] ++ opt (Some option) ++ forced force.

Definition volumeReset volumeName option force : M pyval :=
  acknowledged (volumeReset_command volumeName option force).

Definition volumeAddBrick_command (volumeName : string) (brickList : list string)
    (replicaCount stripeCount : Z) (force : bool) :=
  _getGlusterVolCmd ++ ["add-brick"; volumeName]
    ++ counted "stripe" stripeCount
    ++ counted "replica" replicaCount
    ++ brickList ++ forced force.

Definition volumeAddBrick volumeName brickList replicaCount stripeCount force : M pyval :=
  acknowledged (volumeAddBrick_command volumeName brickList replicaCount stripeCount force).

Definition volumeRebalanceStart_command (volumeName rebalanceType : string) (force : bool) :=
  _getGlusterVolCmd ++ ["rebalance"; volumeName] ++ opt (Some rebalanceType)
    ++ ["start"] ++ forced force.

Definition volumeRebalanceStart volumeName rebalanceType force : M pyval :=
  decoded (volumeRebalanceStart_command volumeName rebalanceType force)
    (single "taskId" "volRebalance/task-id").

Definition volumeRebalanceStop_command (volumeName : string) (force : bool) :=
  _getGlusterVolCmd ++ ["rebalance"; volumeName; "stop"] ++ forced force.

Definition volumeRebalanceStop volumeName force : M pyval :=
  decoded (volumeRebalanceStop_command volumeName force)
    (fun xmltree => lift (_parseVolumeRebalanceRemoveBrickStatus xmltree "rebalance")).

Definition volumeRebalanceStatus_command (volumeName : string) :=
  _getGlusterVolCmd ++ ["rebalance"; volumeName; "status"].

Definition volumeRebalanceStatus volumeName : M pyval :=
  decoded (volumeRebalanceStatus_command volumeName)
    (fun xmltree => lift (_parseVolumeRebalanceRemoveBrickStatus xmltree "rebalance")).

Definition replaceBrick_command (volumeName existingBrick newBrick verb : string) :=
  _getGlusterVolCmd ++ ["replace-brick"; volumeName; existingBrick; newBrick; verb].

Definition volumeReplaceBrickStart_command volumeName existingBrick newBrick :=
  replaceBrick_command volumeName existingBrick newBrick "start".

Definition volumeReplaceBrickStart volumeName existingBrick newBrick : M pyval :=
  decoded (volumeReplaceBrickStart_command volumeName existingBrick newBrick)
    (single "taskId" "volReplaceBrick/task-id").

Definition volumeReplaceBrickAbort_command volumeName existingBrick newBrick :=
  replaceBrick_command volumeName existingBrick newBrick "abort".

Definition volumeReplaceBrickAbort volumeName existingBrick newBrick : M pyval :=
  acknowledged (volumeReplaceBrickAbort_command volumeName existingBrick newBrick).

Definition volumeReplaceBrickPause_command volumeName existingBrick newBrick :=
  replaceBrick_command volumeName existingBrick newBrick "pause".

Definition volumeReplaceBrickPause volumeName existingBrick newBrick : M pyval :=
  acknowledged (volumeReplaceBrickPause_command volumeName existingBrick newBrick).

Definition volumeReplaceBrickStatus_command volumeName existingBrick newBrick :=
  replaceBrick_command volumeName existingBrick newBrick "status".

(** lines 641-650: the markers tried on [statLine], in this order *)
Definition stat_line_status (statLine : string) : string :=
  if PyStr.contains BrickStatus.PAUSED statLine then BrickStatus.PAUSED
  else if PyStr.endswith "MIGRATION COMPLETE" statLine then BrickStatus.COMPLETED
  else if PyStr.startswith "NUMBER OF FILES MIGRATED" statLine then BrickStatus.RUNNING
  else if PyStr.endswith "UNKNOWN" statLine then BrickStatus.UNKNOWN
  else BrickStatus.NA.

(** [out] is the byte string [utils.execCmd] returned: ["\n".join(out)]
    iterates over its characters and [out[0]] is its first character
    ([IndexError] when [out] is empty). *)
Definition volumeReplaceBrickStatus volumeName existingBrick newBrick : M pyval :=
  '(rc, out, err) <- _execGluster
      (volumeReplaceBrickStatus_command volumeName existingBrick newBrick) ;;
  let message := PyStr.join PyStr.newline (PyStr.chars out) in
  match PyStr.chars out with
  | [] => raise IndexError
  | out0 :: _ =>
      let statLine := PyStr.upper (PyStr.strip out0) in
      ret (PTuple [PStr (stat_line_status statLine); PStr message])
  end.

Definition volumeReplaceBrickCommit_command volumeName existingBrick newBrick
    (force : bool) :=
  replaceBrick_command volumeName existingBrick newBrick "commit" ++ forced force.

Definition volumeReplaceBrickCommit volumeName existingBrick newBrick force : M pyval :=
  acknowledged (volumeReplaceBrickCommit_command volumeName existingBrick newBrick force).

Definition removeBrick_command (volumeName : string) (brickList : list string)
    (replicaCount : Z) (verb : string) :=
  _getGlusterVolCmd ++ ["remove-brick"; volumeName]
    ++ counted "replica" replicaCount ++ (brickList ++ [verb]).

Definition volumeRemoveBrickStart_command volumeName brickList replicaCount :=
  removeBrick_command volumeName brickList replicaCount "start".

Definition volumeRemoveBrickStart volumeName brickList replicaCount : M pyval :=
  decoded (volumeRemoveBrickStart_command volumeName brickList replicaCount)
    (single "taskId" "volRemoveBrick/task-id").

Definition volumeRemoveBrickStop_command volumeName brickList replicaCount :=
  removeBrick_command volumeName brickList replicaCount "stop".

Definition volumeRemoveBrickStop volumeName brickList replicaCount : M pyval :=
  decoded (volumeRemoveBrickStop_command volumeName brickList replicaCount)
    (fun xmltree => lift (_parseVolumeRebalanceRemoveBrickStatus xmltree "remove-brick")).

Definition volumeRemoveBrickStatus_command volumeName brickList replicaCount :=
  removeBrick_command volumeName brickList replicaCount "status".

Definition volumeRemoveBrickStatus volumeName brickList replicaCount : M pyval :=
  decoded (volumeRemoveBrickStatus_command volumeName brickList replicaCount)
    (fun xmltree => lift (_parseVolumeRebalanceRemoveBrickStatus xmltree "remove-brick")).

Definition volumeRemoveBrickCommit_command volumeName brickList replicaCount :=
  removeBrick_command volumeName brickList replicaCount "commit".

Definition volumeRemoveBrickCommit volumeName brickList replicaCount : M pyval :=
  acknowledged (volumeRemoveBrickCommit_command volumeName brickList replicaCount).

Definition volumeRemoveBrickForce_command volumeName brickList replicaCount :=
  removeBrick_command volumeName brickList replicaCount "force".

Definition volumeRemoveBrickForce volumeName brickList replicaCount : M pyval :=
  acknowledged (volumeRemoveBrickForce_command volumeName brickList replicaCount).

Definition peerProbe_command (hostName : string) :=
  _getGlusterPeerCmd ++ ["probe"; hostName].

Definition peerProbe hostName : M pyval := acknowledged (peerProbe_command hostName).

Definition peerDetach_command (hostName : string) (force : bool) :=
  _getGlusterPeerCmd ++ ["detach"; hostName] ++ forced force.

(** The handler names [GlusterPeerNotFound], a class that [cli.py] neither
    defines nor imports. *)
Definition peerDetach (hostName : string) (force : bool) : M pyval :=
  try_except (acknowledged (peerDetach_command hostName force))
    (fun e => match e with GlusterCmdFailed _ _ _ => true | _ => false end)
    (fun e => match e with
              | GlusterCmdFailed _ rc _ =>
                  if rc =? 2
                  then raise_global "GlusterPeerNotFound" (GlusterPeerNotFound hostName)
                  else raise e
              | _ => raise e
              end).

Definition peerStatus_command := _getGlusterPeerCmd ++ ["status"].

Definition peerStatus : M pyval :=
  decoded peerStatus_command
    (fun xmltree =>
       h <- _getLocalPeer ;;
       u <- _getLocalPeerUUID ;;
       lift (_parsePeerStatus xmltree h u HostStatus.CONNECTED)).

Definition volumeProfileStart_command (volumeName : string) :=
  _getGlusterVolCmd ++ ["profile"; volumeName; "start"].

Definition volumeProfileStart volumeName : M pyval :=
  acknowledged (volumeProfileStart_command volumeName).

Definition volumeProfileStop_command (volumeName : string) :=
  _getGlusterVolCmd ++ ["profile"; volumeName; "stop"].

Definition volumeProfileStop volumeName : M pyval :=
  acknowledged (volumeProfileStop_command volumeName).

Definition volumeProfileInfo_command (volumeName : string) (nfs : bool) :=
  _getGlusterVolCmd ++ ["profile"; volumeName; "info"] ++ (if nfs then ["nfs"] else []).

Definition volumeProfileInfo volumeName nfs : M pyval :=
  decoded (volumeProfileInfo_command volumeName nfs)
    (fun xmltree => _parseVolumeProfileInfo xmltree nfs).

Definition volumeTasks_command (volumeName : string) :=
  _getGlusterVolCmd ++ ["status"; volumeName; "tasks"].

Definition volumeTasks volumeName : M pyval :=
  decoded (volumeTasks_command volumeName)
    (fun xmltree => lift (_parseVolumeTasks xmltree)).

Definition geoRepSession_command (volumeName remoteHost remoteVolumeName verb : string)
    (force : bool) :=
  _getGlusterVolGeoRepCmd ++ [volumeName; slave remoteHost remoteVolumeName; verb]
    ++ forced force.

Definition volumeGeoRepSessionStart_command volumeName remoteHost remoteVolumeName force :=
  geoRepSession_command volumeName remoteHost remoteVolumeName "start" force.

Definition volumeGeoRepSessionStart volumeName remoteHost remoteVolumeName force : M pyval :=
  acknowledged (volumeGeoRepSessionStart_command volumeName remoteHost remoteVolumeName force).

Definition volumeGeoRepSessionStop_command volumeName remoteHost remoteVolumeName force :=
  geoRepSession_command volumeName remoteHost remoteVolumeName "stop" force.

Definition volumeGeoRepSessionStop volumeName remoteHost remoteVolumeName force : M pyval :=
  acknowledged (volumeGeoRepSessionStop_command volumeName remoteHost remoteVolumeName force).

Definition volumeGeoRepStatus_command (volumeName remoteHost remoteVolumeName : option string)
    (detail : bool) :=
  _getGlusterVolGeoRepCmd ++ opt volumeName
    ++ (match remoteHost, remoteVolumeName with
        | Some h, Some v =>
            if (PyStr.truthy h && PyStr.truthy v)%bool then [slave h v] else []
        | _, _ => []
        end)
    ++ ["status"] ++ (if detail then ["detail"] else []).

Definition volumeGeoRepStatus volumeName remoteHost remoteVolumeName detail : M pyval :=
  decoded (volumeGeoRepStatus_command volumeName remoteHost remoteVolumeName detail)
    (fun xmltree => lift (_parseGeoRepStatus xmltree detail)).

Definition volumeGeoRepSessionPause_command volumeName remoteHost remoteVolumeName force :=
  geoRepSession_command volumeName remoteHost remoteVolumeName "pause" force.

Definition volumeGeoRepSessionPause volumeName remoteHost remoteVolumeName force : M pyval :=
  acknowledged (volumeGeoRepSessionPause_command volumeName remoteHost remoteVolumeName force).

Definition volumeGeoRepSessionResume_command volumeName remoteHost remoteVolumeName force :=
  geoRepSession_command volumeName remoteHost remoteVolumeName "resume" force.

Definition volumeGeoRepSessionResume volumeName remoteHost remoteVolumeName force : M pyval :=
  acknowledged (volumeGeoRepSessionResume_command volumeName remoteHost remoteVolumeName force).

Definition volumeGeoRepConfig_command (volumeName remoteHost remoteVolumeName : string)
    (optionName optionValue : option string) :=
  _getGlusterVolGeoRepCmd ++ [volumeName; slave remoteHost remoteVolumeName; "config"]
    ++ (match optionName with
        | Some n =>
            if PyStr.truthy n then
              if is_set optionValue then n :: opt optionValue
              else [("!" ++ n)%string]
            else []
        | None => []
        end).

Definition volumeGeoRepConfig volumeName remoteHost remoteVolumeName optionName optionValue
  : M pyval :=
  let command := volumeGeoRepConfig_command volumeName remoteHost remoteVolumeName
                                            optionName optionValue in
  xmltree <- _execGlusterXml command ;;
  if is_set optionName then ret true_
  else mapped (xml command) xmltree (lift (_parseVolumeGeoRepConfig xmltree)).

Definition snapshotCreate_command (volumeName snapName : string)
    (snapDescription : option string) (force : bool) :=
  _getGlusterSnapshotCmd ++ ["create"; snapName; volumeName]
    ++ (match opt snapDescription with
        | [] => []
        | d => "description" :: d
        end)
    ++ forced force.

Definition snapshotCreate volumeName snapName snapDescription force : M pyval :=
  decoded (snapshotCreate_command volumeName snapName snapDescription force)
    (single "uuid" "snapCreate/snapshot/uuid").

Definition snapshotDelete_command (volumeName snapName : option string) :=
  _getGlusterSnapshotCmd ++ ["delete"]
    ++ (if is_set snapName then opt snapName
        else if is_set volumeName then "volume" :: opt volumeName
        else []).

(** [# xml output not used because of BZ:1161416 in gluster cli] *)
Definition snapshotDelete (volumeName snapName : option string) : M pyval :=
  '(rc, out, err) <- _execGluster (snapshotDelete_command volumeName snapName) ;;
  ret true_.

Definition snapshotActivate_command (snapName : string) (force : bool) :=
  _getGlusterSnapshotCmd ++ ["activate"; snapName] ++ forced force.

Definition snapshotActivate snapName force : M pyval :=
  acknowledged (snapshotActivate_command snapName force).

Definition snapshotDeactivate_command (snapName : string) :=
  _getGlusterSnapshotCmd ++ ["deactivate"; snapName].

Definition snapshotDeactivate snapName : M pyval :=
  acknowledged (snapshotDeactivate_command snapName).

Definition snapshotRestore_command (snapName : string) :=
  _getGlusterSnapshotCmd ++ ["restore"; snapName].

Definition snapshotRestore snapName : M pyval :=
  decoded (snapshotRestore_command snapName)
    (fun xmltree => lift (_parseRestoredSnapshot xmltree)).

End Cli.

(** ** The public interface as data: one constructor per public function,
    with its parameters *)

Inductive Operation : Type :=
| OpVolumeStatus (volumeName : string) (brick option : option string)
| OpVolumeInfo (volumeName remoteServer : option string)
| OpVolumeCreate (volumeName : string) (brickList : list string) (replicaCount stripeCount : Z) (transportList : list string) (force : bool)
| OpVolumeStart (volumeName : string) (force : bool)
| OpVolumeStop (volumeName : string) (force : bool)
| OpVolumeDelete (volumeName : string)
| OpVolumeSet (volumeName option value : string)
| OpVolumeSetHelpXml
| OpVolumeReset (volumeName option : string) (force : bool)
| OpVolumeAddBrick (volumeName : string) (brickList : list string) (replicaCount stripeCount : Z) (force : bool)
| OpVolumeRebalanceStart (volumeName rebalanceType : string) (force : bool)
| OpVolumeRebalanceStop (volumeName : string) (force : bool)
| OpVolumeRebalanceStatus (volumeName : string)
| OpVolumeReplaceBrickStart (volumeName existingBrick newBrick : string)
| OpVolumeReplaceBrickAbort (volumeName existingBrick newBrick : string)
| OpVolumeReplaceBrickPause (volumeName existingBrick newBrick : string)
| OpVolumeReplaceBrickStatus (volumeName existingBrick newBrick : string)
| OpVolumeReplaceBrickCommit (volumeName existingBrick newBrick : string) (force : bool)
| OpVolumeRemoveBrickStart (volumeName : string) (brickList : list string) (replicaCount : Z)
| OpVolumeRemoveBrickStop (volumeName : string) (brickList : list string) (replicaCount : Z)
| OpVolumeRemoveBrickStatus (volumeName : string) (brickList : list string) (replicaCount : Z)
| OpVolumeRemoveBrickCommit (volumeName : string) (brickList : list string) (replicaCount : Z)
| OpVolumeRemoveBrickForce (volumeName : string) (brickList : list string) (replicaCount : Z)
| OpPeerProbe (hostName : string)
| OpPeerDetach (hostName : string) (force : bool)
| OpPeerStatus
| OpVolumeProfileStart (volumeName : string)
| OpVolumeProfileStop (volumeName : string)
| OpVolumeProfileInfo (volumeName : string) (nfs : bool)
| OpVolumeTasks (volumeName : string)
| OpVolumeGeoRepSessionStart (volumeName remoteHost remoteVolumeName : string) (force : bool)
| OpVolumeGeoRepSessionStop (volumeName remoteHost remoteVolumeName : string) (force : bool)
| OpVolumeGeoRepStatus (volumeName remoteHost remoteVolumeName : option string) (detail : bool)
| OpVolumeGeoRepSessionPause (volumeName remoteHost remoteVolumeName : string) (force : bool)
| OpVolumeGeoRepSessionResume (volumeName remoteHost remoteVolumeName : string) (force : bool)
| OpVolumeGeoRepConfig (volumeName remoteHost remoteVolumeName : string) (optionName optionValue : option string)
| OpSnapshotCreate (volumeName snapName : string) (snapDescription : option string) (force : bool)
| OpSnapshotDelete (volumeName snapName : option string)
| OpSnapshotActivate (snapName : string) (force : bool)
| OpSnapshotDeactivate (snapName : string)
| OpSnapshotRestore (snapName : string).

Section Calls.

Context {env : Env}.

(** calling the function an operation names *)
Definition call (op : Operation) : M pyval :=
  match op with
  | OpVolumeStatus volumeName brick option =>
      volumeStatus volumeName brick option
  | OpVolumeInfo volumeName remoteServer =>
      volumeInfo volumeName remoteServer
  | OpVolumeCreate volumeName brickList replicaCount stripeCount transportList force =>
      volumeCreate volumeName brickList replicaCount stripeCount transportList force
  | OpVolumeStart volumeName force =>
      volumeStart volumeName force
  | OpVolumeStop volumeName force =>
      volumeStop volumeName force
  | OpVolumeDelete volumeName =>
      volumeDelete volumeName
  | OpVolumeSet volumeName option value =>
      volumeSet volumeName option value
  | OpVolumeSetHelpXml =>
      volumeSetHelpXml
  | OpVolumeReset volumeName option force =>
      volumeReset volumeName option force
  | OpVolumeAddBrick volumeName brickList replicaCount stripeCount force =>
      volumeAddBrick volumeName brickList replicaCount stripeCount force
  | OpVolumeRebalanceStart volumeName rebalanceType force =>
      volumeRebalanceStart volumeName rebalanceType force
  | OpVolumeRebalanceStop volumeName force =>
      volumeRebalanceStop volumeName force
  | OpVolumeRebalanceStatus volumeName =>
      volumeRebalanceStatus volumeName
  | OpVolumeReplaceBrickStart volumeName existingBrick newBrick =>
      volumeReplaceBrickStart volumeName existingBrick newBrick
  | OpVolumeReplaceBrickAbort volumeName existingBrick newBrick =>
      volumeReplaceBrickAbort volumeName existingBrick newBrick
  | OpVolumeReplaceBrickPause volumeName existingBrick newBrick =>
      volumeReplaceBrickPause volumeName existingBrick newBrick
  | OpVolumeReplaceBrickStatus volumeName existingBrick newBrick =>
      volumeReplaceBrickStatus volumeName existingBrick newBrick
  | OpVolumeReplaceBrickCommit volumeName existingBrick newBrick force =>
      volumeReplaceBrickCommit volumeName existingBrick newBrick force
  | OpVolumeRemoveBrickStart volumeName brickList replicaCount =>
      volumeRemoveBrickStart volumeName brickList replicaCount
  | OpVolumeRemoveBrickStop volumeName brickList replicaCount =>
      volumeRemoveBrickStop volumeName brickList replicaCount
  | OpVolumeRemoveBrickStatus volumeName brickList replicaCount =>
      volumeRemoveBrickStatus volumeName brickList replicaCount
  | OpVolumeRemoveBrickCommit volumeName brickList replicaCount =>
      volumeRemoveBrickCommit volumeName brickList replicaCount
  | OpVolumeRemoveBrickForce volumeName brickList replicaCount =>
      volumeRemoveBrickForce volumeName brickList replicaCount
  | OpPeerProbe hostName =>
      peerProbe hostName
  | OpPeerDetach hostName force =>
      peerDetach hostName force
  | OpPeerStatus =>
      peerStatus
  | OpVolumeProfileStart volumeName =>
      volumeProfileStart volumeName
  | OpVolumeProfileStop volumeName =>
      volumeProfileStop volumeName
  | OpVolumeProfileInfo volumeName nfs =>
      volumeProfileInfo volumeName nfs
  | OpVolumeTasks volumeName =>
      volumeTasks volumeName
  | OpVolumeGeoRepSessionStart volumeName remoteHost remoteVolumeName force =>
      volumeGeoRepSessionStart volumeName remoteHost remoteVolumeName force
  | OpVolumeGeoRepSessionStop volumeName remoteHost remoteVolumeName force =>
      volumeGeoRepSessionStop volumeName remoteHost remoteVolumeName force
  | OpVolumeGeoRepStatus volumeName remoteHost remoteVolumeName detail =>
      volumeGeoRepStatus volumeName remoteHost remoteVolumeName detail
  | OpVolumeGeoRepSessionPause volumeName remoteHost remoteVolumeName force =>
      volumeGeoRepSessionPause volumeName remoteHost remoteVolumeName force
  | OpVolumeGeoRepSessionResume volumeName remoteHost remoteVolumeName force =>
      volumeGeoRepSessionResume volumeName remoteHost remoteVolumeName force
  | OpVolumeGeoRepConfig volumeName remoteHost remoteVolumeName optionName optionValue =>
      volumeGeoRepConfig volumeName remoteHost remoteVolumeName optionName optionValue
  | OpSnapshotCreate volumeName snapName snapDescription force =>
      snapshotCreate volumeName snapName snapDescription force
  | OpSnapshotDelete volumeName snapName =>
      snapshotDelete volumeName snapName
  | OpSnapshotActivate snapName force =>
      snapshotActivate snapName force
  | OpSnapshotDeactivate snapName =>
      snapshotDeactivate snapName
  | OpSnapshotRestore snapName =>
      snapshotRestore snapName
  end.

(** the argument vector the function builds, before it is run *)
Definition command_of (op : Operation) : argv :=
  match op with
  | OpVolumeStatus volumeName brick option =>
      volumeStatus_command volumeName brick option
  | OpVolumeInfo volumeName remoteServer =>
      volumeInfo_command volumeName remoteServer
  | OpVolumeCreate volumeName brickList replicaCount stripeCount transportList force =>
      volumeCreate_command volumeName brickList replicaCount stripeCount transportList force
  | OpVolumeStart volumeName force =>
      volumeStart_command volumeName force
  | OpVolumeStop volumeName force =>
      volumeStop_command volumeName force
  | OpVolumeDelete volumeName =>
      volumeDelete_command volumeName
  | OpVolumeSet volumeName option value =>
      volumeSet_command volumeName option value
  | OpVolumeSetHelpXml =>
      volumeSetHelpXml_command
  | OpVolumeReset volumeName option force =>
      volumeReset_command volumeName option force
  | OpVolumeAddBrick volumeName brickList replicaCount stripeCount force =>
      volumeAddBrick_command volumeName brickList replicaCount stripeCount force
  | OpVolumeRebalanceStart volumeName rebalanceType force =>
      volumeRebalanceStart_command volumeName rebalanceType force
  | OpVolumeRebalanceStop volumeName force =>
      volumeRebalanceStop_command volumeName force
  | OpVolumeRebalanceStatus volumeName =>
      volumeRebalanceStatus_command volumeName
  | OpVolumeReplaceBrickStart volumeName existingBrick newBrick =>
      volumeReplaceBrickStart_command volumeName existingBrick newBrick
  | OpVolumeReplaceBrickAbort volumeName existingBrick newBrick =>
      volumeReplaceBrickAbort_command volumeName existingBrick newBrick
  | OpVolumeReplaceBrickPause volumeName existingBrick newBrick =>
      volumeReplaceBrickPause_command volumeName existingBrick newBrick
  | OpVolumeReplaceBrickStatus volumeName existingBrick newBrick =>
      volumeReplaceBrickStatus_command volumeName existingBrick newBrick
  | OpVolumeReplaceBrickCommit volumeName existingBrick newBrick force =>
      volumeReplaceBrickCommit_command volumeName existingBrick newBrick force
  | OpVolumeRemoveBrickStart volumeName brickList replicaCount =>
      volumeRemoveBrickStart_command volumeName brickList replicaCount
  | OpVolumeRemoveBrickStop volumeName brickList replicaCount =>
      volumeRemoveBrickStop_command volumeName brickList replicaCount
  | OpVolumeRemoveBrickStatus volumeName brickList replicaCount =>
      volumeRemoveBrickStatus_command volumeName brickList replicaCount
  | OpVolumeRemoveBrickCommit volumeName brickList replicaCount =>
      volumeRemoveBrickCommit_command volumeName brickList replicaCount
  | OpVolumeRemoveBrickForce volumeName brickList replicaCount =>
      volumeRemoveBrickForce_command volumeName brickList replicaCount
  | OpPeerProbe hostName =>
      peerProbe_command hostName
  | OpPeerDetach hostName force =>
      peerDetach_command hostName force
  | OpPeerStatus =>
      peerStatus_command
  | OpVolumeProfileStart volumeName =>
      volumeProfileStart_command volumeName
  | OpVolumeProfileStop volumeName =>
      volumeProfileStop_command volumeName
  | OpVolumeProfileInfo volumeName nfs =>
      volumeProfileInfo_command volumeName nfs
  | OpVolumeTasks volumeName =>
      volumeTasks_command volumeName
  | OpVolumeGeoRepSessionStart volumeName remoteHost remoteVolumeName force =>
      volumeGeoRepSessionStart_command volumeName remoteHost remoteVolumeName force
  | OpVolumeGeoRepSessionStop volumeName remoteHost remoteVolumeName force =>
      volumeGeoRepSessionStop_command volumeName remoteHost remoteVolumeName force
  | OpVolumeGeoRepStatus volumeName remoteHost remoteVolumeName detail =>
      volumeGeoRepStatus_command volumeName remoteHost remoteVolumeName detail
  | OpVolumeGeoRepSessionPause volumeName remoteHost remoteVolumeName force =>
      volumeGeoRepSessionPause_command volumeName remoteHost remoteVolumeName force
  | OpVolumeGeoRepSessionResume volumeName remoteHost remoteVolumeName force =>
      volumeGeoRepSessionResume_command volumeName remoteHost remoteVolumeName force
  | OpVolumeGeoRepConfig volumeName remoteHost remoteVolumeName optionName optionValue =>
      volumeGeoRepConfig_command volumeName remoteHost remoteVolumeName optionName optionValue
  | OpSnapshotCreate volumeName snapName snapDescription force =>
      snapshotCreate_command volumeName snapName snapDescription force
  | OpSnapshotDelete volumeName snapName =>
      snapshotDelete_command volumeName snapName
  | OpSnapshotActivate snapName force =>
      snapshotActivate_command snapName force
  | OpSnapshotDeactivate snapName =>
      snapshotDeactivate_command snapName
  | OpSnapshotRestore snapName =>
      snapshotRestore_command snapName
  end.

End Calls.

(** ** A small XML reader for the worked examples

    The theorems below hold for every [fromstring].  The examples need one
    that can be run: this reader knows start tags, end tags, empty-element
    tags and character data, skips declarations and comments, and drops
    attributes.  It returns [None] for text it cannot read, as
    [etree.fromstring] raises [ParseError]. *)

Module MiniXml.

Inductive token : Type :=
| TOpen (t : string)
| TClose (t : string)
| TEmpty (t : string)
| TText (s : string).

(** the tag name: the markup up to the first blank *)
Fixpoint name_of (s : string) : string :=
  match s with
  | EmptyString => EmptyString
  | String c s' => if PyStr.is_space c then EmptyString else String c (name_of s')
  end.

(** the token for the markup between [<] and [>] *)
Definition markup (m : string) : list token :=
  match m with
  | String "?" _ | String "!" _ => []
  | String "/" t => [TClose (name_of t)]
  | _ =>
      match PyStr.rev m with
      | String "/" r => [TEmpty (name_of (PyStr.rev r))]
      | _ => [TOpen (name_of m)]
      end
  end.

(** [intag] tells whether the reader is between [<] and [>]; [acc] is what
    was read since the last delimiter, in reverse *)
Fixpoint tokens (intag : bool) (acc s : string) : option (list token) :=
  match s with
  | EmptyString =>
      if intag then None
      else Some (match acc with EmptyString => [] | _ => [TText (PyStr.rev acc)] end)
  | String c s' =>
      if intag then
        if Ascii.eqb c ">"
        then option_map (app (markup (PyStr.rev acc))) (tokens false EmptyString s')
        else tokens true (String c acc) s'
      else
        if Ascii.eqb c "<"
        then option_map (app (match acc with
                              | EmptyString => []
                              | _ => [TText (PyStr.rev acc)]
                              end))
                        (tokens true EmptyString s')
        else tokens false (String c acc) s'
  end.

(** an element being read: tag, text, children so far in reverse *)
Definition frame : Type := string * option string * list Element.

Definition close (f : frame) : Element :=
  let '(t, x, cs) := f in Elem t x (List.rev cs).

Definition add_child (e : Element) (f : frame) : frame :=
  let '(t, x, cs) := f in (t, x, e :: cs).

(** [stack] holds the open elements, innermost first; [root] the finished
    document element *)
Fixpoint build (ts : list token) (stack : list frame) (root : option Element)
  : option Element :=
  match ts with
  | [] => match stack with [] => root | _ => None end
  | TOpen t :: ts' =>
      match root with
      | Some _ => None
      | None => build ts' ((t, None, []) :: stack) None
      end
  | TEmpty t :: ts' =>
      match stack, root with
      | f :: fs, _ => build ts' (add_child (Elem t None []) f :: fs) root
      | [], None => build ts' [] (Some (Elem t None []))
      | [], Some _ => None
      end
  | TText s :: ts' =>
      match stack with
      | (t, None, []) :: fs => build ts' ((t, Some s, []) :: fs) root
      | _ :: _ => build ts' stack root        (* a tail: never read *)
      | [] => if PyStr.truthy (PyStr.strip s) then None else build ts' [] root
      end
  | TClose t :: ts' =>
      match stack with
      | (t', x, cs) :: fs =>
          if String.eqb t t' then
            match fs with
            | parent :: fs' => build ts' (add_child (close (t', x, cs)) parent :: fs') root
            | [] => build ts' [] (Some (close (t', x, cs)))
            end
          else None
      | [] => None
      end
  end.

Definition fromstring (s : string) : option Element :=
  match tokens false EmptyString s with
  | Some ts => build ts [] None
  | None => None
  end.

(** a serialiser, for the [xml] field of [GlusterXMLError] *)
Fixpoint tostring (e : Element) : string :=
  let 'Elem t x cs := e in
  "<" ++ t ++ ">" ++ PyStr.or_empty x
      ++ fold_right (fun c acc => tostring c ++ acc) "" cs
      ++ "</" ++ t ++ ">".

End MiniXml.

(** ['%.3f' % (n / (1024.0 * 1024.0))] for [0 <= n < 2^53]: the quotient is
    exact in binary floating point, and the conversion rounds its exact
    decimal expansion to three places, ties to even *)
Definition three_places (n : Z) : string :=
  let q := (n * 1000) / 1048576 in
  let r := (n * 1000) mod 1048576 in
  let m := if (524288 <? r) || ((r =? 524288) && Z.odd q) then q + 1 else q in
  let frac := m mod 1000 in
  PyStr.of_Z (m / 1000) ++ "."
    ++ (if frac <? 10 then "00" else if frac <? 100 then "0" else "")
    ++ PyStr.of_Z frac.

(** An environment for the examples: the tool sits at /usr/sbin/gluster, the
    host is [host1] at 10.0.0.1, and [exec] stands for the tool. *)
Definition example_env (exec : argv -> Z * string * string) : Env := {|
  gluster_cmd := "/usr/sbin/gluster";
  execCmd := exec;
  fromstring := MiniXml.fromstring;
  tostring := MiniXml.tostring;
  getfqdn := "host1";
  gethostbyname := fun _ => "10.0.0.1";
  get_active_devices := [];
  get_ipaddr := fun _ => None;
  int_of_string := PyStr.to_int;
  format_3f := three_places
|}.

(** a tool that prints [out] on standard output, [err] on standard error and
    exits with [rc], whatever it is asked *)
Definition always (rc : Z) (out err : string) : argv -> Z * string * string :=
  fun _ => (rc, out, err).

(** ** The vocabulary of the properties *)

(** the text [s] has an occurrence of the busy marker, in any mix of upper
    and lower case *)
Definition carries_marker (s : string) : Prop :=
  exists pre mid post,
    s = pre ++ mid ++ post /\ PyStr.lower mid = _TRANS_IN_PROGRESS.

(** [p] occurs in [s]; [p] ends [s] *)
Definition occurs_in (p s : string) : Prop := exists pre post, s = pre ++ p ++ post.
Definition ends_with (p s : string) : Prop := exists pre, s = pre ++ p.

(** the commands a call hands to [utils.execCmd], in order *)
Definition issued {env : Env} (op : Operation) (w : World) : list argv :=
  skipn (List.length (calls w)) (calls (snd (call op w))).

(** the three functions the specification lists as running the tool without
    [--xml] *)
Definition listed_plain (op : Operation) : bool :=
  match op with
  | OpVolumeSetHelpXml | OpSnapshotDelete _ _ | OpVolumeReplaceBrickStatus _ _ _ => true
  | _ => false
  end.

(** the functions of [cli.py] that call [_execGluster] *)
Definition plain (op : Operation) : bool :=
  match op with
  | OpVolumeStart _ _ => true
  | _ => listed_plain op
  end.

(** the one function that may run a second command *)
Definition op_is_peerStatus (op : Operation) : bool :=
  match op with OpPeerStatus => true | _ => false end.

(** a token in normal form: no lower-case letter, no blank, no hyphen *)
Definition normal_char (c : ascii) : bool :=
  (negb (PyStr.is_lower c) && negb (Ascii.eqb c " ") && negb (Ascii.eqb c "-"))%bool.

Fixpoint normalized (s : string) : bool :=
  match s with
  | EmptyString => true
  | String c s' => (normal_char c && normalized s')%bool
  end.

(** [len(bricks) == brickCount], the count read as a decimal number *)
Definition count_matches (value : list (option string * pyval)) : Prop :=
  exists bricks n,
    dict_get (Some "bricks") value = Some (PList bricks)
    /\ dict_get (Some "brickCount") value = Some (PStr n)
    /\ PyStr.to_int n = Some (Z.of_nat (List.length bricks)).

(** the failure kinds the specification documents *)
Definition typed_failure (e : exn) : bool :=
  match e with
  | GlusterBusy _ _ _ _ | GlusterXMLError _ _ | GlusterCmdFailed _ _ _
  | GlusterPeerNotFound _ => true
  | _ => false
  end.

(** a computation only adds to the record of calls, and only commands that
    satisfy [P] *)
Definition grows {A} (P : argv -> Prop) (m : M A) : Prop :=
  forall w, exists l, calls (snd (m w)) = (calls w ++ l)%list /\ Forall P l.

(** the first thing a computation does is to run [c]; what it runs later
    satisfies [P] *)
Definition starts_with {A} (P : argv -> Prop) (c : argv) (m : M A) : Prop :=
  forall w, exists rest,
    calls (snd (m w)) = (calls w ++ c :: rest)%list /\ Forall P rest.

(** the command of [_getLocalPeerUUID] *)
Definition uuid_get {env : Env} : argv :=
  (_getGlusterSystemCmd ++ ["uuid"; "get"])%list.

Create HintDb grows.

(** the public functions that can let an exception other than the
    failures of the module (and [TypeError]) escape *)
Definition leaks (op : Operation) : bool :=
  match op with
  | OpVolumeStatus _ _ _ | OpVolumeSetHelpXml | OpVolumeReplaceBrickStatus _ _ _
  | OpPeerDetach _ _ => true
  | _ => false
  end.

(** the exceptions of a computation all satisfy [P] *)
Definition raises_only {A} (P : exn -> Prop) (m : M A) : Prop :=
  forall w e, fst (m w) = Raise e -> P e.

Definition fails_only {A} (P : exn -> Prop) (r : result A) : Prop :=
  forall e, r = Raise e -> P e.

Definition attr (e : exn) : Prop := e = AttributeError.

(** a failure of the module, or the [TypeError] of an empty envelope field *)
Definition reported (e : exn) : Prop :=
  match e with
  | GlusterBusy _ _ _ _ | GlusterXMLError _ _ | GlusterCmdFailed _ _ _
  | TypeError => True
  | _ => False
  end.

(** the public functions that return one identifier of the response:
    the key of the dict they return and the path of the element they read *)
Definition single_result (op : Operation) : option (string * string) :=
  match op with
  | OpVolumeCreate _ _ _ _ _ _ => Some ("uuid", "volCreate/volume/id")
  | OpVolumeRebalanceStart _ _ _ => Some ("taskId", "volRebalance/task-id")
  | OpVolumeReplaceBrickStart _ _ _ => Some ("taskId", "volReplaceBrick/task-id")
  | OpVolumeRemoveBrickStart _ _ _ => Some ("taskId", "volRemoveBrick/task-id")
  | OpSnapshotCreate _ _ _ _ => Some ("uuid", "snapCreate/snapshot/uuid")
  | _ => None
  end.

(** ** Data of the worked examples *)

(** a successful envelope, exit code 0, and the marker in its message *)
Definition busy_success_output : string :=
  "<cliOutput><opRet>0</opRet><opErrno>0</opErrno><opErrstr>Another Transaction is in progress. Please try again after sometime.</opErrstr></cliOutput>".

(** the daemon's answer while another transaction holds the cluster lock: a
    well-formed envelope with a non-zero [opRet] *)
Definition busy_failure_output : string :=
  "<cliOutput><opRet>-1</opRet><opErrno>0</opErrno><opErrstr>Another transaction is in progress. Please try again after sometime.</opErrstr></cliOutput>".

(** scenario B of the specification *)
Definition missing_volume_output : string :=
  "<cliOutput><opRet>2</opRet><opErrno>0</opErrno><opErrstr>volume does not exist</opErrstr></cliOutput>".

(** the daemon's answer to the detach of a host that is no peer *)
Definition no_such_peer_output : string :=
  "<cliOutput><opRet>-1</opRet><opErrno>2</opErrno><opErrstr>host9 is not part of cluster</opErrstr></cliOutput>".

(** a status line that contains PAUSED and ends in MIGRATION COMPLETE *)
Definition paused_and_complete : string := "Paused: migration complete".

(** a volume with one brick whose [brickCount] says 3 and whose transport
    code is 2 *)
Definition one_brick_volume : Element :=
  Elem "volume" None
    [Elem "name" (Some "vol0") []; Elem "id" (Some "f7e1") [];
     Elem "typeStr" (Some "Distribute") []; Elem "statusStr" (Some "Started") [];
     Elem "brickCount" (Some "3") []; Elem "distCount" (Some "1") [];
     Elem "stripeCount" (Some "1") []; Elem "replicaCount" (Some "1") [];
     Elem "transport" (Some "2") [];
     Elem "bricks" None
       [Elem "brick" (Some "host1:/b1")
          [Elem "name" (Some "host1:/b1") []; Elem "hostUuid" (Some "a1") []]];
     Elem "options" None []].

Definition one_brick_info : Element :=
  Elem "cliOutput" None
    [Elem "opRet" (Some "0") []; Elem "opErrno" (Some "0") [];
     Elem "opErrstr" None [];
     Elem "volInfo" None [Elem "volumes" None [one_brick_volume]]].

(** a volume status with one brick that is up and the NFS server of the
    local host that is down *)
Definition status_output : string :=
  "<cliOutput><opRet>0</opRet><opErrno>0</opErrno><opErrstr/><volStatus><volumes><volume><volName>vol0</volName><node><hostname>host1</hostname><path>/b1</path><peerid>a1</peerid><status>1</status><port>49152</port><pid>1234</pid></node><node><hostname>NFS Server</hostname><path>localhost</path><peerid>a1</peerid><status>0</status><port>2049</port><pid>-1</pid></node></volume></volumes></volStatus></cliOutput>".

(** a peer status with one other peer, and the answer to [system:: uuid get] *)
Definition peers_output : string :=
  "<cliOutput><opRet>0</opRet><opErrno>0</opErrno><opErrstr/><peerStatus><peer><uuid>b2</uuid><hostname>host2</hostname><connected>1</connected><state>3</state></peer></peerStatus></cliOutput>".

Definition peers_tool (cmd : argv) : Z * string * string :=
  match cmd with
  | [_; "system::"; "uuid"; "get"] => (0, "UUID: a1", "")
  | _ => (0, peers_output, "")
  end.

(** an envelope with an empty [opRet], and a successful one with a
    non-zero [opErrno] *)
Definition empty_opRet_output : string :=
  "<cliOutput><opRet/><opErrno>0</opErrno><opErrstr/></cliOutput>".

Definition nonzero_errno_output : string :=
  "<cliOutput><opRet>0</opRet><opErrno>7</opErrno><opErrstr/></cliOutput>".

(** a volume status whose node has no [path] *)
Definition pathless_output : string :=
  "<cliOutput><opRet>0</opRet><opErrno>0</opErrno><opErrstr/><volStatus><volumes><volume><volName>vol0</volName><node><hostname>host1</hostname></node></volume></volumes></volStatus></cliOutput>".

(** a volume as an older daemon reports it: bricks without [hostUuid] *)
Definition old_daemon_volume : Element :=
  Elem "volume" None
    [Elem "name" (Some "vol0") []; Elem "id" (Some "f7e1") [];
     Elem "typeStr" (Some "Replicate") []; Elem "statusStr" (Some "Stopped") [];
     Elem "brickCount" (Some "2") []; Elem "distCount" (Some "1") [];
     Elem "stripeCount" (Some "1") []; Elem "replicaCount" (Some "2") [];
     Elem "transport" (Some "0") [];
     Elem "bricks" None
       [Elem "brick" (Some "host1:/b1") []; Elem "brick" (Some "host2:/b2") []];
     Elem "options" None []].

(** a peer that is not in state 3 and has no [connected] child *)
Definition stale_peer : Element :=
  Elem "peer" None
    [Elem "uuid" (Some "c3") []; Elem "hostname" (Some "host3") [];
     Elem "state" (Some "2") []].

(** a response that lists the volume [vol0] twice *)
Definition twice_vol0 : Element :=
  let vol (id : string) :=
    Elem "volume" None
      [Elem "name" (Some "vol0") []; Elem "id" (Some id) [];
       Elem "typeStr" (Some "Distribute") []; Elem "statusStr" (Some "Started") [];
       Elem "brickCount" (Some "0") []; Elem "distCount" (Some "1") [];
       Elem "stripeCount" (Some "1") []; Elem "replicaCount" (Some "1") [];
       Elem "transport" (Some "0") []] in
  Elem "cliOutput" None
    [Elem "volInfo" None [Elem "volumes" None [vol "first"; vol "second"]]].

(** the answer to a volume create *)
Definition created_output : string :=
  "<cliOutput><opRet>0</opRet><opErrno>0</opErrno><opErrstr/><volCreate><volume><name>vol0</name><id>f7e1</id></volume></volCreate></cliOutput>".

(** ** Worked examples *)

Example mini_xml_envelope :
  MiniXml.fromstring "<cliOutput><opRet>0</opRet><opErrno>0</opErrno><opErrstr/></cliOutput>"
  = Some (Elem "cliOutput" None
            [Elem "opRet" (Some "0") []; Elem "opErrno" (Some "0") [];
             Elem "opErrstr" None []]).
Proof. reflexivity. Qed.

Example three_places_2GiB : three_places 2097152 = "2.000".
Proof. reflexivity. Qed.

Example to_int_examples :
  PyStr.to_int " 42 " = Some 42 /\ PyStr.to_int "-1" = Some (-1)
  /\ PyStr.to_int "" = None /\ PyStr.to_int "4x" = None.
Proof. repeat split. Qed.

Example split_examples :
  PyStr.split "::" "host2::remoteVol" = ["host2"; "remoteVol"]
  /\ PyStr.split "/" "volInfo/volumes/volume" = ["volInfo"; "volumes"; "volume"]
  /\ PyStr.split "::" "plain" = ["plain"].
Proof. repeat split. Qed.

Example volume_status_example :
  fst (@call (example_env (always 0 status_output "")) (OpVolumeStatus "vol0" None None) initial)
  = Ok (PDict
          [item "name" (PStr "vol0");
           item "bricks"
             (PList [PDict [item "brick" (PStr "host1:/b1"); item "hostuuid" (PStr "a1");
                            item "port" (PStr "49152"); item "status" (PStr "ONLINE");
                            item "pid" (PStr "1234")]]);
           item "nfs"
             (PList [PDict [item "hostname" (PStr "10.0.0.1"); item "hostuuid" (PStr "a1");
                            item "port" (PStr "2049"); item "status" (PStr "OFFLINE");
                            item "pid" (PStr "-1")]]);
           item "shd" (PList [])]).
Proof. reflexivity. Qed.

Example peer_status_example :
  @call (example_env peers_tool) OpPeerStatus initial
  = (Ok (PList
           [PDict [item "hostname" (PStr "10.0.0.1"); item "uuid" (PStr "a1");
                   item "status" (PStr "CONNECTED")];
            PDict [item "hostname" (PStr "host2"); item "uuid" (PStr "b2");
                   item "status" (PStr "CONNECTED")]]),
     mkWorld "a1" "10.0.0.1"
       [["/usr/sbin/gluster"; "--mode=script"; "peer"; "status"; "--xml"];
        ["/usr/sbin/gluster"; "system::"; "uuid"; "get"]]).
Proof. reflexivity. Qed.

Example volume_create_command_example :
  @volumeCreate_command (example_env (always 0 "" ""))
    "vol0" ["host1:/b1"; "host2:/b2"] 2 0 ["tcp"; "rdma"] true
  = ["/usr/sbin/gluster"; "--mode=script"; "volume"; "create"; "vol0";
     "replica"; "2"; "transport"; "tcp,rdma"; "host1:/b1"; "host2:/b2"; "force"].
Proof. reflexivity. Qed.

(** ** Facts about the string operations *)

Module PyStrFacts.
Import PyStr.

Lemma startswith_spec (p s : string) :
  startswith p s = true <-> exists post, s = p ++ post.
Proof.
  revert s; induction p as [|a p IH]; intros s; simpl.
  - split; [intros _; now exists s | reflexivity].
  - destruct s as [|b s].
    + split; [discriminate | intros [post H]; discriminate].
    + rewrite andb_true_iff, Ascii.eqb_eq, IH. split.
      * intros [-> [post ->]]. now exists post.
      * intros [post H]. injection H as -> ->. split; [reflexivity | now exists post].
Qed.

Lemma contains_spec (p s : string) :
  contains p s = true <-> occurs_in p s.
Proof.
  unfold occurs_in. induction s as [|c s IH]; simpl.
  - rewrite startswith_spec. split.
    + intros [post H]. now exists "", post.
    + intros [[|c pre] [post H]]; [now exists post | discriminate].
  - rewrite orb_true_iff, IH, startswith_spec. split.
    + intros [[post H] | [pre [post H]]].
      * now exists "", post.
      * exists (String c pre), post. simpl. now rewrite H.
    + intros [[|c' pre] [post H]].
      * left. now exists post.
      * right. injection H as _ H. now exists pre, post.
Qed.

Lemma map_app (f : ascii -> ascii) (a b : string) :
  map f (a ++ b) = map f a ++ map f b.
Proof. induction a as [|c a IH]; simpl; [reflexivity | now rewrite IH]. Qed.

Lemma map_split (f : ascii -> ascii) (s a b : string) :
  map f s = a ++ b ->
  exists s1 s2, s = s1 ++ s2 /\ map f s1 = a /\ map f s2 = b.
Proof.
  revert s; induction a as [|c a IH]; intros s H; simpl in H.
  - now exists "", s.
  - destruct s as [|d s]; [discriminate|]. simpl in H. injection H as Hc H.
    destruct (IH _ H) as (s1 & s2 & -> & H1 & H2).
    exists (String d s1), s2. simpl. now rewrite Hc, H1.
Qed.

(** the test of [_throwIfBusy] finds exactly the texts that carry the
    marker *)
Lemma busy_test (s : string) :
  contains _TRANS_IN_PROGRESS (lower s) = true <-> carries_marker s.
Proof.
  rewrite contains_spec. unfold occurs_in, carries_marker, lower. split.
  - intros (pre & post & H).
    apply map_split in H as (s1 & s23 & -> & H1 & H23).
    apply map_split in H23 as (s2 & s3 & -> & H2 & H3).
    now exists s1, s2, s3.
  - intros (pre & mid & post & -> & H).
    exists (map lower_char pre), (map lower_char post).
    now rewrite !map_app, H.
Qed.

Lemma busy_test_false (s : string) :
  contains _TRANS_IN_PROGRESS (lower s) = false <-> ~ carries_marker s.
Proof.
  rewrite <- busy_test. destruct (contains _ _); split; intuition congruence.
Qed.

Lemma append_assoc (a b c : string) : (a ++ b) ++ c = a ++ b ++ c.
Proof. induction a as [|x a IH]; simpl; [reflexivity | now rewrite IH]. Qed.

Lemma append_empty_r (s : string) : s ++ "" = s.
Proof. induction s as [|c s IH]; simpl; [reflexivity | now rewrite IH]. Qed.

Lemma rev_onto_app (s acc : string) : rev_onto s acc = rev s ++ acc.
Proof.
  unfold rev. revert acc; induction s as [|c s IH]; intros acc; simpl.
  - reflexivity.
  - rewrite IH, (IH (String c "")). now rewrite append_assoc.
Qed.

Lemma rev_app (a b : string) : rev (a ++ b) = rev b ++ rev a.
Proof.
  induction a as [|c a IH]; simpl.
  - now rewrite append_empty_r.
  - unfold rev at 1 3. simpl. rewrite !rev_onto_app, IH.
    now rewrite append_assoc.
Qed.

Lemma rev_involutive (s : string) : rev (rev s) = s.
Proof.
  induction s as [|c s IH]; [reflexivity|].
  unfold rev at 2. simpl. rewrite rev_onto_app, rev_app, IH. reflexivity.
Qed.

Lemma endswith_spec (p s : string) :
  endswith p s = true <-> ends_with p s.
Proof.
  unfold endswith, ends_with. rewrite startswith_spec. split.
  - intros [post H]. exists (rev post).
    rewrite <- (rev_involutive s), H, rev_app, rev_involutive. reflexivity.
  - intros [pre ->]. exists (rev pre). now rewrite rev_app.
Qed.

End PyStrFacts.

(** ** Facts about the monad and the commands it records *)

Section Growth.

Variable P : argv -> Prop.

Lemma grows_nothing {A} (m : M A) :
  (forall w, calls (snd (m w)) = calls w) -> grows P m.
Proof. intros H w. exists []. rewrite H, app_nil_r. now split. Qed.

Lemma grows_ret {A} (a : A) : grows P (ret a).
Proof. now apply grows_nothing. Qed.

Lemma grows_raise {A} (e : exn) : grows P (raise (A:=A) e).
Proof. now apply grows_nothing. Qed.

Lemma grows_lift {A} (r : result A) : grows P (lift r).
Proof. now apply grows_nothing. Qed.

Lemma grows_raise_global {A} (n : string) (e : exn) :
  grows P (raise_global (A:=A) n e).
Proof. unfold raise_global. destruct (is_global n); apply grows_raise. Qed.

Lemma grows_bind {A B} (m : M A) (k : A -> M B) :
  grows P m -> (forall a, grows P (k a)) -> grows P (bind m k).
Proof.
  intros Hm Hk w. unfold bind. destruct (Hm w) as (l & Hl & HP).
  destruct (m w) as [[a|e] w']; simpl in *.
  - destruct (Hk a w') as (l' & Hl' & HP'). exists (l ++ l')%list.
    rewrite Hl', Hl, app_assoc. split; [reflexivity | now apply Forall_app].
  - now exists l.
Qed.

Lemma grows_try {A} (m : M A) sel (h : exn -> M A) :
  grows P m -> (forall e, grows P (h e)) -> grows P (try_except m sel h).
Proof.
  intros Hm Hh w. unfold try_except. destruct (Hm w) as (l & Hl & HP).
  destruct (m w) as [[a|e] w']; simpl in *.
  - now exists l.
  - destruct (sel e); [|now exists l].
    destruct (Hh e w') as (l' & Hl' & HP'). exists (l ++ l')%list.
    rewrite Hl', Hl, app_assoc. split; [reflexivity | now apply Forall_app].
Qed.

Lemma grows_if {A} (b : bool) (m1 m2 : M A) :
  grows P m1 -> grows P m2 -> grows P (if b then m1 else m2).
Proof. now destruct b. Qed.

Lemma starts_bind {A B} (c : argv) (m : M A) (k : A -> M B) :
  starts_with P c m -> (forall a, grows P (k a)) -> starts_with P c (bind m k).
Proof.
  intros Hm Hk w. unfold bind. destruct (Hm w) as (l & Hl & HP).
  destruct (m w) as [[a|e] w']; simpl in *.
  - destruct (Hk a w') as (l' & Hl' & HP'). exists (l ++ l')%list.
    rewrite Hl', Hl, <- app_assoc. split; [reflexivity | now apply Forall_app].
  - now exists l.
Qed.

Lemma starts_try {A} (c : argv) (m : M A) sel (h : exn -> M A) :
  starts_with P c m -> (forall e, grows P (h e)) ->
  starts_with P c (try_except m sel h).
Proof.
  intros Hm Hh w. unfold try_except. destruct (Hm w) as (l & Hl & HP).
  destruct (m w) as [[a|e] w']; simpl in *.
  - now exists l.
  - destruct (sel e); [|now exists l].
    destruct (Hh e w') as (l' & Hl' & HP'). exists (l ++ l')%list.
    rewrite Hl', Hl, <- app_assoc. split; [reflexivity | now apply Forall_app].
Qed.

Lemma starts_grows {A} (c : argv) (m : M A) :
  P c -> starts_with P c m -> grows P m.
Proof.
  intros Hc H w. destruct (H w) as (l & Hl & HP). exists (c :: l).
  split; [assumption | now constructor].
Qed.

End Growth.

#[export] Hint Resolve grows_ret grows_raise grows_lift grows_raise_global
  grows_bind grows_try grows_if : grows.

Section ExecFacts.

Context {env : Env}.

Lemma throwIfBusy_busy (cmd : argv) (rc : Z) (out err : string) (w : World) :
  carries_marker (out ++ err) ->
  _throwIfBusy cmd rc out err w = (Raise (GlusterBusy cmd rc out err), w).
Proof.
  intros H. apply PyStrFacts.busy_test in H. unfold _throwIfBusy. now rewrite H.
Qed.

Lemma throwIfBusy_quiet (cmd : argv) (rc : Z) (out err : string) (w : World) :
  ~ carries_marker (out ++ err) ->
  _throwIfBusy cmd rc out err w = (Ok tt, w).
Proof.
  intros H. apply PyStrFacts.busy_test_false in H. unfold _throwIfBusy. now rewrite H.
Qed.

Lemma grows_throwIfBusy P cmd rc out err : grows P (_throwIfBusy cmd rc out err).
Proof. unfold _throwIfBusy. auto with grows. Qed.

Lemma starts_run P (cmd : argv) : starts_with P cmd (run cmd).
Proof. intros w. exists []. now split. Qed.

Lemma starts_execGluster P (cmd : argv) : starts_with P cmd (_execGluster cmd).
Proof.
  unfold _execGluster. apply starts_bind; [apply starts_run|].
  intros [[rc out] err]. auto using grows_throwIfBusy with grows.
Qed.

Lemma starts_execGlusterXml P (cmd : argv) :
  starts_with P (xml cmd) (_execGlusterXml cmd).
Proof.
  unfold _execGlusterXml. apply starts_bind; [apply starts_run|].
  intros [[rc out] err]. auto using grows_throwIfBusy with grows.
Qed.

(** what [_execGluster] and [_execGlusterXml] return, by the busy test *)
Lemma execGluster_busy (cmd : argv) (w : World) rc out err :
  execCmd cmd = (rc, out, err) ->
  carries_marker (out ++ err) ->
  _execGluster cmd w = (Raise (GlusterBusy cmd rc out err), logged cmd w).
Proof.
  intros He Hb. unfold _execGluster, bind, run. rewrite He.
  now rewrite throwIfBusy_busy.
Qed.

Lemma execGluster_quiet (cmd : argv) (w : World) rc out err :
  execCmd cmd = (rc, out, err) ->
  ~ carries_marker (out ++ err) ->
  _execGluster cmd w = (Ok (rc, out, err), logged cmd w).
Proof.
  intros He Hb. unfold _execGluster, bind, run. rewrite He.
  now rewrite throwIfBusy_quiet.
Qed.

Lemma execGlusterXml_busy (cmd : argv) (w : World) rc out err :
  execCmd (xml cmd) = (rc, out, err) ->
  carries_marker (out ++ err) ->
  _execGlusterXml cmd w
  = (Raise (GlusterBusy (xml cmd) rc out err), logged (xml cmd) w).
Proof.
  intros He Hb. unfold _execGlusterXml, bind, run. rewrite He.
  now rewrite throwIfBusy_busy.
Qed.

Lemma execGlusterXml_quiet (cmd : argv) (w : World) rc out err :
  execCmd (xml cmd) = (rc, out, err) ->
  ~ carries_marker (out ++ err) ->
  _execGlusterXml cmd w = (decode (xml cmd) out, logged (xml cmd) w).
Proof.
  intros He Hb. unfold _execGlusterXml, bind, run. rewrite He.
  now rewrite throwIfBusy_quiet.
Qed.

(** the envelope decides the outcome of [decode] *)
Lemma decode_failed (cmd : argv) (out : string) tree rv msg errNo :
  envelope out = Ok (tree, rv, msg, errNo) ->
  rv <> 0 ->
  decode cmd out = Raise (GlusterCmdFailed cmd (if errNo =? 0 then rv else errNo) msg).
Proof.
  intros He Hrv. unfold decode. rewrite He.
  destruct (Z.eqb_spec rv 0); [contradiction|].
  now destruct (errNo =? 0).
Qed.

Lemma decode_ok (cmd : argv) (out : string) tree msg errNo :
  envelope out = Ok (tree, 0, msg, errNo) ->
  decode cmd out = Ok tree.
Proof. intros He. unfold decode. now rewrite He. Qed.

End ExecFacts.

Section CallFacts.

Context {env : Env}.

(** after its first command a public function runs nothing but the query
    for the UUID of the local peer *)
Let later (c : argv) : Prop := c = uuid_get.

Lemma grows_get_peer : grows later get_peer.
Proof. now apply grows_nothing. Qed.

Lemma grows_get_peerUUID : grows later get_peerUUID.
Proof. now apply grows_nothing. Qed.

Lemma grows_set_peer ip : grows later (set_peer ip).
Proof. now apply grows_nothing. Qed.

Lemma grows_set_peerUUID u : grows later (set_peerUUID u).
Proof. now apply grows_nothing. Qed.

Hint Resolve grows_get_peer grows_get_peerUUID grows_set_peer grows_set_peerUUID
  grows_throwIfBusy : grows.

Lemma grows_getLocalPeer : grows later _getLocalPeer.
Proof.
  unfold _getLocalPeer. apply grows_bind; [auto with grows|]. intros p.
  repeat apply grows_if; auto with grows.
  destruct (first_ipaddr _); auto with grows.
Qed.

Lemma grows_getLocalPeerUUID : grows later _getLocalPeerUUID.
Proof.
  unfold _getLocalPeerUUID. apply grows_bind; [auto with grows|]. intros u.
  apply grows_if; [auto with grows|].
  apply grows_bind.
  - apply starts_grows with (c := uuid_get); [reflexivity|].
    apply starts_execGluster.
  - intros [[rc out] err]. auto 6 with grows.
Qed.

Lemma grows_mapM {A B} (f : A -> M B) (l : list A) :
  (forall a, grows later (f a)) -> grows later (mapM f l).
Proof. intros Hf. induction l; simpl; auto with grows. Qed.

Lemma grows_mapped {A} command xmltree (m : M A) :
  grows later m -> grows later (mapped command xmltree m).
Proof. intros H. unfold mapped. auto with grows. Qed.

Hint Resolve grows_getLocalPeer grows_getLocalPeerUUID grows_mapM grows_mapped
  : grows.

Lemma grows_parseVolumeStatus tree : grows later (_parseVolumeStatus tree).
Proof. unfold _parseVolumeStatus. auto 8 with grows. Qed.

Lemma grows_profile_brick key brick : grows later (profile_brick key brick).
Proof.
  unfold profile_brick. apply grows_bind; [auto with grows|]. intros n.
  apply grows_bind; [|auto with grows].
  destruct n as [s|]; [|auto with grows].
  destruct (String.eqb_spec s "localhost") as [->|Hs]; [auto with grows|].
  assert (forall (a b : M pyval), grows later b ->
            grows later match s with
                        | "localhost"%string => a
                        | _ => b
                        end) as Hm.
  { intros a b Hb.
    repeat match goal with
           | |- grows _ (match ?x with _ => _ end) =>
               is_var x; destruct x; try assumption
           | |- grows _ (if ?b then _ else _) => destruct b; try assumption
           end.
    now elim Hs. }
  apply Hm. auto with grows.
Qed.

Lemma grows_parseVolumeProfileInfo tree nfs :
  grows later (_parseVolumeProfileInfo tree nfs).
Proof.
  unfold _parseVolumeProfileInfo.
  apply grows_bind; [apply grows_mapM; apply grows_profile_brick | auto with grows].
Qed.

Hint Resolve grows_parseVolumeStatus grows_parseVolumeProfileInfo : grows.

Lemma starts_acknowledged (command : argv) :
  starts_with later (xml command) (acknowledged command).
Proof.
  unfold acknowledged. apply starts_bind; [apply starts_execGlusterXml|].
  auto with grows.
Qed.

Lemma starts_decoded (command : argv) (mapper : Element -> M pyval) :
  (forall t, grows later (mapper t)) ->
  starts_with later (xml command) (decoded command mapper).
Proof.
  intros H. unfold decoded. apply starts_bind; [apply starts_execGlusterXml|].
  auto with grows.
Qed.

(** every public function first runs the command it built: as it stands for
    the four functions that call [_execGluster], with [--xml] appended for
    all others; whatever it runs afterwards is the UUID query *)
Lemma call_starts (op : Operation) :
  starts_with (fun c => c = uuid_get)
    (if plain op then command_of op else xml (command_of op)) (call op).
Proof.
  fold later.
  destruct op; simpl;
    try apply starts_acknowledged;
    try (apply starts_decoded; intros t; unfold single;
         repeat apply grows_if; auto 8 with grows).
  - (* volumeStart *)
    unfold volumeStart. apply starts_bind; [apply starts_execGluster|]. auto with grows.
  - (* volumeSetHelpXml *)
    unfold volumeSetHelpXml. apply starts_bind; [apply starts_execGluster|].
    intros [[rc out] err]. auto with grows.
  - (* volumeReplaceBrickStatus *)
    unfold volumeReplaceBrickStatus. apply starts_bind; [apply starts_execGluster|].
    intros [[rc out] err]. destruct (PyStr.chars out); auto with grows.
  - (* peerDetach *)
    unfold peerDetach. apply starts_try; [apply starts_acknowledged|].
    intros e. destruct e; auto with grows.
  - (* volumeGeoRepConfig *)
    unfold volumeGeoRepConfig. apply starts_bind; [apply starts_execGlusterXml|].
    intros t. apply grows_if; auto with grows.
  - (* snapshotDelete *)
    unfold snapshotDelete. apply starts_bind; [apply starts_execGluster|].
    intros [[rc out] err]. auto with grows.
Qed.

End CallFacts.

Lemma skipn_length_app {A} (l l' : list A) : skipn (List.length l) (l ++ l') = l'.
Proof. induction l; simpl; auto. Qed.

Section Classification.

Context {env : Env}.

(** the command a call runs first *)
Lemma issued_first (op : Operation) (w : World) :
  exists rest,
    issued op w = (if plain op then command_of op else xml (command_of op)) :: rest
    /\ Forall (fun c => c = uuid_get) rest.
Proof.
  destruct (call_starts op w) as (rest & H & HP). exists rest.
  unfold issued. rewrite H. split; [apply skipn_length_app | assumption].
Qed.

Lemma acknowledged_raises command w e w' :
  _execGlusterXml command w = (Raise e, w') ->
  acknowledged command w = (Raise e, w').
Proof. intros H. unfold acknowledged, bind. now rewrite H. Qed.

Lemma decoded_raises command mapper w e w' :
  _execGlusterXml command w = (Raise e, w') ->
  decoded command mapper w = (Raise e, w').
Proof. intros H. unfold decoded, bind. now rewrite H. Qed.

Lemma acknowledged_busy command w rc out err :
  execCmd (xml command) = (rc, out, err) ->
  carries_marker (out ++ err) ->
  fst (acknowledged command w) = Raise (GlusterBusy (xml command) rc out err).
Proof.
  intros He Hb. erewrite acknowledged_raises; [reflexivity|].
  now apply execGlusterXml_busy.
Qed.

Lemma decoded_busy command mapper w rc out err :
  execCmd (xml command) = (rc, out, err) ->
  carries_marker (out ++ err) ->
  fst (decoded command mapper w) = Raise (GlusterBusy (xml command) rc out err).
Proof.
  intros He Hb. erewrite decoded_raises; [reflexivity|].
  now apply execGlusterXml_busy.
Qed.

(** a busy tool makes every public function fail with [GlusterBusy] *)
Lemma call_busy (op : Operation) (w : World) rc out err :
  let c := if plain op then command_of op else xml (command_of op) in
  execCmd c = (rc, out, err) ->
  carries_marker (out ++ err) ->
  fst (call op w) = Raise (GlusterBusy c rc out err).
Proof.
  intros c He Hb. subst c.
  destruct op; cbn [call plain listed_plain command_of] in *;
    try (now apply acknowledged_busy);
    try (now apply decoded_busy).
  - unfold volumeStart, bind. now rewrite (execGluster_busy _ w He Hb).
  - unfold volumeSetHelpXml, bind. now rewrite (execGluster_busy _ w He Hb).
  - unfold volumeReplaceBrickStatus, bind. now rewrite (execGluster_busy _ w He Hb).
  - unfold peerDetach, try_except.
    pose proof (execGlusterXml_busy _ w He Hb) as Hx.
    apply acknowledged_raises in Hx. now rewrite Hx.
  - unfold volumeGeoRepConfig, bind. now rewrite (execGlusterXml_busy _ w He Hb).
  - unfold snapshotDelete, bind. now rewrite (execGluster_busy _ w He Hb).
Qed.

End Classification.

(** ** C1: the busy check comes first *)

(** C1. Whenever the concatenation of standard output and standard error
    carries the marker "another transaction is in progress" in any mix of
    case, the execution fails with [GlusterBusy], holding the exit code and
    both streams.  This holds for every exit code [rc] and for every XML
    parser of the environment, so nothing the decoding of the envelope could
    say changes the outcome; it holds for [_execGluster], for
    [_execGlusterXml] and for every public function. *)
Theorem busy_precedes_decoding (env : Env) (cmd : argv) (op : Operation) (w : World)
    (rc : Z) (out err : string) :
  carries_marker (out ++ err) ->
  (execCmd cmd = (rc, out, err) ->
   fst (_execGluster cmd w) = Raise (GlusterBusy cmd rc out err))
  /\ (execCmd (xml cmd) = (rc, out, err) ->
      fst (_execGlusterXml cmd w) = Raise (GlusterBusy (xml cmd) rc out err))
  /\ (let c := if plain op then command_of op else xml (command_of op) in
      execCmd c = (rc, out, err) ->
      fst (call op w) = Raise (GlusterBusy c rc out err)).
Proof.
  intros Hb. repeat split.
  - intros He. now rewrite (execGluster_busy _ w He Hb).
  - intros He. now rewrite (execGlusterXml_busy _ w He Hb).
  - intros c He. now apply call_busy.
Qed.

Lemma busy_precedes_decoding_witness :
  let env := example_env (always 0 busy_success_output "") in
  let cmd := ["/usr/sbin/gluster"; "--mode=script"; "volume"; "stop"; "vol0"] in
  envelope busy_success_output
  = Ok (Elem "cliOutput" None
          [Elem "opRet" (Some "0") []; Elem "opErrno" (Some "0") [];
           Elem "opErrstr"
             (Some "Another Transaction is in progress. Please try again after sometime.") []],
        0, Some "Another Transaction is in progress. Please try again after sometime.", 0)
  /\ fst (_execGlusterXml cmd initial)
     = Raise (GlusterBusy (xml cmd) 0 busy_success_output "")
  /\ fst (call (OpVolumeStop "vol0" false) initial)
     = Raise (GlusterBusy (xml cmd) 0 busy_success_output "").
Proof.
  intros env cmd.
  assert (carries_marker (busy_success_output ++ "")) as Hb.
  { exists "<cliOutput><opRet>0</opRet><opErrno>0</opErrno><opErrstr>",
           "Another Transaction is in progress",
           ". Please try again after sometime.</opErrstr></cliOutput>".
    split; reflexivity. }
  split; [reflexivity|].
  pose proof (@busy_precedes_decoding env cmd (OpVolumeStop "vol0" false) initial
                0 busy_success_output "" Hb) as (_ & Hx & Hc).
  split; [apply Hx; reflexivity | apply Hc; reflexivity].
Defined.

(** ** C2: the failure code of a failed envelope *)

(** C2, as stated, fails: an envelope that parses with outcome code -1 and
    whose message is the busy marker makes the call fail with [GlusterBusy],
    not with [GlusterCmdFailed]. *)
Lemma failed_envelope_counterexample :
  ~ (forall (env : Env) (cmd : argv) (w : World) rc out err tree rv msg errNo,
        execCmd (xml cmd) = (rc, out, err) ->
        envelope out = Ok (tree, rv, msg, errNo) ->
        rv <> 0 ->
        fst (_execGlusterXml cmd w)
        = Raise (GlusterCmdFailed (xml cmd) (if errNo =? 0 then rv else errNo) msg)).
Proof.
  intros H.
  specialize (H (example_env (always 1 busy_failure_output "")) ["gluster"] initial
                1 busy_failure_output ""
                (Elem "cliOutput" None
                   [Elem "opRet" (Some "-1") []; Elem "opErrno" (Some "0") [];
                    Elem "opErrstr"
                      (Some "Another transaction is in progress. Please try again after sometime.") []])
                (-1)
                (Some "Another transaction is in progress. Please try again after sometime.")
                0 eq_refl eq_refl).
  assert (-1 <> 0) as Hne by lia.
  specialize (H Hne). vm_compute in H. discriminate H.
Qed.

(** C2 (amended). When the output does not carry the busy marker and the
    envelope parses with a non-zero outcome code, the call fails with
    [GlusterCmdFailed]; its code is the detailed error code [opErrno] when
    that is non-zero and the outcome code [opRet] otherwise, and it carries
    the message [opErrstr] of the envelope. *)
Theorem failed_envelope_code (env : Env) (cmd : argv) (w : World)
    rc out err tree rv msg errNo :
  execCmd (xml cmd) = (rc, out, err) ->
  ~ carries_marker (out ++ err) ->
  envelope out = Ok (tree, rv, msg, errNo) ->
  rv <> 0 ->
  fst (_execGlusterXml cmd w)
  = Raise (GlusterCmdFailed (xml cmd) (if errNo =? 0 then rv else errNo) msg).
Proof.
  intros He Hq Henv Hrv.
  rewrite (execGlusterXml_quiet _ w He Hq). simpl.
  now apply decode_failed with (tree := tree).
Qed.

Lemma failed_envelope_code_witness :
  let env := example_env (always 2 missing_volume_output "") in
  let cmd := ["/usr/sbin/gluster"; "--mode=script"; "volume"; "stop"; "vol0"] in
  fst (_execGlusterXml cmd initial)
  = Raise (GlusterCmdFailed (xml cmd) 2 (Some "volume does not exist")).
Proof.
  intros env cmd.
  apply (@failed_envelope_code env cmd initial 2 missing_volume_output ""
           (Elem "cliOutput" None
              [Elem "opRet" (Some "2") []; Elem "opErrno" (Some "0") [];
               Elem "opErrstr" (Some "volume does not exist") []])
           2 (Some "volume does not exist") 0).
  - reflexivity.
  - apply PyStrFacts.busy_test_false. reflexivity.
  - reflexivity.
  - lia.
Defined.

(** ** C4: failures that are not reported *)

(** C4. [volumeStart] returns [True] whatever exit code the tool reports, as
    long as the output does not carry the busy marker: the failure of the
    command is dropped. *)
Theorem volumeStart_ignores_failure (env : Env) (volumeName : string) (force : bool)
    (w : World) rc out err :
  execCmd (volumeStart_command volumeName force) = (rc, out, err) ->
  ~ carries_marker (out ++ err) ->
  fst (volumeStart volumeName force w) = Ok (PBool true).
Proof.
  intros He Hq. unfold volumeStart, bind.
  now rewrite (execGluster_quiet _ w He Hq).
Qed.

Lemma volumeStart_ignores_failure_witness :
  let env := example_env (always 1 "" "volume start: vol0: failed: Volume vol0 does not exist") in
  fst (call (OpVolumeStart "vol0" false) initial) = Ok (PBool true).
Proof.
  intros env.
  apply (@volumeStart_ignores_failure env "vol0" false initial 1 ""
           "volume start: vol0: failed: Volume vol0 does not exist").
  - reflexivity.
  - apply PyStrFacts.busy_test_false. reflexivity.
Defined.

(** [snapshotDelete] drops the exit code in the same way *)
Lemma snapshotDelete_ignores_failure (env : Env) volumeName snapName (w : World)
    rc out err :
  execCmd (snapshotDelete_command volumeName snapName) = (rc, out, err) ->
  ~ carries_marker (out ++ err) ->
  fst (snapshotDelete volumeName snapName w) = Ok (PBool true).
Proof.
  intros He Hq. unfold snapshotDelete, bind.
  now rewrite (execGluster_quiet _ w He Hq).
Qed.

(** more generally, none of the four functions that call [_execGluster]
    reports a failed command: unless the tool is busy, the exit code plays
    no part in the result, and no documented failure is raised *)
Lemma plain_reports_nothing (env : Env) (op : Operation) (w : World) rc out err :
  plain op = true ->
  execCmd (command_of op) = (rc, out, err) ->
  ~ carries_marker (out ++ err) ->
  match fst (call op w) with
  | Raise e => typed_failure e = false
  | Ok _ => True
  end.
Proof.
  intros Hp He Hq.
  destruct op; try discriminate Hp; cbn [call command_of] in *.
  - unfold volumeStart, bind. now rewrite (execGluster_quiet _ w He Hq).
  - unfold volumeSetHelpXml, bind. rewrite (execGluster_quiet _ w He Hq).
    unfold _parseVolumeSetHelpXml, lift. cbn. now destruct (fromstring out).
  - unfold volumeReplaceBrickStatus, bind. rewrite (execGluster_quiet _ w He Hq).
    now destruct (PyStr.chars out).
  - unfold snapshotDelete, bind. now rewrite (execGluster_quiet _ w He Hq).
Qed.

(** the sibling [volumeStop] reports the same failure when the daemon sends
    it in an envelope *)
Lemma volumeStop_reports_failure (env : Env) volumeName force (w : World)
    rc out err tree rv msg errNo :
  execCmd (xml (volumeStop_command volumeName force)) = (rc, out, err) ->
  ~ carries_marker (out ++ err) ->
  envelope out = Ok (tree, rv, msg, errNo) ->
  rv <> 0 ->
  fst (volumeStop volumeName force w)
  = Raise (GlusterCmdFailed (xml (volumeStop_command volumeName force))
             (if errNo =? 0 then rv else errNo) msg).
Proof.
  intros He Hq Henv Hrv. unfold volumeStop, acknowledged, bind.
  rewrite (execGlusterXml_quiet _ w He Hq).
  now rewrite (decode_failed _ _ Henv Hrv).
Qed.

(** ** C5: peer detach and failure code 2 *)

(** what [peerDetach] does with a failed envelope *)
Lemma peerDetach_failed (env : Env) hostName force (w : World)
    rc out err tree rv msg errNo :
  execCmd (xml (peerDetach_command hostName force)) = (rc, out, err) ->
  ~ carries_marker (out ++ err) ->
  envelope out = Ok (tree, rv, msg, errNo) ->
  rv <> 0 ->
  let code := if errNo =? 0 then rv else errNo in
  fst (peerDetach hostName force w)
  = if code =? 2 then Raise (NameError "GlusterPeerNotFound")
    else Raise (GlusterCmdFailed (xml (peerDetach_command hostName force)) code msg).
Proof.
  intros He Hq Henv Hrv code. unfold peerDetach, try_except, acknowledged, bind.
  rewrite (execGlusterXml_quiet _ w He Hq).
  rewrite (decode_failed _ _ Henv Hrv). fold code.
  now destruct (code =? 2).
Qed.

(** C5. A peer detach that fails with effective code 2 does not raise the
    peer-not-found error: the handler evaluates the name
    [GlusterPeerNotFound], which the module never binds, and the caller gets
    a [NameError].  Every other non-zero code leaves as the
    [GlusterCmdFailed] it was. *)
Theorem peerDetach_code_2 (env : Env) hostName force (w : World)
    rc out err tree rv msg errNo :
  execCmd (xml (peerDetach_command hostName force)) = (rc, out, err) ->
  ~ carries_marker (out ++ err) ->
  envelope out = Ok (tree, rv, msg, errNo) ->
  rv <> 0 ->
  let code := if errNo =? 0 then rv else errNo in
  (code = 2 ->
   fst (peerDetach hostName force w) = Raise (NameError "GlusterPeerNotFound"))
  /\ (code <> 2 ->
      fst (peerDetach hostName force w)
      = Raise (GlusterCmdFailed (xml (peerDetach_command hostName force)) code msg)).
Proof.
  intros He Hq Henv Hrv code.
  pose proof (@peerDetach_failed env hostName force w rc out err tree rv msg errNo
                He Hq Henv Hrv) as H.
  cbv zeta in H. fold code in H. rewrite H. split; intros Hc.
  - now rewrite Hc.
  - destruct (Z.eqb_spec code 2); [contradiction | reflexivity].
Qed.

Lemma peerDetach_code_2_witness :
  let env := example_env (always 1 no_such_peer_output "") in
  fst (call (OpPeerDetach "host9" false) initial)
  = Raise (NameError "GlusterPeerNotFound").
Proof.
  intros env.
  refine (proj1 (@peerDetach_code_2 env "host9" false initial 1 no_such_peer_output ""
                   (Elem "cliOutput" None
                      [Elem "opRet" (Some "-1") []; Elem "opErrno" (Some "2") [];
                       Elem "opErrstr" (Some "host9 is not part of cluster") []])
                   (-1) (Some "host9 is not part of cluster") 2 _ _ _ _) _).
  - reflexivity.
  - apply PyStrFacts.busy_test_false. reflexivity.
  - reflexivity.
  - lia.
  - reflexivity.
Defined.

(** ** C3: which functions ask for XML output *)

(** C3, as stated, fails: [volumeStart] is none of the three listed
    functions, and the command it runs does not end in [--xml]. *)
Lemma xml_flag_counterexample :
  ~ (forall (env : Env) (op : Operation) (w : World),
        hd_error (issued op w)
        = Some (if listed_plain op then command_of op else xml (command_of op))).
Proof.
  intros H.
  specialize (H (example_env (always 0 "volume start: vol0: success" ""))
                (OpVolumeStart "vol0" false) initial).
  vm_compute in H. discriminate H.
Qed.

(** C3 (amended). Every public function first runs the command it built
    with [--xml] appended, with exactly four exceptions: volume start, the
    volume-set help listing, snapshot delete and replace-brick status run
    the command as built.  Whatever a function runs after that is the query
    for the UUID of the local peer, [system:: uuid get], which has no
    [--xml] either. *)
Theorem xml_flag_appended (env : Env) (op : Operation) (w : World) :
  hd_error (issued op w)
  = Some (if plain op then command_of op else xml (command_of op))
  /\ Forall (fun c => c = uuid_get) (tl (issued op w)).
Proof.
  destruct (issued_first op w) as (rest & H & HP). rewrite H. now split.
Qed.

(** the four exceptions, spelled out *)
Lemma plain_cases (op : Operation) :
  plain op = true <->
  (exists v f, op = OpVolumeStart v f)
  \/ op = OpVolumeSetHelpXml
  \/ (exists v s, op = OpSnapshotDelete v s)
  \/ (exists v e n, op = OpVolumeReplaceBrickStatus v e n).
Proof.
  split.
  - destruct op; simpl; try discriminate; intros _;
      first [ left; solve [repeat eexists]
            | right; left; reflexivity
            | right; right; left; solve [repeat eexists]
            | right; right; right; solve [repeat eexists] ].
  - intros [(v & f & ->) | [-> | [(v & s & ->) | (v & e & n & ->)]]]; reflexivity.
Qed.

(** ** C7 and C10: replace-brick status *)

(** X18. The markers of a replace-brick status line are tried in this
    order: PAUSED anywhere in the line, then MIGRATION COMPLETE at its end,
    then NUMBER OF FILES MIGRATED at its start, then UNKNOWN at its end; a
    line that matches none is NA. *)
Lemma stat_line_status_order (statLine : string) :
  (occurs_in "PAUSED" statLine -> stat_line_status statLine = "PAUSED")
  /\ (~ occurs_in "PAUSED" statLine -> ends_with "MIGRATION COMPLETE" statLine ->
      stat_line_status statLine = "COMPLETED")
  /\ (~ occurs_in "PAUSED" statLine -> ~ ends_with "MIGRATION COMPLETE" statLine ->
      PyStr.startswith "NUMBER OF FILES MIGRATED" statLine = true ->
      stat_line_status statLine = "RUNNING")
  /\ (~ occurs_in "PAUSED" statLine -> ~ ends_with "MIGRATION COMPLETE" statLine ->
      PyStr.startswith "NUMBER OF FILES MIGRATED" statLine = false ->
      ends_with "UNKNOWN" statLine ->
      stat_line_status statLine = "UNKNOWN")
  /\ (~ occurs_in "PAUSED" statLine -> ~ ends_with "MIGRATION COMPLETE" statLine ->
      PyStr.startswith "NUMBER OF FILES MIGRATED" statLine = false ->
      ~ ends_with "UNKNOWN" statLine ->
      stat_line_status statLine = "NA").
Proof.
  unfold stat_line_status, BrickStatus.PAUSED.
  rewrite <- !PyStrFacts.contains_spec, <- !PyStrFacts.endswith_spec.
  destruct (PyStr.contains "PAUSED" statLine),
           (PyStr.endswith "MIGRATION COMPLETE" statLine),
           (PyStr.startswith "NUMBER OF FILES MIGRATED" statLine),
           (PyStr.endswith "UNKNOWN" statLine);
    repeat split; intros; try reflexivity; try congruence;
    exfalso; auto.
Qed.

(** a single character matches none of the markers *)
Lemma stat_line_status_char (c : ascii) :
  stat_line_status (PyStr.upper (PyStr.strip (String c ""))) = "NA".
Proof.
  unfold PyStr.strip. cbn [PyStr.lstrip].
  destruct (PyStr.is_space c) eqn:Hs.
  - reflexivity.
  - cbn. rewrite Hs. cbn.
    unfold stat_line_status, PyStr.endswith. cbn.
    now rewrite !andb_false_r.
Qed.

(** what [volumeReplaceBrickStatus] returns when the tool is not busy: the
    message is the output with a newline between any two characters, and
    the status is computed from the first character alone *)
Lemma replaceBrickStatus_quiet (env : Env) volumeName existingBrick newBrick
    (w : World) rc out err :
  execCmd (volumeReplaceBrickStatus_command volumeName existingBrick newBrick)
  = (rc, out, err) ->
  ~ carries_marker (out ++ err) ->
  fst (volumeReplaceBrickStatus volumeName existingBrick newBrick w)
  = match out with
    | EmptyString => Raise IndexError
    | _ => Ok (PTuple [PStr "NA"; PStr (PyStr.join PyStr.newline (PyStr.chars out))])
    end.
Proof.
  intros He Hq. unfold volumeReplaceBrickStatus, bind.
  rewrite (execGluster_quiet _ w He Hq).
  destruct out as [|c out]; [reflexivity|].
  cbn [PyStr.chars]. cbv beta iota. unfold ret. cbn [fst].
  now rewrite stat_line_status_char.
Qed.

(** C7. The markers are tried in the documented order, but on the first
    character of the output, not on its first line: an output line that
    contains PAUSED and ends in MIGRATION COMPLETE gives NA, as does every
    other non-empty output. *)
Theorem replaceBrickStatus_is_NA (env : Env) volumeName existingBrick newBrick
    (w : World) rc out err :
  execCmd (volumeReplaceBrickStatus_command volumeName existingBrick newBrick)
  = (rc, out, err) ->
  ~ carries_marker (out ++ err) ->
  out <> "" ->
  fst (volumeReplaceBrickStatus volumeName existingBrick newBrick w)
  = Ok (PTuple [PStr "NA"; PStr (PyStr.join PyStr.newline (PyStr.chars out))]).
Proof.
  intros He Hq Hne.
  rewrite (@replaceBrickStatus_quiet env volumeName existingBrick newBrick w
             rc out err He Hq).
  destruct out; [contradiction | reflexivity].
Qed.

Lemma replaceBrickStatus_is_NA_witness :
  let env := example_env (always 0 paused_and_complete "") in
  let statLine := PyStr.upper (PyStr.strip paused_and_complete) in
  PyStr.contains "PAUSED" statLine = true
  /\ PyStr.endswith "MIGRATION COMPLETE" statLine = true
  /\ stat_line_status statLine = "PAUSED"
  /\ exists message,
       fst (call (OpVolumeReplaceBrickStatus "vol0" "host1:/b1" "host2:/b2") initial)
       = Ok (PTuple [PStr "NA"; PStr message]).
Proof.
  intros env statLine. repeat split.
  eexists.
  apply (@replaceBrickStatus_is_NA env "vol0" "host1:/b1" "host2:/b2" initial
           0 paused_and_complete "").
  - reflexivity.
  - apply PyStrFacts.busy_test_false. reflexivity.
  - discriminate.
Defined.

(** C10, as stated, fails: with an empty output and the busy marker on
    standard error the function fails with [GlusterBusy]. *)
Lemma empty_output_counterexample :
  ~ (forall (env : Env) volumeName existingBrick newBrick (w : World) rc err,
        execCmd (volumeReplaceBrickStatus_command volumeName existingBrick newBrick)
        = (rc, "", err) ->
        fst (volumeReplaceBrickStatus volumeName existingBrick newBrick w)
        = Raise IndexError).
Proof.
  intros H.
  specialize (H (example_env (always 1 "" "Another transaction is in progress."))
                "vol0" "host1:/b1" "host2:/b2" initial 1
                "Another transaction is in progress." eq_refl).
  vm_compute in H. discriminate H.
Qed.

(** C10 (amended). When the standard output of the replace-brick status
    command is empty and standard error does not carry the busy marker,
    [volumeReplaceBrickStatus] raises [IndexError]: neither one of the
    documented failures nor a status. *)
Theorem empty_output_IndexError (env : Env) volumeName existingBrick newBrick
    (w : World) rc err :
  execCmd (volumeReplaceBrickStatus_command volumeName existingBrick newBrick)
  = (rc, "", err) ->
  ~ carries_marker err ->
  fst (volumeReplaceBrickStatus volumeName existingBrick newBrick w) = Raise IndexError
  /\ typed_failure IndexError = false.
Proof.
  intros He Hq. split; [|reflexivity].
  now rewrite (@replaceBrickStatus_quiet env volumeName existingBrick newBrick w
                 rc "" err He Hq).
Qed.

Lemma empty_output_IndexError_witness :
  let env := example_env (always 0 "" "") in
  fst (call (OpVolumeReplaceBrickStatus "vol0" "host1:/b1" "host2:/b2") initial)
  = Raise IndexError.
Proof.
  intros env.
  refine (proj1 (@empty_output_IndexError env "vol0" "host1:/b1" "host2:/b2" initial
                   0 "" _ _)).
  - reflexivity.
  - apply (proj1 (PyStrFacts.busy_test_false "")). reflexivity.
Defined.

(** ** Facts about the volume-info mapper *)

Lemma rbind_ok {A B} (r : result A) (k : A -> result B) (b : B) :
  rbind r k = Ok b -> exists a, r = Ok a /\ k a = Ok b.
Proof. destruct r as [a|e]; simpl; [now exists a | discriminate]. Qed.

Ltac rbinds H :=
  repeat (let a := fresh "a" in
          let Ha := fresh "Ha" in
          apply rbind_ok in H as (a & Ha & H)).

(** the fields of a decoded volume that the properties speak about *)
Lemma volume_entry_fields (el : Element) k value :
  volume_entry el = Ok (k, PDict value) ->
  exists count transport,
    ftext "brickCount" el = Ok count
    /\ ftext "transport" el = Ok transport
    /\ dict_get (Some "brickCount") value = Some (PText count)
    /\ dict_get (Some "transportType") value
       = Some (PList (List.map PStr (transport_types transport)))
    /\ dict_get (Some "bricks") value
       = Some (PList (List.map (fun b => PText (text b)) (findall "bricks/brick" el))).
Proof.
  intros H. unfold volume_entry in H. rbinds H.
  injection H as _ <-. eauto 10.
Qed.

Lemma dict_set_In {V} (k k0 : option string) (v v0 : V) d :
  In (k, v) (dict_set k0 v0 d) -> (k, v) = (k0, v0) \/ In (k, v) d.
Proof.
  induction d as [|[k' v'] d IH]; simpl.
  - intros [H|[]]. now left.
  - destruct (key_eqb k0 k'); simpl.
    + intros [H|H]; [now left | right; now right].
    + intros [H|H]; [right; now left|].
      destruct (IH H) as [H'|H']; [now left | right; now right].
Qed.

Lemma set_all_In {V} (x : option string * V) kvs d :
  In x (set_all kvs d) -> In x kvs \/ In x d.
Proof.
  unfold set_all. revert d. induction kvs as [|[k0 v0] kvs IH]; intros d; simpl.
  - now right.
  - intros H. destruct (IH _ H) as [H'|H']; [left; now right|].
    destruct x as [k v]. apply dict_set_In in H' as [H'|H'].
    + left. left. now symmetry.
    + now right.
Qed.

Lemma mapR_In {A B} (f : A -> result B) (l : list A) (bs : list B) (b : B) :
  mapR f l = Ok bs -> In b bs -> exists a, In a l /\ f a = Ok b.
Proof.
  revert bs. induction l as [|a l IH]; intros bs H Hin; simpl in H.
  - injection H as <-. destruct Hin.
  - rbinds H. injection H as <-. destruct Hin as [<-|Hin].
    + exists a. split; [now left | assumption].
    + destruct (IH _ Ha0 Hin) as (a' & Ha' & Hf). exists a'. split; [now right | assumption].
Qed.

(** every entry of the result of [_parseVolumeInfo] is the entry of one
    [volume] element of the response *)
Lemma parseVolumeInfo_entries (tree : Element) volumes k v :
  _parseVolumeInfo tree = Ok (PDict volumes) ->
  In (k, v) volumes ->
  exists el, In el (findall "volInfo/volumes/volume" tree)
             /\ volume_entry el = Ok (k, v).
Proof.
  intros H Hin. unfold _parseVolumeInfo in H. rbinds H. injection H as <-.
  apply set_all_In in Hin as [Hin|[]].
  eapply mapR_In; eassumption.
Qed.

(** ** C8: the transport code of a volume *)

(** C8. The decode of the [transport] field is a total function of its
    text: "0" gives [TCP] alone, "1" gives [RDMA] alone, and every other
    string gives both, [TCP] then [RDMA]; this is the [transportType] of
    every volume in the result of [_parseVolumeInfo]. *)
Theorem transport_decode_total :
  (forall s : string,
      transport_types (Some s)
      = if String.eqb s "0" then ["TCP"]
        else if String.eqb s "1" then ["RDMA"]
        else ["TCP"; "RDMA"])
  /\ (forall (tree : Element) volumes k v,
         _parseVolumeInfo tree = Ok (PDict volumes) ->
         In (k, v) volumes ->
         exists el value t,
           In el (findall "volInfo/volumes/volume" tree)
           /\ v = PDict value
           /\ ftext "transport" el = Ok t
           /\ dict_get (Some "transportType") value
              = Some (PList (List.map PStr (transport_types t)))).
Proof.
  split.
  - intros s.
    destruct (String.eqb_spec s "0") as [->|H0]; [reflexivity|].
    destruct (String.eqb_spec s "1") as [->|H1]; [reflexivity|].
    unfold transport_types.
    repeat match goal with
           | |- context [match ?x with _ => _ end] =>
               is_var x; destruct x; try reflexivity
           | |- context [if ?b then _ else _] => destruct b; try reflexivity
           end; congruence.
  - intros tree volumes k v H Hin.
    destruct (@parseVolumeInfo_entries tree volumes k v H Hin) as (el & Hel & He).
    assert (exists value, v = PDict value) as [value ->].
    { unfold volume_entry in He. rbinds He. injection He as _ <-. eauto. }
    destruct (volume_entry_fields el He) as (count & t & _ & Ht & _ & Hv & _).
    now exists el, value, t.
Qed.

Lemma transport_decode_total_witness :
  let v := match _parseVolumeInfo one_brick_info with
           | Ok (PDict [(_, v)]) => v
           | _ => PNone
           end in
  exists el value t,
    In el (findall "volInfo/volumes/volume" one_brick_info)
    /\ v = PDict value
    /\ ftext "transport" el = Ok t
    /\ dict_get (Some "transportType") value
       = Some (PList (List.map PStr (transport_types t))).
Proof.
  intros v.
  apply (proj2 transport_decode_total one_brick_info [(Some "vol0", v)] (Some "vol0") v).
  - reflexivity.
  - left. reflexivity.
Defined.

Example transport_example :
  match _parseVolumeInfo one_brick_info with
  | Ok (PDict [(_, PDict value)]) => dict_get (Some "transportType") value
  | _ => None
  end = Some (PList [PStr "TCP"; PStr "RDMA"]).
Proof. reflexivity. Qed.

(** ** C9: status tokens *)

Lemma upper_char_normal (c : ascii) :
  normal_char c = true ->
  PyStr.upper_char c = c
  /\ (if Ascii.eqb c " " then "_"%char else c) = c
  /\ (if Ascii.eqb c "-" then "_"%char else c) = c.
Proof.
  unfold normal_char, PyStr.upper_char. intros H.
  apply andb_true_iff in H as [H H3]. apply andb_true_iff in H as [H1 H2].
  apply negb_true_iff in H1, H2, H3. now rewrite H1, H2, H3.
Qed.

Lemma token_char_normal (c : ascii) :
  let blank x := if Ascii.eqb x " " then "_"%char else x in
  let hyphen x := if Ascii.eqb x "-" then "_"%char else x in
  normal_char (PyStr.upper_char (hyphen (blank c))) = true
  /\ normal_char (blank (hyphen (PyStr.upper_char c))) = true.
Proof.
  destruct c as [[] [] [] [] [] [] [] []]; split; reflexivity.
Qed.

Lemma tokens_normalized (s : string) :
  normalized (status_token s) = true /\ normalized (task_token s) = true.
Proof.
  unfold status_token, task_token, PyStr.upper, PyStr.replace.
  induction s as [|c s [IH1 IH2]]; [split; reflexivity|].
  destruct (token_char_normal c) as [H1 H2]. cbv zeta in H1, H2.
  cbn [PyStr.map normalized]. now rewrite H1, H2, IH1, IH2.
Qed.

Lemma token_fixed (t : string) :
  normalized t = true ->
  status_token t = t /\ task_token t = t.
Proof.
  unfold status_token, task_token, PyStr.upper, PyStr.replace.
  induction t as [|c t IH]; intros H; [split; reflexivity|].
  cbn [normalized] in H. apply andb_true_iff in H as [Hc Ht].
  destruct (IH Ht) as [IH1 IH2].
  destruct (upper_char_normal c Hc) as (Hu & Hb & Hh).
  simpl. rewrite IH1, IH2.
  rewrite Hb, Hh, Hu, Hh, Hb. now split.
Qed.

(** C9. Normalising a token that is already in normal form (no lower-case
    letter, no blank, no hyphen) gives the token back, and every result of
    the normalisation is in normal form: the normalisation is idempotent.
    This holds for the normalisation of the rebalance and remove-brick
    status and for the one of the task type and task status. *)
Theorem token_normal_fixed (t : string) :
  (normalized t = true -> status_token t = t /\ task_token t = t)
  /\ status_token (status_token t) = status_token t
  /\ task_token (task_token t) = task_token t.
Proof.
  destruct (tokens_normalized t) as [H1 H2].
  split; [exact (token_fixed t)|].
  split.
  - exact (proj1 (token_fixed _ H1)).
  - exact (proj2 (token_fixed _ H2)).
Qed.

Lemma token_normal_fixed_witness :
  normalized "IN_PROGRESS" = true
  /\ status_token "IN_PROGRESS" = "IN_PROGRESS"
  /\ task_token "IN_PROGRESS" = "IN_PROGRESS".
Proof.
  split; [reflexivity|].
  apply (proj1 (token_normal_fixed "IN_PROGRESS")). reflexivity.
Defined.

Example token_examples :
  status_token "in progress" = "IN_PROGRESS"
  /\ task_token "Replace-brick" = "REPLACE_BRICK"
  /\ status_token "not-started" = "NOT_STARTED".
Proof. repeat split. Qed.

(** ** C6: bricks and brick count of a decoded volume *)

(** C6, as stated, fails: for a response whose [brickCount] field says 3
    and that lists one brick, the decoded volume has one brick and the brick
    count "3". *)
Lemma brick_count_counterexample :
  ~ (forall (tree : Element) volumes,
        _parseVolumeInfo tree = Ok (PDict volumes) ->
        forall k value, In (k, PDict value) volumes -> count_matches value).
Proof.
  intros H.
  destruct (H one_brick_info _ eq_refl (Some "vol0") _ (or_introl eq_refl))
    as (bricks & n & Hb & Hn & Hc).
  vm_compute in Hb. injection Hb as <-.
  vm_compute in Hn. injection Hn as <-.
  vm_compute in Hc. discriminate Hc.
Qed.

(** C6 (amended). For every volume of a volume-info result, [bricks] has
    one entry per [brick] element that the response lists for the volume,
    and [brickCount] is the text of the [brickCount] element of the
    response, copied as it is.  So the length of [bricks] equals the brick
    count exactly when the count field of the response is the number of
    brick elements it lists. *)
Theorem bricks_as_listed (tree : Element) volumes k v :
  _parseVolumeInfo tree = Ok (PDict volumes) ->
  In (k, v) volumes ->
  exists el value count,
    In el (findall "volInfo/volumes/volume" tree)
    /\ v = PDict value
    /\ dict_get (Some "bricks") value
       = Some (PList (List.map (fun b => PText (text b)) (findall "bricks/brick" el)))
    /\ ftext "brickCount" el = Ok count
    /\ dict_get (Some "brickCount") value = Some (PText count)
    /\ (count_matches value <->
        exists n, count = Some n
                  /\ PyStr.to_int n
                     = Some (Z.of_nat (List.length (findall "bricks/brick" el)))).
Proof.
  intros H Hin.
  destruct (@parseVolumeInfo_entries tree volumes k v H Hin) as (el & Hel & He).
  assert (exists value, v = PDict value) as [value ->].
  { unfold volume_entry in He. rbinds He. injection He as _ <-. eauto. }
  destruct (volume_entry_fields el He) as (count & t & Hc & _ & Hdc & _ & Hdb).
  exists el, value, count. repeat split; try assumption.
  - intros (bricks & n & Hb & Hn & Hm).
    rewrite Hdb in Hb. injection Hb as <-.
    rewrite Hdc in Hn. destruct count as [c|]; [|discriminate].
    injection Hn as ->. exists n. split; [reflexivity|].
    now rewrite length_map in Hm.
  - intros (n & -> & Hm). eexists _, n. repeat split; try eassumption.
    now rewrite length_map.
Qed.

Lemma bricks_as_listed_witness :
  let v := match _parseVolumeInfo one_brick_info with
           | Ok (PDict [(_, v)]) => v
           | _ => PNone
           end in
  _parseVolumeInfo one_brick_info = Ok (PDict [(Some "vol0", v)])
  /\ exists el value count,
       In el (findall "volInfo/volumes/volume" one_brick_info)
       /\ v = PDict value
       /\ dict_get (Some "bricks") value
          = Some (PList (List.map (fun b => PText (text b)) (findall "bricks/brick" el)))
       /\ ftext "brickCount" el = Ok count
       /\ dict_get (Some "brickCount") value = Some (PText count)
       /\ (count_matches value <->
           exists n, count = Some n
                     /\ PyStr.to_int n
                        = Some (Z.of_nat (List.length (findall "bricks/brick" el)))).
Proof.
  intros v. split; [reflexivity|].
  apply (@bricks_as_listed one_brick_info [(Some "vol0", v)] (Some "vol0") v).
  - reflexivity.
  - left. reflexivity.
Defined.

(** ** Further properties: the outcomes of [_execGlusterXml] *)

Section Outcomes.

Context {env : Env}.

Lemma py_int_raises (x : option string) (e : exn) :
  py_int x = Raise e -> e = TypeError \/ e = ValueError.
Proof.
  unfold py_int. destruct x as [s|]; [|intros [= <-]; now left].
  destruct (int_of_string s); [discriminate | intros [= <-]; now right].
Qed.

Lemma text_of_raises (x : option Element) (e : exn) :
  text_of x = Raise e -> e = AttributeError.
Proof. destruct x; simpl; [discriminate | now intros [= <-]]. Qed.

(** the four exceptions the body of the [try] can raise *)
Lemma envelope_raises (out : string) (e : exn) :
  envelope out = Raise e ->
  e = ParseError \/ e = AttributeError \/ e = ValueError \/ e = TypeError.
Proof.
  unfold envelope. destruct (fromstring out) as [tree|]; simpl;
    [|intros [= <-]; now left].
  destruct (text_of (find "opRet" tree)) as [r|e1] eqn:H1; simpl;
    [|intros [= <-]; apply text_of_raises in H1; auto].
  destruct (py_int r) as [rv|e2] eqn:H2; simpl;
    [|intros [= <-]; apply py_int_raises in H2 as [->| ->]; auto].
  destruct (text_of (find "opErrstr" tree)) as [msg|e3] eqn:H3; simpl;
    [|intros [= <-]; apply text_of_raises in H3; auto].
  destruct (text_of (find "opErrno" tree)) as [n|e4] eqn:H4; simpl;
    [|intros [= <-]; apply text_of_raises in H4; auto].
  destruct (py_int n) as [errNo|e5] eqn:H5; simpl;
    [discriminate | intros [= <-]; apply py_int_raises in H5 as [->| ->]; auto].
Qed.

Lemma envelope_tree (out : string) tree rv msg errNo :
  envelope out = Ok (tree, rv, msg, errNo) -> fromstring out = Some tree.
Proof.
  unfold envelope. destruct (fromstring out) as [t|]; simpl; [|discriminate].
  intros H. rbinds H. now injection H as ->.
Qed.

(** what [decode] can give *)
Lemma decode_outcomes (cmd : argv) (out : string) :
  match decode cmd out with
  | Ok tree => fromstring out = Some tree
  | Raise (GlusterXMLError c x) => c = cmd /\ x = out
  | Raise (GlusterCmdFailed c code _) => c = cmd /\ code <> 0
  | Raise TypeError => True
  | Raise _ => False
  end.
Proof.
  unfold decode. destruct (envelope out) as [[[[tree rv] msg] errNo]|e] eqn:He.
  - destruct (Z.eqb_spec rv 0) as [->|Hrv].
    + now apply envelope_tree in He.
    + split; [reflexivity|]. now destruct (Z.eqb_spec errNo 0).
  - apply envelope_raises in He as [->|[->|[->| ->]]]; simpl; auto.
Qed.

End Outcomes.

(** X1. When the tool is not busy, [_execGlusterXml] either returns the
    parsed tree or raises one of three things: [GlusterXMLError] with the
    command (ending in [--xml]) and the raw output, [GlusterCmdFailed] with
    that command and a code that is never 0, or a bare [TypeError].  The
    parser's own [ParseError], [AttributeError] and [ValueError] never reach
    the caller. *)
Theorem execGlusterXml_outcomes (env : Env) (cmd : argv) (w : World) rc out err :
  execCmd (xml cmd) = (rc, out, err) ->
  ~ carries_marker (out ++ err) ->
  match fst (_execGlusterXml cmd w) with
  | Ok tree => fromstring out = Some tree
  | Raise (GlusterXMLError c x) => c = xml cmd /\ x = out
  | Raise (GlusterCmdFailed c code _) => c = xml cmd /\ code <> 0
  | Raise TypeError => True
  | Raise _ => False
  end.
Proof.
  intros He Hq. rewrite (execGlusterXml_quiet _ w He Hq). cbn [fst].
  apply decode_outcomes.
Qed.

Lemma execGlusterXml_outcomes_witness :
  let env := example_env (always 0 "not xml <" "") in
  match fst (_execGlusterXml ["gluster"; "volume"; "info"] initial) with
  | Ok tree => fromstring "not xml <" = Some tree
  | Raise (GlusterXMLError c x) =>
      c = ["gluster"; "volume"; "info"; "--xml"] /\ x = "not xml <"
  | Raise (GlusterCmdFailed c code _) =>
      c = ["gluster"; "volume"; "info"; "--xml"] /\ code <> 0
  | Raise TypeError => True
  | Raise _ => False
  end.
Proof.
  intros env.
  apply (@execGlusterXml_outcomes env ["gluster"; "volume"; "info"] initial
           0 "not xml <" "").
  - reflexivity.
  - apply PyStrFacts.busy_test_false. reflexivity.
Defined.

(** X2. An envelope whose [opRet] element is present but empty makes
    [_execGlusterXml] raise a bare [TypeError]: [int(None)] is not among the
    exceptions the [except] clause turns into [GlusterXMLError]. *)
Theorem empty_opRet_TypeError (env : Env) (cmd : argv) (w : World)
    rc out err tree el :
  execCmd (xml cmd) = (rc, out, err) ->
  ~ carries_marker (out ++ err) ->
  fromstring out = Some tree ->
  find "opRet" tree = Some el ->
  text el = None ->
  fst (_execGlusterXml cmd w) = Raise TypeError.
Proof.
  intros He Hq Hf Hr Ht. rewrite (execGlusterXml_quiet _ w He Hq). cbn [fst].
  unfold decode, envelope. rewrite Hf. simpl. rewrite Hr. simpl. now rewrite Ht.
Qed.

Lemma empty_opRet_TypeError_witness :
  let env := example_env (always 0 empty_opRet_output "") in
  fst (_execGlusterXml (volumeStop_command "vol0" false) initial) = Raise TypeError.
Proof.
  intros env.
  apply (@empty_opRet_TypeError env (volumeStop_command "vol0" false) initial
           0 empty_opRet_output ""
           (Elem "cliOutput" None
              [Elem "opRet" None []; Elem "opErrno" (Some "0") [];
               Elem "opErrstr" None []])
           (Elem "opRet" None [])); try reflexivity.
  apply PyStrFacts.busy_test_false. reflexivity.
Defined.

(** X3. When the envelope says [opRet] 0, [_execGlusterXml] returns the tree
    whatever the exit code of the tool and whatever [opErrno] is: neither is
    looked at on this path. *)
Theorem zero_opRet_returns_tree (env : Env) (cmd : argv) (w : World)
    rc out err tree msg errNo :
  execCmd (xml cmd) = (rc, out, err) ->
  ~ carries_marker (out ++ err) ->
  envelope out = Ok (tree, 0, msg, errNo) ->
  _execGlusterXml cmd w = (Ok tree, logged (xml cmd) w).
Proof.
  intros He Hq Henv. rewrite (execGlusterXml_quiet _ w He Hq).
  now rewrite (decode_ok _ _ Henv).
Qed.

Lemma zero_opRet_returns_tree_witness :
  let env := example_env (always 1 nonzero_errno_output "boom") in
  fst (call (OpVolumeStop "vol0" false) initial) = Ok (PBool true).
Proof.
  intros env.
  unfold call, volumeStop, acknowledged, bind.
  rewrite (@zero_opRet_returns_tree env (volumeStop_command "vol0" false) initial
             1 nonzero_errno_output "boom"
             (Elem "cliOutput" None
                [Elem "opRet" (Some "0") []; Elem "opErrno" (Some "7") [];
                 Elem "opErrstr" None []])
             None 7 eq_refl
             (proj1 (PyStrFacts.busy_test_false (nonzero_errno_output ++ "boom"))
                    eq_refl)
             eq_refl).
  reflexivity.
Defined.

(** ** Further properties: the identity of the local peer *)

Section LocalPeer.

Context {env : Env}.

Lemma first_ipaddr_outside (devs : list string) (ip : string) :
  first_ipaddr devs = Some ip -> PyStr.startswith "127." ip = false.
Proof.
  induction devs as [|dev devs IH]; cbn [first_ipaddr]; [discriminate|].
  destruct (get_ipaddr dev) as [a|]; [|exact IH].
  destruct (PyStr.startswith "127." a) eqn:Ha; cbn [negb]; [exact IH|].
  now intros [= <-].
Qed.

(** the address [_getLocalPeer] computes when nothing is cached does not
    depend on the state: [None] stands for the fall-back to the host name *)
Lemma getLocalPeer_fresh :
  exists r : option string,
    (forall ip, r = Some ip -> PyStr.startswith "127." ip = false)
    /\ forall w, PyStr.truthy (_peer w) = false ->
                 _getLocalPeer w
                 = match r with
                   | Some ip => (Ok ip, mkWorld (_peerUUID w) ip (calls w))
                   | None => (Ok getfqdn, w)
                   end.
Proof.
  destruct (PyStr.startswith "127." (gethostbyname getfqdn)) eqn:Hip.
  - exists (first_ipaddr get_active_devices). split.
    + intros ip. apply first_ipaddr_outside.
    + intros w Hp. unfold _getLocalPeer, bind, get_peer, set_peer, ret.
      cbv beta iota zeta. rewrite Hp, Hip. cbv beta iota delta [negb].
      now destruct (first_ipaddr get_active_devices).
  - exists (Some (gethostbyname getfqdn)). split.
    + now intros ip [= <-].
    + intros w Hp. unfold _getLocalPeer, bind, get_peer, set_peer, ret.
      cbv beta iota zeta. now rewrite Hp, Hip.
Qed.

Lemma getLocalPeer_cached (w : World) :
  PyStr.truthy (_peer w) = true -> _getLocalPeer w = (Ok (_peer w), w).
Proof.
  intros Hp. unfold _getLocalPeer, bind, get_peer, ret. cbv beta iota zeta.
  now rewrite Hp.
Qed.

Lemma getLocalPeer_keeps (w : World) :
  exists p w', _getLocalPeer w = (Ok p, w')
               /\ calls w' = calls w /\ _peerUUID w' = _peerUUID w.
Proof.
  destruct (PyStr.truthy (_peer w)) eqn:Hp.
  - rewrite (getLocalPeer_cached _ Hp). now exists (_peer w), w.
  - destruct getLocalPeer_fresh as (r & _ & H). rewrite (H w Hp).
    destruct r; now eexists _, _.
Qed.

Lemma getLocalPeerUUID_cached (w : World) :
  PyStr.truthy (_peerUUID w) = true ->
  _getLocalPeerUUID w = (Ok (_peerUUID w), w).
Proof.
  intros Hu. unfold _getLocalPeerUUID, bind, get_peerUUID, ret.
  cbv beta iota zeta. now rewrite Hu.
Qed.

End LocalPeer.


Lemma truthy_false (s : string) : PyStr.truthy s = false -> s = "".
Proof. destruct s; [reflexivity | discriminate]. Qed.

Lemma substring_all (u : string) : String.substring 0 (String.length u) u = u.
Proof. induction u as [|c u IH]; simpl; [reflexivity | now rewrite IH]. Qed.

(** X5. [_getLocalPeerUUID] returns a cached UUID without running anything.
    With nothing cached it runs [system:: uuid get] once; if the tool is not
    busy and the stripped output is "UUID: " followed by [u], it returns [u]
    and caches it; if the output does not start with "UUID: ", it returns
    the empty string and caches nothing, whatever the exit code. *)
Theorem getLocalPeerUUID_result (env : Env) (w : World) rc out err :
  (PyStr.truthy (_peerUUID w) = true ->
   _getLocalPeerUUID w = (Ok (_peerUUID w), w))
  /\ (PyStr.truthy (_peerUUID w) = false ->
      execCmd uuid_get = (rc, out, err) ->
      ~ carries_marker (out ++ err) ->
      (forall u, PyStr.strip out = "UUID: " ++ u ->
                 _getLocalPeerUUID w
                 = (Ok u, mkWorld u (_peer w) (calls w ++ [uuid_get])%list))
      /\ (PyStr.startswith "UUID: " (PyStr.strip out) = false ->
          _getLocalPeerUUID w = (Ok "", logged uuid_get w))).
Proof.
  split; [apply getLocalPeerUUID_cached|].
  intros Hu He Hq.
  assert (_getLocalPeerUUID w
          = bind (if PyStr.startswith "UUID: " (PyStr.strip out)
                  then set_peerUUID
                         (String.substring 6 (String.length (PyStr.strip out) - 6)
                            (PyStr.strip out))
                  else ret tt)
                 (fun _ => get_peerUUID) (logged uuid_get w)) as ->.
  { unfold _getLocalPeerUUID. unfold bind at 1. unfold get_peerUUID at 1.
    cbv beta iota. rewrite Hu. fold uuid_get. unfold bind at 1.
    now rewrite (execGluster_quiet _ w He Hq). }
  split.
  - intros u Ho. rewrite Ho.
    assert (PyStr.startswith "UUID: " ("UUID: " ++ u) = true) as ->.
    { apply PyStrFacts.startswith_spec. now exists u. }
    unfold bind, set_peerUUID, get_peerUUID. cbn [String.append String.length].
    cbn [String.substring Nat.sub]. rewrite Nat.sub_0_r, substring_all. reflexivity.
  - intros Hs. rewrite Hs. unfold bind, ret, get_peerUUID, logged. cbn.
    now rewrite (truthy_false _ Hu).
Qed.

Lemma getLocalPeerUUID_result_witness :
  let env := example_env peers_tool in
  _getLocalPeerUUID initial
  = (Ok "a1", mkWorld "a1" "" [["/usr/sbin/gluster"; "system::"; "uuid"; "get"]]).
Proof.
  intros env.
  refine (proj1 (proj2 (@getLocalPeerUUID_result env initial 0 "UUID: a1" "")
                   eq_refl eq_refl _) "a1" eq_refl).
  apply PyStrFacts.busy_test_false. reflexivity.
Defined.

(** ** Further properties: one command for each call *)

Section Once.

Context {env : Env}.

Variable P : argv -> Prop.

Lemma quiet_get_peer : grows P get_peer.
Proof. now apply grows_nothing. Qed.

Lemma quiet_set_peer ip : grows P (set_peer ip).
Proof. now apply grows_nothing. Qed.

Lemma quiet_getLocalPeer : grows P _getLocalPeer.
Proof.
  apply grows_nothing. intros w.
  destruct (getLocalPeer_keeps w) as (p & w' & -> & Hc & _). exact Hc.
Qed.

Lemma quiet_mapM {A B} (f : A -> M B) (l : list A) :
  (forall a, grows P (f a)) -> grows P (mapM f l).
Proof. intros Hf. induction l; simpl; auto with grows. Qed.

Lemma quiet_mapped {A} command xmltree (m : M A) :
  grows P m -> grows P (mapped command xmltree m).
Proof. intros H. unfold mapped. auto with grows. Qed.

Lemma quiet_parseVolumeStatus tree : grows P (_parseVolumeStatus tree).
Proof.
  unfold _parseVolumeStatus.
  apply grows_bind; [auto with grows|]. intros name.
  apply grows_bind; [apply quiet_getLocalPeer|]. auto with grows.
Qed.

Lemma quiet_profile_brick key brick : grows P (profile_brick key brick).
Proof.
  unfold profile_brick. apply grows_bind; [auto with grows|]. intros n.
  apply grows_bind; [|auto with grows].
  destruct n as [s|]; [|auto with grows].
  destruct (String.eqb_spec s "localhost") as [->|Hs].
  { apply grows_bind; [apply quiet_getLocalPeer | auto with grows]. }
  assert (forall (a b : M pyval), grows P b ->
            grows P match s with
                    | "localhost"%string => a
                    | _ => b
                    end) as Hm.
  { intros a b Hb.
    repeat match goal with
           | |- grows _ (match ?x with _ => _ end) =>
               is_var x; destruct x; try assumption
           | |- grows _ (if ?b then _ else _) => destruct b; try assumption
           end.
    now elim Hs. }
  apply Hm. auto with grows.
Qed.

Lemma quiet_parseVolumeProfileInfo tree nfs :
  grows P (_parseVolumeProfileInfo tree nfs).
Proof.
  unfold _parseVolumeProfileInfo.
  apply grows_bind; [apply quiet_mapM; apply quiet_profile_brick | auto with grows].
Qed.

Lemma once_decoded (command : argv) (mapper : Element -> M pyval) :
  (forall t, grows P (mapper t)) ->
  starts_with P (xml command) (decoded command mapper).
Proof.
  intros H. unfold decoded. apply starts_bind; [apply starts_execGlusterXml|].
  intros t. apply quiet_mapped. apply H.
Qed.

Lemma once_acknowledged (command : argv) :
  starts_with P (xml command) (acknowledged command).
Proof.
  unfold acknowledged. apply starts_bind; [apply starts_execGlusterXml|].
  auto with grows.
Qed.

(** apart from [peerStatus], a public function runs nothing after its first
    command that would need any property: [P] is arbitrary *)
Lemma call_once (op : Operation) :
  op <> OpPeerStatus ->
  starts_with P (if plain op then command_of op else xml (command_of op)) (call op).
Proof.
  intros Hop.
  destruct op; simpl;
    try apply once_acknowledged;
    try (apply once_decoded; intros t; unfold single;
         repeat apply grows_if;
         auto using quiet_parseVolumeStatus, quiet_parseVolumeProfileInfo with grows).
  - unfold volumeStart. apply starts_bind; [apply starts_execGluster|]. auto with grows.
  - unfold volumeSetHelpXml. apply starts_bind; [apply starts_execGluster|].
    intros [[rc out] err]. auto with grows.
  - unfold volumeReplaceBrickStatus. apply starts_bind; [apply starts_execGluster|].
    intros [[rc out] err]. destruct (PyStr.chars out); auto with grows.
  - unfold peerDetach. apply starts_try; [apply once_acknowledged|].
    intros e. destruct e; auto with grows.
  - now elim Hop.
  - unfold volumeGeoRepConfig. apply starts_bind; [apply starts_execGlusterXml|].
    intros t. apply grows_if; auto using quiet_mapped with grows.
  - unfold snapshotDelete. apply starts_bind; [apply starts_execGluster|].
    intros [[rc out] err]. auto with grows.
Qed.

End Once.

Section OnceFacts.

Context {env : Env}.

Lemma execGlusterXml_state (cmd : argv) (w : World) :
  snd (_execGlusterXml cmd w) = logged (xml cmd) w.
Proof.
  unfold _execGlusterXml, bind, run. destruct (execCmd (xml cmd)) as [[rc out] err].
  unfold _throwIfBusy. now destruct (PyStr.contains _ _).
Qed.

Lemma peerStatus_cached (w : World) :
  PyStr.truthy (_peerUUID w) = true ->
  calls (snd (peerStatus w)) = (calls w ++ [xml peerStatus_command])%list.
Proof.
  intros Hu. unfold peerStatus, decoded, bind.
  pose proof (execGlusterXml_state peerStatus_command w) as Hs.
  destruct (_execGlusterXml peerStatus_command w) as [[t|e] w1]; cbn [snd] in Hs;
    subst w1; [|reflexivity].
  unfold mapped, try_except, bind.
  destruct (getLocalPeer_keeps (logged (xml peerStatus_command) w))
    as (p & w2 & -> & Hc & Hu2).
  rewrite getLocalPeerUUID_cached by (rewrite Hu2; exact Hu).
  unfold lift.
  destruct (_parsePeerStatus t p (_peerUUID w2) HostStatus.CONNECTED) as [v|e];
    [exact Hc|].
  destruct (_etreeExceptions e); exact Hc.
Qed.

End OnceFacts.

(** X6. Every public function other than [peerStatus] runs exactly one
    command, whatever the tool answers and whether the call succeeds or
    fails; [peerStatus] does so as well once the UUID of the local peer is
    cached. *)
Theorem one_command_per_call (env : Env) (op : Operation) (w : World) :
  op <> OpPeerStatus \/ PyStr.truthy (_peerUUID w) = true ->
  issued op w = [if plain op then command_of op else xml (command_of op)].
Proof.
  intros H. destruct (op_is_peerStatus op) eqn:Hop.
  - assert (op = OpPeerStatus) as -> by (destruct op; try discriminate; reflexivity).
    destruct H as [H|H]; [now elim H|].
    unfold issued. cbn [call plain listed_plain command_of].
    rewrite (peerStatus_cached _ H). apply skipn_length_app.
  - assert (op <> OpPeerStatus) as Hne by (intros ->; discriminate).
    destruct (call_once (fun _ => False) Hne w) as (rest & Hc & HP).
    unfold issued. rewrite Hc, skipn_length_app.
    destruct rest as [|c rest]; [reflexivity|]. now inversion HP.
Qed.

Lemma one_command_per_call_witness :
  let env := example_env (always 3 "garbage" "") in
  issued (OpVolumeInfo None None) initial
  = [["/usr/sbin/gluster"; "--mode=script"; "volume"; "info"; "--xml"]].
Proof.
  intros env.
  apply (@one_command_per_call env (OpVolumeInfo None None) initial).
  left. discriminate.
Defined.

(** ** Further properties: dicts built from the children of an element *)

Lemma key_eqb_eq (a b : option string) : key_eqb a b = true <-> a = b.
Proof.
  destruct a as [x|], b as [y|]; simpl; try (split; congruence).
  rewrite String.eqb_eq. split; congruence.
Qed.

Lemma key_eqb_refl (a : option string) : key_eqb a a = true.
Proof. now apply key_eqb_eq. Qed.

Lemma key_eqb_sym (a b : option string) : key_eqb a b = key_eqb b a.
Proof.
  destruct (key_eqb a b) eqn:H1, (key_eqb b a) eqn:H2; try reflexivity.
  - apply key_eqb_eq in H1. subst. now rewrite key_eqb_refl in H2.
  - apply key_eqb_eq in H2. subst. now rewrite key_eqb_refl in H1.
Qed.

Lemma dict_get_set_same {V} (k : option string) (v : V) d :
  dict_get k (dict_set k v d) = Some v.
Proof.
  induction d as [|[k' v'] d IH]; simpl.
  - now rewrite key_eqb_refl.
  - destruct (key_eqb k k') eqn:H; simpl.
    + now rewrite key_eqb_refl.
    + now rewrite H.
Qed.

Lemma dict_get_set_other {V} (k k0 : option string) (v : V) d :
  key_eqb k k0 = false ->
  dict_get k (dict_set k0 v d) = dict_get k d.
Proof.
  intros Hk. induction d as [|[k' v'] d IH]; simpl.
  - now rewrite Hk.
  - destruct (key_eqb k0 k') eqn:H; simpl.
    + apply key_eqb_eq in H. subst k'. now rewrite Hk.
    + destruct (key_eqb k k'); [reflexivity | exact IH].
Qed.

Lemma children_fold_get (k : string) (chs : list Element) d :
  dict_get (Some k)
    (fold_left (fun d ch => dict_set (Some (tag ch)) (PyStr.or_empty (text ch)) d)
               chs d)
  = match rev (filter (fun c => String.eqb (tag c) k) chs) with
    | ch :: _ => Some (PyStr.or_empty (text ch))
    | [] => dict_get (Some k) d
    end.
Proof.
  revert d. induction chs as [|c chs IH]; intros d; [reflexivity|].
  cbn [fold_left filter]. rewrite IH.
  destruct (String.eqb_spec (tag c) k) as [Hc|Hc].
  - cbn [rev]. destruct (rev (filter _ chs)) as [|x l]; [|reflexivity].
    cbn. rewrite Hc. apply dict_get_set_same.
  - destruct (rev (filter _ chs)) as [|x l]; [|reflexivity].
    apply dict_get_set_other. simpl.
    apply String.eqb_neq. congruence.
Qed.

Lemma children_item (el : Element) (k : string) :
  dict_item k (children_dict el)
  = match rev (step k el) with
    | ch :: _ => Ok (PyStr.or_empty (text ch))
    | [] => Raise (KeyError k)
    end.
Proof.
  unfold dict_item, children_dict, step. rewrite children_fold_get.
  now destruct (rev (filter _ (getchildren el))).
Qed.

(** X7. In the dict a mapper builds from the children of an element
    ([value[ch.tag] = ch.text or '']), looking up a tag gives the text of
    the last child with that tag, the empty string when that child is empty,
    and raises [KeyError] exactly when no child has the tag. *)
Theorem children_dict_lookup (el : Element) (k : string) :
  dict_item k (children_dict el)
  = match rev (step k el) with
    | ch :: _ => Ok (PyStr.or_empty (text ch))
    | [] => Raise (KeyError k)
    end
  /\ (dict_item k (children_dict el) = Raise (KeyError k) <-> step k el = []).
Proof.
  rewrite children_item. split; [reflexivity|].
  destruct (step k el) as [|c l] eqn:Hs; [now split|].
  split; [|discriminate].
  cbn [rev]. destruct (rev l); cbn; discriminate.
Qed.

Example children_dict_example :
  let el := Elem "node" None
              [Elem "port" (Some "1") []; Elem "pid" None [];
               Elem "port" (Some "2") []] in
  dict_item "port" (children_dict el) = Ok "2"
  /\ dict_item "pid" (children_dict el) = Ok ""
  /\ dict_item "path" (children_dict el) = Raise (KeyError "path")
  /\ ftext "port" el = Ok (Some "1").
Proof. repeat split. Qed.

(** ** Further properties: volume status *)

Lemma dict_item_set_same {V} (k : string) (v : V) d :
  dict_item k (dict_set (Some k) v d) = Ok v.
Proof. unfold dict_item. now rewrite dict_get_set_same. Qed.

Lemma dict_item_set_other {V} (k k0 : string) (v : V) d :
  String.eqb k k0 = false ->
  dict_item k (dict_set (Some k0) v d) = dict_item k d.
Proof. intros H. unfold dict_item. now rewrite dict_get_set_other. Qed.

(** X8. For a [node] element with the six children the mapper reads,
    [_parseVolumeStatus] reports the local peer's address in place of the
    path "localhost", reports the status ONLINE for the code "1" and OFFLINE
    for every other code, and files the node under NFS servers or self-heal
    daemons when its host name is exactly "NFS Server" or "Self-heal
    Daemon", and under bricks (as "host:path") otherwise. *)
Theorem status_node_result (hostname : string) (el : Element) p s h u q i :
  dict_item "path" (children_dict el) = Ok p ->
  dict_item "status" (children_dict el) = Ok s ->
  dict_item "hostname" (children_dict el) = Ok h ->
  dict_item "peerid" (children_dict el) = Ok u ->
  dict_item "port" (children_dict el) = Ok q ->
  dict_item "pid" (children_dict el) = Ok i ->
  let path := if String.eqb p "localhost" then hostname else p in
  let st := if String.eqb s "1" then "ONLINE" else "OFFLINE" in
  status_node hostname el
  = Ok (if String.eqb h "NFS Server" then
          (Nfs, PDict [item "hostname" (PStr path); item "hostuuid" (PStr u);
                       item "port" (PStr q); item "status" (PStr st);
                       item "pid" (PStr i)])
        else if String.eqb h "Self-heal Daemon" then
          (Shd, PDict [item "hostname" (PStr path); item "hostuuid" (PStr u);
                       item "status" (PStr st); item "pid" (PStr i)])
        else
          (Brick, PDict [item "brick" (PStr (h ++ ":" ++ path));
                         item "hostuuid" (PStr u); item "port" (PStr q);
                         item "status" (PStr st); item "pid" (PStr i)])).
Proof.
  intros Hp Hs Hh Hu Hq Hi path st. unfold status_node.
  rewrite Hp. cbn [rbind].
  set (value1 := if String.eqb p "localhost"
                 then dict_set (Some "path") hostname (children_dict el)
                 else children_dict el).
  assert (dict_item "path" value1 = Ok path) as Hp1.
  { unfold value1, path. destruct (String.eqb p "localhost");
      [apply dict_item_set_same | exact Hp]. }
  assert (forall k v, String.eqb k "path" = false ->
                      dict_item k (children_dict el) = Ok v ->
                      dict_item k value1 = Ok v) as H1.
  { intros k v Hk Hv. unfold value1. destruct (String.eqb p "localhost");
      [now rewrite dict_item_set_other | exact Hv]. }
  rewrite (H1 "status" s eq_refl Hs). cbn [rbind]. fold st.
  set (value2 := dict_set (Some "status") st value1).
  assert (forall k v, String.eqb k "status" = false ->
                      dict_item k value1 = Ok v ->
                      dict_item k value2 = Ok v) as H2.
  { intros k v Hk Hv. unfold value2. now rewrite dict_item_set_other. }
  assert (dict_item "status" value2 = Ok st) as Hs2
    by apply dict_item_set_same.
  rewrite (H2 "hostname" h eq_refl (H1 "hostname" h eq_refl Hh)). cbn [rbind].
  rewrite (H2 "path" path eq_refl Hp1), Hs2,
          (H2 "peerid" u eq_refl (H1 "peerid" u eq_refl Hu)),
          (H2 "port" q eq_refl (H1 "port" q eq_refl Hq)),
          (H2 "pid" i eq_refl (H1 "pid" i eq_refl Hi)).
  unfold colon.
  destruct (String.eqb h "NFS Server"); [reflexivity|].
  destruct (String.eqb h "Self-heal Daemon"); reflexivity.
Qed.

Lemma status_node_result_witness :
  status_node "10.0.0.1"
    (Elem "node" None
       [Elem "hostname" (Some "NFS Server") []; Elem "path" (Some "localhost") [];
        Elem "peerid" (Some "a1") []; Elem "status" (Some "0") [];
        Elem "port" (Some "2049") []; Elem "pid" (Some "-1") []])
  = Ok (Nfs, PDict [item "hostname" (PStr "10.0.0.1"); item "hostuuid" (PStr "a1");
                    item "port" (PStr "2049"); item "status" (PStr "OFFLINE");
                    item "pid" (PStr "-1")]).
Proof.
  apply (@status_node_result "10.0.0.1" _ "localhost" "0" "NFS Server" "a1" "2049" "-1");
    reflexivity.
Defined.

Lemma mapR_length {A B} (f : A -> result B) (l : list A) (bs : list B) :
  mapR f l = Ok bs -> List.length bs = List.length l.
Proof.
  revert bs. induction l as [|a l IH]; intros bs H; simpl in H.
  - now injection H as <-.
  - rbinds H. injection H as <-. simpl. f_equal. now apply IH.
Qed.

Lemma buckets_length (l : list (bucket * pyval)) :
  (List.length (in_bucket Brick l) + List.length (in_bucket Nfs l)
   + List.length (in_bucket Shd l))%nat = List.length l.
Proof.
  unfold in_bucket. induction l as [|[[] v] l IH]; simpl; [reflexivity| | |];
    rewrite ?Nat.add_succ_r; simpl; now rewrite IH.
Qed.

(** X9. When [_parseVolumeStatus] succeeds, every [node] element of the
    response is in exactly one of the three lists: the lengths of [bricks],
    [nfs] and [shd] add up to the number of nodes.  The call runs no command
    and leaves the cached UUID alone. *)
Theorem volume_status_buckets (env : Env) (tree : Element) (w : World) v :
  fst (_parseVolumeStatus tree w) = Ok v ->
  exists name bricks nfs shd,
    v = PDict [item "name" name; item "bricks" (PList bricks);
               item "nfs" (PList nfs); item "shd" (PList shd)]
    /\ (List.length bricks + List.length nfs + List.length shd)%nat
       = List.length (findall "volStatus/volumes/volume/node" tree)
    /\ calls (snd (_parseVolumeStatus tree w)) = calls w.
Proof.
  unfold _parseVolumeStatus, bind, lift.
  destruct (ftext "volStatus/volumes/volume/volName" tree) as [name|e];
    [|discriminate].
  destruct (getLocalPeer_keeps w) as (p & w' & -> & Hc & _).
  destruct (mapR (status_node p) _) as [nodes|e] eqn:Hn; [|discriminate].
  cbn [fst snd ret]. intros [= <-].
  exists (PText name), (in_bucket Brick nodes), (in_bucket Nfs nodes),
         (in_bucket Shd nodes).
  split; [reflexivity|]. split; [|exact Hc].
  rewrite buckets_length. now apply mapR_length in Hn.
Qed.

Lemma volume_status_buckets_witness :
  let env := example_env (always 0 status_output "") in
  let tree := match MiniXml.fromstring status_output with
              | Some t => t
              | None => Elem "" None []
              end in
  exists name bricks nfs shd,
    fst (_parseVolumeStatus tree initial)
    = Ok (PDict [item "name" name; item "bricks" (PList bricks);
                 item "nfs" (PList nfs); item "shd" (PList shd)])
    /\ (List.length bricks + List.length nfs + List.length shd)%nat = 2%nat.
Proof.
  intros env tree.
  destruct (@volume_status_buckets env tree initial _ eq_refl)
    as (name & bricks & nfs & shd & Hv & Hl & _).
  exists name, bricks, nfs, shd. split; [now rewrite <- Hv | exact Hl].
Defined.

(** ** Further properties: which exceptions reach the caller *)

Create HintDb attr.

Section Failures.

Variable P : exn -> Prop.

Lemma fails_Ok {A} (a : A) : fails_only P (Ok a).
Proof. intros e. discriminate. Qed.

Lemma fails_rbind {A B} (r : result A) (k : A -> result B) :
  fails_only P r -> (forall a, fails_only P (k a)) -> fails_only P (rbind r k).
Proof.
  intros Hr Hk e. destruct r as [a|e']; simpl; [apply Hk|].
  intros [= <-]. now apply Hr.
Qed.

Lemma fails_mapR {A B} (f : A -> result B) (l : list A) :
  (forall a, fails_only P (f a)) -> fails_only P (mapR f l).
Proof.
  intros Hf. induction l as [|a l IH]; simpl; [apply fails_Ok|].
  apply fails_rbind; [apply Hf|]. intros b.
  apply fails_rbind; [apply IH|]. intros bs. apply fails_Ok.
Qed.

Lemma fails_if {A} (b : bool) (r1 r2 : result A) :
  fails_only P r1 -> fails_only P r2 -> fails_only P (if b then r1 else r2).
Proof. now destruct b. Qed.

Lemma raises_ret {A} (a : A) : raises_only P (ret a).
Proof. intros w e. discriminate. Qed.

Lemma raises_lift {A} (r : result A) : fails_only P r -> raises_only P (lift r).
Proof. intros H w e. apply H. Qed.

Lemma raises_bind {A B} (m : M A) (k : A -> M B) :
  raises_only P m -> (forall a, raises_only P (k a)) -> raises_only P (bind m k).
Proof.
  intros Hm Hk w e. unfold bind. pose proof (Hm w) as Hw.
  destruct (m w) as [[a|e'] w']; [apply Hk|].
  cbn. intros [= <-]. now apply Hw.
Qed.

Lemma raises_mapM {A B} (f : A -> M B) (l : list A) :
  (forall a, raises_only P (f a)) -> raises_only P (mapM f l).
Proof.
  intros Hf. induction l as [|a l IH]; simpl; [apply raises_ret|].
  apply raises_bind; [apply Hf|]. intros b.
  apply raises_bind; [apply IH|]. intros bs. apply raises_ret.
Qed.

Lemma raises_if {A} (b : bool) (m1 m2 : M A) :
  raises_only P m1 -> raises_only P m2 -> raises_only P (if b then m1 else m2).
Proof. now destruct b. Qed.

End Failures.

#[export] Hint Resolve fails_Ok fails_rbind fails_mapR fails_if
  raises_ret raises_lift raises_bind raises_mapM raises_if : attr.

Lemma raises_weaken {A} (P Q : exn -> Prop) (m : M A) :
  (forall e, P e -> Q e) -> raises_only P m -> raises_only Q m.
Proof. intros H Hm w e He. apply H. now apply (Hm w). Qed.

(** the mappers that read the tree with [find(...).text] and string
    methods fail with [AttributeError] only *)
Lemma fails_ftext path el : fails_only attr (ftext path el).
Proof. intros e. apply text_of_raises. Qed.

Lemma fails_str_method x : fails_only attr (str_method x).
Proof. destruct x; intros e; [discriminate | now intros [= <-]]. Qed.

Lemma fails_split_text x : fails_only attr (split_text x).
Proof.
  unfold split_text. apply fails_rbind; [apply fails_str_method|].
  intros a. apply fails_Ok.
Qed.

#[export] Hint Resolve fails_ftext fails_str_method fails_split_text : attr.

Lemma fails_volume_entry el : fails_only attr (volume_entry el).
Proof. unfold volume_entry, option_entry. auto 40 with attr. Qed.

Lemma fails_parseVolumeInfo tree : fails_only attr (_parseVolumeInfo tree).
Proof. unfold _parseVolumeInfo. auto using fails_volume_entry with attr. Qed.

Lemma fails_rebalance tree mode :
  fails_only attr (_parseVolumeRebalanceRemoveBrickStatus tree mode).
Proof.
  unfold _parseVolumeRebalanceRemoveBrickStatus, rebalance_node.
  repeat apply fails_if; try apply fails_Ok;
    (apply fails_rbind;
     [destruct (find _ tree); [apply fails_Ok | now intros e [= <-]]
     | auto 60 with attr]).
Qed.

Lemma fails_parseVolumeTasks tree : fails_only attr (_parseVolumeTasks tree).
Proof. unfold _parseVolumeTasks, volume_tasks, task_entry. auto 40 with attr. Qed.

Lemma fails_parseGeoRepStatus tree detail :
  fails_only attr (_parseGeoRepStatus tree detail).
Proof.
  unfold _parseGeoRepStatus, georep_volume, georep_session, georep_pair.
  auto 60 with attr.
Qed.

Lemma fails_parseVolumeGeoRepConfig tree :
  fails_only attr (_parseVolumeGeoRepConfig tree).
Proof.
  unfold _parseVolumeGeoRepConfig. destruct (find _ tree);
    [apply fails_Ok | now intros e [= <-]].
Qed.

Lemma fails_parseRestoredSnapshot tree :
  fails_only attr (_parseRestoredSnapshot tree).
Proof. unfold _parseRestoredSnapshot. auto 20 with attr. Qed.

Lemma fails_parsePeerStatus tree h u s :
  fails_only attr (_parsePeerStatus tree h u s).
Proof. unfold _parsePeerStatus, peer_entry. auto 30 with attr. Qed.

Section CallFailures.

Context {env : Env}.

Lemma raises_getLocalPeer P : raises_only P _getLocalPeer.
Proof.
  intros w e. destruct (getLocalPeer_keeps w) as (p & w' & -> & _). discriminate.
Qed.

Lemma raises_execGluster cmd : raises_only reported (_execGluster cmd).
Proof.
  intros w e. unfold _execGluster, bind, run, _throwIfBusy.
  destruct (execCmd cmd) as [[rc out] err].
  destruct (PyStr.contains _ _); cbn; [|discriminate].
  intros [= <-]. exact I.
Qed.

Lemma raises_execGlusterXml cmd : raises_only reported (_execGlusterXml cmd).
Proof.
  intros w e. unfold _execGlusterXml, bind, run, _throwIfBusy.
  destruct (execCmd (xml cmd)) as [[rc out] err].
  destruct (PyStr.contains _ _); cbn.
  - intros [= <-]. exact I.
  - pose proof (decode_outcomes (xml cmd) out) as H.
    destruct (decode (xml cmd) out) as [t|e']; [discriminate|].
    intros [= <-]. destruct e'; try contradiction; exact I.
Qed.

Lemma raises_getLocalPeerUUID : raises_only reported _getLocalPeerUUID.
Proof.
  unfold _getLocalPeerUUID.
  apply raises_bind; [intros w e; discriminate|]. intros u.
  apply raises_if; [apply raises_ret|].
  apply raises_bind; [apply raises_execGluster|]. intros [[rc out] err].
  apply raises_bind.
  - apply raises_if; [intros w e; discriminate | apply raises_ret].
  - intros _ w e. discriminate.
Qed.

(** the [except] clause of a facade function turns the failures of its
    mapper into [GlusterXMLError] *)
Lemma raises_mapped {A} command xmltree (m : M A) :
  raises_only (fun e => attr e \/ reported e) m ->
  raises_only reported (mapped command xmltree m).
Proof.
  intros Hm w e. unfold mapped, try_except. pose proof (Hm w) as Hw.
  destruct (m w) as [[a|e'] w']; [discriminate|]. cbn in Hw.
  destruct (_etreeExceptions e') eqn:Hx; cbn.
  - intros [= <-]. exact I.
  - intros [= <-]. destruct (Hw e' eq_refl) as [Ha|H]; [|exact H].
    unfold attr in Ha. subst e'. discriminate Hx.
Qed.

Lemma raises_pure {A} (r : result A) :
  fails_only attr r -> raises_only (fun e => attr e \/ reported e) (lift r).
Proof. intros H w e He. left. now apply H. Qed.

Lemma raises_profile_brick key brick :
  raises_only (fun e => attr e \/ reported e) (profile_brick key brick).
Proof.
  unfold profile_brick, block_entry, fop_entry.
  apply raises_bind; [apply raises_pure; auto with attr|]. intros n.
  apply raises_bind.
  - assert (raises_only (fun e => attr e \/ reported e)
              (h <- _getLocalPeer ;; ret (PStr h))) as Hl
      by (apply raises_bind; [apply raises_getLocalPeer | intros h; apply raises_ret]).
    assert (raises_only (fun e => attr e \/ reported e) (ret (PText n))) as Hr
      by apply raises_ret.
    destruct n as [s|]; [|exact Hr].
    repeat match goal with
           | |- raises_only _ (match ?x with _ => _ end) =>
               is_var x; destruct x; try assumption
           | |- raises_only _ (if ?b then _ else _) => destruct b; try assumption
           end.
  - intros b. apply raises_pure. auto 80 with attr.
Qed.

Lemma raises_decoded command (mapper : Element -> M pyval) :
  (forall t, raises_only (fun e => attr e \/ reported e) (mapper t)) ->
  raises_only reported (decoded command mapper).
Proof.
  intros H. unfold decoded.
  apply raises_bind; [apply raises_execGlusterXml|]. intros t.
  apply raises_mapped, H.
Qed.

Lemma raises_acknowledged command : raises_only reported (acknowledged command).
Proof.
  unfold acknowledged. apply raises_bind; [apply raises_execGlusterXml|].
  intros t. apply raises_ret.
Qed.

Lemma call_reported (op : Operation) :
  leaks op = false -> raises_only reported (call op).
Proof.
  intros Hl.
  destruct op; try discriminate Hl; cbn [call];
    try apply raises_acknowledged;
    try (apply raises_decoded; intros t; unfold single;
         solve [ apply raises_pure;
                 auto 20 using fails_parseVolumeInfo, fails_rebalance,
                   fails_parseVolumeTasks, fails_parseGeoRepStatus,
                   fails_parseRestoredSnapshot with attr ]).
  - (* volumeStart *)
    unfold volumeStart. apply raises_bind; [apply raises_execGluster|].
    intros x. apply raises_ret.
  - (* peerStatus *)
    apply raises_decoded. intros t.
    apply raises_bind; [apply raises_getLocalPeer|]. intros h.
    apply raises_bind.
    + apply raises_weaken with (P := reported); [now right|].
      apply raises_getLocalPeerUUID.
    + intros u. apply raises_pure, fails_parsePeerStatus.
  - (* volumeProfileInfo *)
    apply raises_decoded. intros t. unfold _parseVolumeProfileInfo.
    apply raises_bind; [apply raises_mapM; apply raises_profile_brick|].
    intros bricks. apply raises_bind; [apply raises_pure; auto with attr|].
    intros v. apply raises_ret.
  - (* volumeGeoRepConfig *)
    unfold volumeGeoRepConfig.
    apply raises_bind; [apply raises_execGlusterXml|]. intros t.
    apply raises_if; [apply raises_ret|].
    apply raises_mapped, raises_pure, fails_parseVolumeGeoRepConfig.
  - (* snapshotDelete *)
    unfold snapshotDelete. apply raises_bind; [apply raises_execGluster|].
    intros [[rc out] err]. apply raises_ret.
Qed.

End CallFailures.



(** X11. [volumeStatus] is one of the exceptions: when a [node] element of
    a successful response has no [path] child, the default variant raises a
    bare [KeyError] for "path", which the [except] clause of the function
    does not catch. *)
Theorem volumeStatus_KeyError (env : Env) volumeName brick (w : World)
    rc out err tree msg errNo name el rest :
  execCmd (xml (volumeStatus_command volumeName brick None)) = (rc, out, err) ->
  ~ carries_marker (out ++ err) ->
  envelope out = Ok (tree, 0, msg, errNo) ->
  ftext "volStatus/volumes/volume/volName" tree = Ok name ->
  findall "volStatus/volumes/volume/node" tree = el :: rest ->
  step "path" el = [] ->
  fst (volumeStatus volumeName brick None w) = Raise (KeyError "path").
Proof.
  intros He Hq Henv Hname Hnodes Hpath.
  unfold volumeStatus, decoded, bind.
  rewrite (execGlusterXml_quiet _ w He Hq), (decode_ok _ _ Henv).
  cbn [key_eqb]. unfold mapped, try_except, _parseVolumeStatus, bind, lift.
  rewrite Hname.
  destruct (getLocalPeer_keeps (logged (xml (volumeStatus_command volumeName brick None)) w))
    as (p & w2 & -> & _).
  rewrite Hnodes. cbn [mapR]. unfold status_node.
  rewrite children_item, Hpath. reflexivity.
Qed.

Lemma volumeStatus_KeyError_witness :
  let env := example_env (always 0 pathless_output "") in
  fst (call (OpVolumeStatus "vol0" None None) initial) = Raise (KeyError "path").
Proof.
  intros env.
  apply (@volumeStatus_KeyError env "vol0" None initial 0 pathless_output ""
           (Elem "cliOutput" None
              [Elem "opRet" (Some "0") []; Elem "opErrno" (Some "0") [];
               Elem "opErrstr" None [];
               Elem "volStatus" None
                 [Elem "volumes" None
                    [Elem "volume" None
                       [Elem "volName" (Some "vol0") [];
                        Elem "node" None [Elem "hostname" (Some "host1") []]]]]])
           None 0 (Some "vol0") (Elem "node" None [Elem "hostname" (Some "host1") []])
           []); try reflexivity.
  apply PyStrFacts.busy_test_false. reflexivity.
Defined.

(** ** Further properties: brick details and peers *)

Lemma bricks_info_complete (ds : list Element) :
  (forall d, In d ds -> find "name" d <> None /\ find "hostUuid" d <> None) ->
  List.length (bricks_info ds) = List.length ds.
Proof.
  induction ds as [|d ds IH]; intros H; [reflexivity|]. cbn [bricks_info].
  destruct (H d (or_introl eq_refl)) as [Hn Hh].
  destruct (find "name" d); [|contradiction].
  destruct (find "hostUuid" d); [|contradiction].
  cbn [List.length]. f_equal. apply IH. intros x Hx. apply H. now right.
Qed.

Lemma bricks_info_stops (pre post : list Element) (d : Element) :
  (forall x, In x pre -> find "name" x <> None /\ find "hostUuid" x <> None) ->
  find "name" d = None \/ find "hostUuid" d = None ->
  bricks_info (pre ++ d :: post) = bricks_info pre.
Proof.
  induction pre as [|x pre IH]; intros H Hd.
  - cbn. destruct Hd as [-> | ->]; [reflexivity|]. now destruct (find "name" d).
  - cbn [app bricks_info].
    destruct (H x (or_introl eq_refl)) as [Hn Hh].
    destruct (find "name" x); [|contradiction].
    destruct (find "hostUuid" x); [|contradiction].
    f_equal. apply IH; [|exact Hd]. intros y Hy. apply H. now right.
Qed.

(** X12. The [bricksInfo] of a decoded volume holds one entry per [brick]
    element when every brick has a [name] and a [hostUuid] child.  At the
    first brick that lacks one of them the collection stops without an
    error: [bricksInfo] then holds the entries of the bricks before it, and
    none for the bricks after it, complete or not. *)
Theorem bricksInfo_stops_at_first_gap (el : Element) k value :
  volume_entry el = Ok (k, PDict value) ->
  let ds := findall "bricks/brick" el in
  dict_get (Some "bricksInfo") value = Some (PList (bricks_info ds))
  /\ ((forall d, In d ds -> find "name" d <> None /\ find "hostUuid" d <> None) ->
      List.length (bricks_info ds) = List.length ds)
  /\ (forall pre d post,
         ds = (pre ++ d :: post)%list ->
         (forall x, In x pre -> find "name" x <> None /\ find "hostUuid" x <> None) ->
         find "name" d = None \/ find "hostUuid" d = None ->
         List.length (bricks_info ds) = List.length pre).
Proof.
  intros H ds. split; [|split].
  - unfold volume_entry in H. rbinds H. now injection H as _ <-.
  - apply bricks_info_complete.
  - intros pre d post -> Hpre Hd. rewrite (bricks_info_stops pre post d Hpre Hd).
    now apply bricks_info_complete.
Qed.

Lemma bricksInfo_stops_at_first_gap_witness :
  exists k value,
    volume_entry old_daemon_volume = Ok (k, PDict value)
    /\ dict_get (Some "bricksInfo") value = Some (PList [])
    /\ dict_get (Some "bricks") value
       = Some (PList [PStr "host1:/b1"; PStr "host2:/b2"]).
Proof.
  eexists _, _. split; [reflexivity|].
  split; [|reflexivity].
  refine (proj1 (@bricksInfo_stops_at_first_gap old_daemon_volume _ _ eq_refl)).
Defined.

(** X13. The list [_parsePeerStatus] returns starts with the entry of the
    local peer, built from the arguments of the call, followed by one entry
    per [peer] element.  A peer whose [state] is not "3" is UNKNOWN, whether
    or not it has a [connected] child; a peer in state "3" is CONNECTED when
    [connected] is "1" and DISCONNECTED otherwise. *)
Theorem peer_status_result (tree : Element) (gHostName gUuid gStatus : string) :
  (forall v, _parsePeerStatus tree gHostName gUuid gStatus = Ok v ->
             exists peers,
               v = PList (PDict [item "hostname" (PStr gHostName);
                                 item "uuid" (PStr gUuid);
                                 item "status" (PStr gStatus)] :: peers)
               /\ List.length peers = List.length (findall "peerStatus/peer" tree))
  /\ (forall el state hostname uuid,
         ftext "state" el = Ok state ->
         ftext "hostname" el = Ok hostname ->
         ftext "uuid" el = Ok uuid ->
         (state <> Some "3" ->
          peer_entry el = Ok (PDict [item "hostname" (PText hostname);
                                     item "uuid" (PText uuid);
                                     item "status" (PStr "UNKNOWN")]))
         /\ (forall connected,
                state = Some "3" ->
                ftext "connected" el = Ok connected ->
                peer_entry el
                = Ok (PDict [item "hostname" (PText hostname);
                             item "uuid" (PText uuid);
                             item "status"
                               (PStr (if key_eqb connected (Some "1")
                                      then "CONNECTED" else "DISCONNECTED"))]))).
Proof.
  split.
  - intros v H. unfold _parsePeerStatus in H. rbinds H. injection H as <-.
    exists a. split; [reflexivity | now apply mapR_length in Ha].
  - intros el state hostname uuid Hs Hh Hu. split.
    + intros Hne. unfold peer_entry. rewrite Hs. cbn [rbind].
      assert (key_eqb state (Some "3") = false) as ->.
      { destruct (key_eqb state (Some "3")) eqn:E; [|reflexivity].
        apply key_eqb_eq in E. contradiction. }
      cbn. now rewrite Hh, Hu.
    + intros connected -> Hc. unfold peer_entry. rewrite Hs. cbn [rbind].
      cbn [key_eqb String.eqb Ascii.eqb Bool.eqb negb]. rewrite Hc. cbn [rbind].
      destruct (key_eqb connected (Some "1")); cbn [rbind]; now rewrite Hh, Hu.
Qed.

Lemma peer_status_result_witness :
  peer_entry stale_peer
  = Ok (PDict [item "hostname" (PStr "host3"); item "uuid" (PStr "c3");
               item "status" (PStr "UNKNOWN")]).
Proof.
  refine (proj1 (proj2 (peer_status_result (Elem "x" None []) "" "" "")
                   stale_peer (Some "2") (Some "host3") (Some "c3")
                   eq_refl eq_refl eq_refl) _).
  discriminate.
Defined.

(** ** Further properties: the commands that are built *)

(** X14. The command of every public function starts with the path of the
    tool and [--mode=script], followed by one of the three subsystems
    [volume], [peer] and [snapshot] and at least one more word. *)
Theorem commands_in_script_mode (env : Env) (op : Operation) :
  exists subsystem rest,
    command_of op = gluster_cmd :: "--mode=script" :: subsystem :: rest
    /\ (subsystem = "volume" \/ subsystem = "peer" \/ subsystem = "snapshot")
    /\ rest <> [].
Proof.
  destruct op; cbn [command_of];
    unfold volumeStatus_command, volumeInfo_command, volumeCreate_command,
      volumeStart_command, volumeStop_command, volumeDelete_command,
      volumeSet_command, volumeSetHelpXml_command, volumeReset_command,
      volumeAddBrick_command, volumeRebalanceStart_command,
      volumeRebalanceStop_command, volumeRebalanceStatus_command,
      volumeReplaceBrickStart_command, volumeReplaceBrickAbort_command,
      volumeReplaceBrickPause_command, volumeReplaceBrickStatus_command,
      volumeReplaceBrickCommit_command, replaceBrick_command,
      volumeRemoveBrickStart_command, volumeRemoveBrickStop_command,
      volumeRemoveBrickStatus_command, volumeRemoveBrickCommit_command,
      volumeRemoveBrickForce_command, removeBrick_command,
      peerProbe_command, peerDetach_command, peerStatus_command,
      volumeProfileStart_command, volumeProfileStop_command,
      volumeProfileInfo_command, volumeTasks_command,
      volumeGeoRepSessionStart_command, volumeGeoRepSessionStop_command,
      volumeGeoRepSessionPause_command, volumeGeoRepSessionResume_command,
      geoRepSession_command, volumeGeoRepStatus_command,
      volumeGeoRepConfig_command, snapshotCreate_command, snapshotDelete_command,
      snapshotActivate_command, snapshotDeactivate_command,
      snapshotRestore_command,
      _getGlusterVolGeoRepCmd, _getGlusterVolCmd, _getGlusterPeerCmd,
      _getGlusterSnapshotCmd;
    cbn [app];
    eexists _, _; (split; [reflexivity|]); (split; [auto|]); discriminate.
Qed.

(** X15. In every command builder that takes a [force] flag, setting the
    flag changes nothing but to add the single word [force] at the very end
    of the command. *)
Theorem force_is_last (env : Env) :
  (forall v b r s t, volumeCreate_command v b r s t true
                     = (volumeCreate_command v b r s t false ++ ["force"])%list)
  /\ (forall v, volumeStart_command v true
                = (volumeStart_command v false ++ ["force"])%list)
  /\ (forall v, volumeStop_command v true
                = (volumeStop_command v false ++ ["force"])%list)
  /\ (forall v o, volumeReset_command v o true
                  = (volumeReset_command v o false ++ ["force"])%list)
  /\ (forall v b r s, volumeAddBrick_command v b r s true
                      = (volumeAddBrick_command v b r s false ++ ["force"])%list)
  /\ (forall v t, volumeRebalanceStart_command v t true
                  = (volumeRebalanceStart_command v t false ++ ["force"])%list)
  /\ (forall v, volumeRebalanceStop_command v true
                = (volumeRebalanceStop_command v false ++ ["force"])%list)
  /\ (forall v e n, volumeReplaceBrickCommit_command v e n true
                    = (volumeReplaceBrickCommit_command v e n false ++ ["force"])%list)
  /\ (forall h, peerDetach_command h true
                = (peerDetach_command h false ++ ["force"])%list)
  /\ (forall v h r verb, geoRepSession_command v h r verb true
                         = (geoRepSession_command v h r verb false ++ ["force"])%list)
  /\ (forall v n d, snapshotCreate_command v n d true
                    = (snapshotCreate_command v n d false ++ ["force"])%list)
  /\ (forall n, snapshotActivate_command n true
                = (snapshotActivate_command n false ++ ["force"])%list).
Proof.
  repeat split; intros;
    unfold volumeCreate_command, volumeStart_command, volumeStop_command,
      volumeReset_command, volumeAddBrick_command, volumeRebalanceStart_command,
      volumeRebalanceStop_command, volumeReplaceBrickCommit_command,
      peerDetach_command, geoRepSession_command, snapshotCreate_command,
      snapshotActivate_command, forced;
    rewrite ?app_nil_r, <- ?app_assoc; reflexivity.
Qed.

(** ** Further properties: geo-replication sessions *)

Lemma contains_colon (c : ascii) (s : string) :
  PyStr.contains ":" (String c s) = false ->
  Ascii.eqb ":" c = false /\ PyStr.contains ":" s = false.
Proof.
  cbn [PyStr.contains PyStr.startswith]. intros H.
  apply orb_false_iff in H as [H1 H2]. split; [|exact H2].
  apply andb_false_iff in H1 as [H1|H1]; [exact H1 | discriminate].
Qed.

Lemma split_go_plain (s cur : string) :
  PyStr.contains ":" s = false ->
  PyStr.split_go "::" 0 cur s = [PyStr.rev (PyStr.rev_onto s cur)].
Proof.
  revert cur. induction s as [|c s IH]; intros cur H; [reflexivity|].
  destruct (contains_colon _ _ H) as [H1 H2].
  cbn [PyStr.split_go PyStr.rev_onto PyStr.startswith]. rewrite H1.
  cbn [andb]. now apply IH.
Qed.

Lemma split_go_host (h v cur : string) :
  PyStr.contains ":" h = false ->
  PyStr.split_go "::" 0 cur (h ++ String ":" (String ":" v))
  = PyStr.rev (PyStr.rev_onto h cur) :: PyStr.split_go "::" 0 "" v.
Proof.
  revert cur. induction h as [|c h IH]; intros cur H.
  - reflexivity.
  - destruct (contains_colon _ _ H) as [H1 H2].
    cbn [String.append PyStr.split_go PyStr.rev_onto PyStr.startswith].
    rewrite H1. cbn [andb]. now apply IH.
Qed.

Lemma split_slave (h v : string) :
  PyStr.contains ":" h = false ->
  PyStr.contains ":" v = false ->
  PyStr.split "::" (slave h v) = [h; v].
Proof.
  intros Hh Hv. unfold PyStr.split, slave.
  change ("::" ++ v) with (String ":" (String ":" v)).
  rewrite (split_go_host h v "" Hh), (split_go_plain v "" Hv).
  fold (PyStr.rev h). fold (PyStr.rev v).
  now rewrite !PyStrFacts.rev_involutive.
Qed.

(** X16. The session name that the geo-replication functions put in their
    command, [remoteHost::remoteVolumeName], is taken apart again by the
    status mapper: for a host and a volume name without a colon, a session
    with that name decodes to that volume name, and a pair with that slave
    decodes to that host. *)
Theorem georep_session_round_trip (remoteHost remoteVolumeName : string)
    (detail : bool) (session pair : Element) :
  PyStr.contains ":" remoteHost = false ->
  PyStr.contains ":" remoteVolumeName = false ->
  ftext "session_slave" session = Ok (Some (slave remoteHost remoteVolumeName)) ->
  ftext "slave" pair = Ok (Some (slave remoteHost remoteVolumeName)) ->
  (forall v, georep_session detail session = Ok (PDict v) ->
             dict_get (Some "remoteVolumeName") v = Some (PStr remoteVolumeName))
  /\ (forall v, georep_pair detail pair = Ok (PDict v) ->
                dict_get (Some "remoteHost") v = Some (PStr remoteHost)).
Proof.
  intros Hh Hv Hs Hp. split; intros v H.
  - unfold georep_session in H. rewrite Hs in H. cbn [rbind] in H.
    unfold split_text, str_method in H. cbn [rbind] in H.
    rewrite (split_slave _ _ Hh Hv) in H. rbinds H. now injection H as <-.
  - unfold georep_pair in H. rbinds H.
    rewrite Hp in Ha2. injection Ha2 as <-.
    unfold split_text, str_method in Ha3. cbn [rbind] in Ha3.
    rewrite (split_slave _ _ Hh Hv) in Ha3. injection Ha3 as <-.
    injection H as <-. reflexivity.
Qed.

Lemma georep_session_round_trip_witness :
  exists v,
    georep_session false
      (Elem "session" None [Elem "session_slave" (Some "host2::remoteVol") []])
    = Ok (PDict v)
    /\ dict_get (Some "remoteVolumeName") v = Some (PStr "remoteVol").
Proof.
  eexists. split; [reflexivity|].
  refine (proj1 (@georep_session_round_trip "host2" "remoteVol" false
                   (Elem "session" None [Elem "session_slave" (Some "host2::remoteVol") []])
                   (Elem "pair" None [Elem "slave" (Some "host2::remoteVol") []])
                   eq_refl eq_refl eq_refl eq_refl) _ eq_refl).
Defined.

(** ** Further properties: dicts keyed by a name of the response *)

Lemma dict_set_keys {V} (k k0 : option string) (v : V) d :
  In k (List.map fst (dict_set k0 v d)) <-> k = k0 \/ In k (List.map fst d).
Proof.
  induction d as [|[k' v'] d IH]; simpl.
  - intuition congruence.
  - destruct (key_eqb k0 k') eqn:H; simpl.
    + apply key_eqb_eq in H. subst k'. intuition congruence.
    + rewrite IH. intuition congruence.
Qed.

Lemma dict_set_NoDup {V} (k0 : option string) (v : V) d :
  NoDup (List.map fst d) -> NoDup (List.map fst (dict_set k0 v d)).
Proof.
  induction d as [|[k' v'] d IH]; simpl; intros H.
  - constructor; [intros [] | constructor].
  - inversion H as [|? ? Hn Hd]; subst.
    destruct (key_eqb k0 k') eqn:E; simpl.
    + apply key_eqb_eq in E. subst k'. now constructor.
    + constructor; [|now apply IH].
      rewrite dict_set_keys. intros [->|Hin]; [|contradiction].
      now rewrite key_eqb_refl in E.
Qed.

Lemma set_all_NoDup {V} (kvs d : list (option string * V)) :
  NoDup (List.map fst d) -> NoDup (List.map fst (set_all kvs d)).
Proof.
  unfold set_all. revert d. induction kvs as [|kv kvs IH]; intros d H; simpl;
    [exact H|].
  apply IH. now apply dict_set_NoDup.
Qed.

Lemma set_all_get {V} (k : option string) (kvs d : list (option string * V)) :
  dict_get k (set_all kvs d)
  = match rev (filter (fun kv => key_eqb k (fst kv)) kvs) with
    | kv :: _ => Some (snd kv)
    | [] => dict_get k d
    end.
Proof.
  unfold set_all. revert d. induction kvs as [|[k0 v0] kvs IH]; intros d;
    [reflexivity|].
  cbn [fold_left filter fst snd]. rewrite IH.
  destruct (key_eqb k k0) eqn:E.
  - cbn [rev]. destruct (rev (filter _ kvs)) as [|x l]; [|reflexivity].
    cbn. apply key_eqb_eq in E. subst k0. apply dict_get_set_same.
  - destruct (rev (filter _ kvs)) as [|x l]; [|reflexivity].
    now apply dict_get_set_other.
Qed.

(** X17. The result of [_parseVolumeInfo] has one entry for each distinct
    volume name of the response, never two for the same name; when a name
    occurs more than once, the entry is the one decoded from the last volume
    with that name, and a name that no volume has is not a key. *)
Theorem volume_info_by_name (tree : Element) volumes :
  _parseVolumeInfo tree = Ok (PDict volumes) ->
  NoDup (List.map fst volumes)
  /\ exists entries,
       mapR volume_entry (findall "volInfo/volumes/volume" tree) = Ok entries
       /\ forall name,
            dict_get name volumes
            = option_map snd
                (hd_error (rev (filter (fun kv => key_eqb name (fst kv)) entries))).
Proof.
  intros H. unfold _parseVolumeInfo in H. rbinds H. injection H as <-. split.
  - apply set_all_NoDup. constructor.
  - exists a. split; [exact Ha|]. intros name. rewrite set_all_get.
    now destruct (rev (filter _ a)).
Qed.

Lemma volume_info_by_name_witness :
  exists volumes,
    _parseVolumeInfo twice_vol0 = Ok (PDict volumes)
    /\ NoDup (List.map fst volumes)
    /\ List.map fst volumes = [Some "vol0"]
    /\ match dict_get (Some "vol0") volumes with
       | Some (PDict value) => dict_get (Some "uuid") value
       | _ => None
       end = Some (PStr "second").
Proof.
  eexists. split; [reflexivity|].
  split; [|split; reflexivity].
  refine (proj1 (@volume_info_by_name twice_vol0 _ eq_refl)).
Defined.

(** ** Further properties: replace-brick markers, single results, options *)

Lemma stat_line_status_order_witness :
  stat_line_status "MIGRATION PAUSED, LAST RUN: MIGRATION COMPLETE" = "PAUSED".
Proof.
  apply (proj1 (stat_line_status_order _)).
  exists "MIGRATION ", ", LAST RUN: MIGRATION COMPLETE". reflexivity.
Defined.

Section Single.

Context {env : Env}.

Lemma decoded_success (command : argv) (mapper : Element -> M pyval) (w : World)
    rc out err tree msg errNo :
  execCmd (xml command) = (rc, out, err) ->
  ~ carries_marker (out ++ err) ->
  envelope out = Ok (tree, 0, msg, errNo) ->
  decoded command mapper w
  = mapped (xml command) tree (mapper tree) (logged (xml command) w).
Proof.
  intros He Hq Henv. unfold decoded, bind.
  now rewrite (execGlusterXml_quiet _ w He Hq), (decode_ok _ _ Henv).
Qed.

Lemma mapped_single (command : argv) (tree : Element) (key path : string) (w : World) :
  fst (mapped command tree (single key path tree) w)
  = match find path tree with
    | Some el => Ok (PDict [item key (PText (text el))])
    | None => Raise (GlusterXMLError command (tostring tree))
    end.
Proof.
  unfold mapped, try_except, single, lift, ftext.
  now destruct (find path tree).
Qed.

End Single.

(** X19. The five functions that return a single identifier
    ([volumeCreate], [volumeRebalanceStart], [volumeReplaceBrickStart],
    [volumeRemoveBrickStart], [snapshotCreate]) return, for a successful
    envelope, a dict with the one key and the text of the identifier element
    ([None] when that element is empty); when the element is missing they
    raise [GlusterXMLError] with the serialised tree and the command, which
    by then ends in [--xml]. *)
Theorem single_identifier (env : Env) (op : Operation) (key path : string)
    (w : World) rc out err tree msg errNo :
  single_result op = Some (key, path) ->
  execCmd (xml (command_of op)) = (rc, out, err) ->
  ~ carries_marker (out ++ err) ->
  envelope out = Ok (tree, 0, msg, errNo) ->
  fst (call op w)
  = match find path tree with
    | Some el => Ok (PDict [item key (PText (text el))])
    | None => Raise (GlusterXMLError (xml (command_of op)) (tostring tree))
    end.
Proof.
  intros Hop He Hq Henv.
  destruct op; try discriminate Hop; cbn [single_result] in Hop;
    injection Hop as <- <-; cbn [call command_of] in *;
    unfold volumeCreate, volumeRebalanceStart, volumeReplaceBrickStart,
      volumeRemoveBrickStart, snapshotCreate;
    rewrite (decoded_success _ _ w He Hq Henv); apply mapped_single.
Qed.

Lemma single_identifier_witness :
  let env := example_env (always 0 created_output "") in
  fst (call (OpVolumeCreate "vol0" ["host1:/b1"] 0 0 [] false) initial)
  = Ok (PDict [item "uuid" (PStr "f7e1")]).
Proof.
  intros env.
  apply (@single_identifier env (OpVolumeCreate "vol0" ["host1:/b1"] 0 0 [] false)
           "uuid" "volCreate/volume/id" initial 0 created_output ""
           (Elem "cliOutput" None
              [Elem "opRet" (Some "0") []; Elem "opErrno" (Some "0") [];
               Elem "opErrstr" None [];
               Elem "volCreate" None
                 [Elem "volume" None
                    [Elem "name" (Some "vol0") []; Elem "id" (Some "f7e1") []]]])
           None 0); try reflexivity.
  apply PyStrFacts.busy_test_false. reflexivity.
Defined.

(** X20. [volumeGeoRepConfig] called with a non-empty option name returns
    [True] for every successful envelope, without reading the tree; an
    empty option name counts as none, and then the configuration is decoded
    (or [GlusterXMLError] raised when the response has none). *)
Theorem geoRepConfig_result (env : Env) volumeName remoteHost remoteVolumeName
    optionName optionValue (w : World) rc out err tree msg errNo :
  let command := volumeGeoRepConfig_command volumeName remoteHost remoteVolumeName
                   optionName optionValue in
  execCmd (xml command) = (rc, out, err) ->
  ~ carries_marker (out ++ err) ->
  envelope out = Ok (tree, 0, msg, errNo) ->
  fst (volumeGeoRepConfig volumeName remoteHost remoteVolumeName
         optionName optionValue w)
  = if is_set optionName then Ok (PBool true)
    else match _parseVolumeGeoRepConfig tree with
         | Ok v => Ok v
         | Raise _ => Raise (GlusterXMLError (xml command) (tostring tree))
         end.
Proof.
  intros command He Hq Henv. unfold volumeGeoRepConfig, bind. fold command.
  rewrite (execGlusterXml_quiet _ w He Hq), (decode_ok _ _ Henv).
  destruct (is_set optionName); [reflexivity|].
  unfold mapped, try_except, lift.
  pose proof (fails_parseVolumeGeoRepConfig tree) as Hf.
  destruct (_parseVolumeGeoRepConfig tree) as [v|e]; [reflexivity|].
  now rewrite (Hf e eq_refl).
Qed.

Lemma geoRepConfig_result_witness :
  let env := example_env (always 0 nonzero_errno_output "") in
  fst (call (OpVolumeGeoRepConfig "vol0" "host2" "remoteVol"
               (Some "log-level") (Some "DEBUG")) initial)
  = Ok (PBool true).
Proof.
  intros env.
  apply (@geoRepConfig_result env "vol0" "host2" "remoteVol"
           (Some "log-level") (Some "DEBUG") initial 0 nonzero_errno_output ""
           (Elem "cliOutput" None
              [Elem "opRet" (Some "0") []; Elem "opErrno" (Some "7") [];
               Elem "opErrstr" None []])
           None 7); try reflexivity.
  apply PyStrFacts.busy_test_false. reflexivity.
Defined.

(** X21. [volumeSetHelpXml] parses the standard output of the tool itself:
    unless the tool is busy it returns one dict per [option] element of the
    document, whatever the exit code, and output that is no XML document
    makes it raise the parser's bare [ParseError], not [GlusterXMLError]. *)
Theorem volumeSetHelpXml_result (env : Env) (w : World) rc out err :
  execCmd volumeSetHelpXml_command = (rc, out, err) ->
  ~ carries_marker (out ++ err) ->
  fst (volumeSetHelpXml w)
  = match fromstring out with
    | Some tree =>
        Ok (PList (List.map (fun el => str_dict (children_dict el))
                            (findall "option" tree)))
    | None => Raise ParseError
    end.
Proof.
  intros He Hq. unfold volumeSetHelpXml, bind.
  rewrite (execGluster_quiet _ w He Hq). unfold lift, _parseVolumeSetHelpXml.
  now destruct (fromstring out).
Qed.

Lemma volumeSetHelpXml_result_witness :
  let env := example_env (always 1 "unrecognized word: help-xml" "") in
  fst (call OpVolumeSetHelpXml initial) = Raise ParseError.
Proof.
  intros env.
  apply (@volumeSetHelpXml_result env initial 1 "unrecognized word: help-xml" "").
  - reflexivity.
  - apply PyStrFacts.busy_test_false. reflexivity.
Defined.
